(** * ts-tapl: the type checkers of arith.ts, basic.ts and obj.ts

    A shallow embedding of the TypeScript sources.  Every program lives in
    a module of its own, named after the file it embeds:

    - [Arith]  : src/arith.ts  (booleans and numbers, no environment);
    - [Basic]  : src/basic.ts  (variables, functions, calls);
    - [Obj]    : src/obj.ts, first program (adds seq, const, objects);
    - [Seq2]   : src/obj.ts, second program (adds seq2 / const2).

    [Basic] and [Obj] take the environment as a value.  [BasicHeap] and
    [ObjHeap] embed the same two programs with the environments as mutable
    objects of a heap, as [Seq2] does, and are proved to compute the same
    outcomes and to leave every existing object as it was.

    A JavaScript [throw] is the [Throw] outcome of [result].  The payload
    [n] of a number literal is never inspected by any checker; it is kept
    as an integer.

    A [TypeEnv] is a plain JavaScript object used as a dictionary.  Such an
    object has own properties and a prototype, and both take part in
    [tyEnv[name]] and in [newTyEnv[name] = type]; see [get] and [assign].
    A read of [tyEnv[name]] can give a value that is not a type, a method of
    [Object.prototype] for instance.  The [var] case returns that value as
    if it were a type; the embedding follows such a run no further and
    gives it, and every call around it, the outcome [NotAType].  What a
    run returns or throws after such a read is not described: the outcomes
    [Ok] and [Throw] are those of runs in which every variable reads a
    type or [undefined]. *)

From stdpp Require Import base strings list gmap.
From Stdlib Require Import ZArith Lia.

Set Default Proof Using "Type".
Set Warnings "-register-all".
Local Open Scope string_scope.
Local Open Scope list_scope.

(** ** Outcomes of a call *)

(** A call returns a type, throws, or reads from the environment a
    JavaScript value that is not a type ([NotAType]); what the call does
    from there on is not described. *)
Inductive result (E A : Type) : Type :=
| Ok (a : A)
| Throw (e : E)
| NotAType.
Arguments Ok {E A} a.
Arguments Throw {E A} e.
Arguments NotAType {E A}.

Notation "'do' x <- e ; k" :=
  (match e with Ok x => k | Throw err => Throw err | NotAType => NotAType end)
  (at level 10, x name, e at level 100, k at level 200, only parsing).

(** ** Environment objects

    An environment is a plain object: its own properties, and its
    prototype.  The prototype is [Object.prototype] for an object made by
    an object literal.  The assignment [newTyEnv["__proto__"] = type] runs
    the setter that [Object.prototype] has under that name, which makes the
    type object (or [null]) the prototype of [newTyEnv]; so a prototype can
    also be a type object, or absent.  [V] is the type of the values that
    the checker handles as types. *)

Inductive prototype (V : Type) : Type :=
| ObjectPrototype
| TypePrototype (ty : V)
| NullPrototype.
Arguments ObjectPrototype {V}.
Arguments TypePrototype {V} ty.
Arguments NullPrototype {V}.

Record env (V : Type) : Type := Env {
  own : gmap string V;
  proto : prototype V
}.
Arguments Env {V} own proto.
Arguments own {V} e.
Arguments proto {V} e.

(** What [tyEnv[name]] evaluates to: a type, some other value, or
    [undefined]. *)
Inductive property (V : Type) : Type :=
| Value (v : V)
| Other
| Undefined.
Arguments Value {V} v.
Arguments Other {V}.
Arguments Undefined {V}.

(** The names of the properties of [Object.prototype] (ECMAScript, with
    the legacy accessors of its annex B).  All of them are methods, but
    [__proto__], an accessor whose getter returns the prototype of the
    object it is read from and whose setter replaces it. *)
Definition Object_prototype_names : list string :=
  ["constructor"; "hasOwnProperty"; "isPrototypeOf"; "propertyIsEnumerable";
   "toLocaleString"; "toString"; "valueOf"; "__proto__";
   "__defineGetter__"; "__defineSetter__"; "__lookupGetter__"; "__lookupSetter__"].

Definition inherited (name : string) : bool :=
  bool_decide (name ∈ Object_prototype_names).

(** What the checker's type values are as JavaScript objects. *)
Class TypeValue (V : Type) : Type := {
  (** The own property [name] of a type object: [None] when the object has
      no such property, [Some None] when the property holds a value that is
      not a type (a tag, an array), [Some (Some v)] when it holds the type
      [v]. *)
  field : V -> string -> option (option V);
  (** The value is [null]. *)
  is_null : V -> bool
}.

Section env.
Context {V : Type} `{TypeValue V}.

(** [tyEnv[name]]: an own property, or else a property found along the
    prototype chain.  Under a type object the chain goes on to
    [Object.prototype]. *)
Definition get (tyEnv : env V) (name : string) : property V :=
  match own tyEnv !! name with
  | Some v => Value v
  | None =>
      match proto tyEnv with
      | NullPrototype => Undefined
      | ObjectPrototype => if inherited name then Other else Undefined
      | TypePrototype ty =>
          match field ty name with
          | Some (Some v) => Value v
          | Some None => Other
          | None =>
              if String.eqb name "__proto__" then Value ty
              else if inherited name then Other else Undefined
          end
      end
  end.

(** [tyEnv[name] = v]: an own property of the name is updated; otherwise
    the setter of [__proto__] runs when the name is [__proto__] and the
    chain reaches [Object.prototype]; otherwise an own property is
    created. *)
Definition assign (tyEnv : env V) (name : string) (v : V) : env V :=
  match own tyEnv !! name with
  | Some _ => Env (<[name := v]> (own tyEnv)) (proto tyEnv)
  | None =>
      if String.eqb name "__proto__" then
        match proto tyEnv with
        | NullPrototype => Env (<[name := v]> (own tyEnv)) (proto tyEnv)
        | _ => Env (own tyEnv) (if is_null v then NullPrototype else TypePrototype v)
        end
      else Env (<[name := v]> (own tyEnv)) (proto tyEnv)
  end.

(** A name is bound to a type: by an own property, or, for [__proto__], by
    the prototype being that type object. *)
Definition bound (tyEnv : env V) (name : string) (v : V) : Prop :=
  own tyEnv !! name = Some v \/
  (name = "__proto__" /\ own tyEnv !! name = None /\ proto tyEnv = TypePrototype v).

(** [{ ...tyEnv }]: a new object with the own properties of [tyEnv]. *)
Definition copy (tyEnv : env V) : env V := Env (own tyEnv) ObjectPrototype.

(** [for (const { name, type } of params) newTyEnv[name] = type] *)
Definition assign_params (newTyEnv : env V) (params : list (string * V)) : env V :=
  foldl (fun newTyEnv p => assign newTyEnv p.1 p.2) newTyEnv params.

(** [{}] *)
#[export] Instance env_empty : Empty (env V) := Env ∅ ObjectPrototype.

(** [{ ...tyEnv, [name]: v }]: the computed key of an object literal
    defines an own property, whatever the name. *)
#[export] Instance env_insert : Insert string V (env V) :=
  fun name v tyEnv => Env (<[name := v]> (own tyEnv)) ObjectPrototype.

(** [{ [name]: v }] *)
#[export] Instance env_singleton : SingletonM string V (env V) :=
  fun name v => <[name := v]> ∅.

(** Every type that the environment holds, as an own property or as its
    prototype, satisfies [P]. *)
Definition env_Forall (P : V -> Prop) (tyEnv : env V) : Prop :=
  map_Forall (fun (_ : string) v => P v) (own tyEnv) /\
  match proto tyEnv with TypePrototype ty => P ty | _ => True end.

(** *** The heap of environment objects

    The heap is the list of the objects allocated so far, a reference is a
    position in it. *)

(** The object a reference points to. *)
Definition deref (h : list (env V)) (l : nat) : env V := default ∅ (h !! l).

(** A new object. *)
Definition alloc (obj : env V) (h : list (env V)) : nat * list (env V) :=
  (length h, h ++ [obj]).

(** [l[name] = v] *)
Definition store (l : nat) (name : string) (v : V) (h : list (env V)) : list (env V) :=
  <[l := assign (deref h l) name v]> h.

(** [for (const { name, type } of params) newTyEnv[name] = type] *)
Definition store_params (newTyEnv : nat) (params : list (string * V)) (h : list (env V))
  : list (env V) :=
  foldl (fun h p => store newTyEnv p.1 p.2 h) h params.

End env.

(** The environment with every type mapped. *)
#[export] Instance env_fmap : FMap env :=
  fun V W f tyEnv =>
    Env (f <$> own tyEnv)
        match proto tyEnv with
        | ObjectPrototype => ObjectPrototype
        | TypePrototype ty => TypePrototype (f ty)
        | NullPrototype => NullPrototype
        end.

(** A computation on the heap. *)
Definition ST (E V A : Type) : Type := list (env V) -> result E A * list (env V).

(** A computation that does not touch the heap. *)
Definition pure {E V A} (r : result E A) : ST E V A := fun h => (r, h).

Notation "'run' x <- e 'from' h 'to' h' ; k" :=
  (match e h with
   | (Ok x, h') => k
   | (Throw err, h') => (Throw err, h')
   | (NotAType, h') => (NotAType, h')
   end)
  (at level 10, x name, h name, h' name, e at level 100, k at level 200, only parsing).

(** The heap after a computation extends the heap before it: the objects
    that existed are all there, unchanged. *)
Definition extends {E V A} (m : ST E V A) : Prop := forall h, h `prefix_of` (m h).2.

(** A computation on the heap has the outcome [r] from the heap [h], and
    leaves [h] extended. *)
Definition refines {E V A} (m : ST E V A) (r : result E A) (h : list (env V)) : Prop :=
  exists k, m h = (r, h ++ k).

(** ** arith.ts *)

Module Arith.

Inductive Ty : Type :=
| Boolean
| Number.

Inductive Term : Type :=
| Ttrue
| Tfalse
| Tif (cond thn els : Term)
| Tnumber (n : Z)
| Tadd (left right : Term).

(** [thnTy.tag !== elsTy.tag] and the like compare tags. *)
Definition tag (ty : Ty) : string :=
  match ty with Boolean => "Boolean" | Number => "Number" end.

(** arith.ts throws bare strings. *)
Fixpoint typecheck (t : Term) : result string Ty :=
  match t with
  | Ttrue => Ok Boolean
  | Tfalse => Ok Boolean
  | Tif cond thn els =>
      do condTy <- typecheck cond;
      if negb (String.eqb (tag condTy) "Boolean") then Throw "boolean expected" else
      do thnTy <- typecheck thn;
      do elsTy <- typecheck els;
      if negb (String.eqb (tag thnTy) (tag elsTy))
      then Throw "then and else have different types"
      else Ok thnTy
  | Tnumber _ => Ok Number
  | Tadd l r =>
      do leftTy <- typecheck l;
      if negb (String.eqb (tag leftTy) "Number") then Throw "number expected" else
      do rightTy <- typecheck r;
      if negb (String.eqb (tag rightTy) "Number") then Throw "number expected" else
      Ok Number
  end.

End Arith.

(** ** basic.ts *)

Module Basic.

Inductive Ty : Type :=
| Boolean
| Number
| Func (params : list (string * Ty)) (retType : Ty).

(** [Param = { name: string; type: Type }] *)
Abbreviation Param := (string * Ty)%type.

Inductive Term : Type :=
| Ttrue
| Tfalse
| Tif (cond thn els : Term)
| Tnumber (n : Z)
| Tadd (left right : Term)
| Tvar (name : string)
| Tfunc (params : list Param) (body : Term)
| Tcall (func : Term) (args : list Term)
| Tseq (body rest : Term)
| Tconst (name : string) (init rest : Term).

Abbreviation TypeEnv := (env Ty).

(** A type is an object [{ tag }] or [{ tag, params, retType }]. *)
#[global] Instance type_value : TypeValue Ty := {|
  field ty name :=
    match ty with
    | Boolean | Number => if String.eqb name "tag" then Some None else None
    | Func _ retType =>
        if String.eqb name "tag" then Some None
        else if String.eqb name "params" then Some None
        else if String.eqb name "retType" then Some (Some retType)
        else None
    end;
  is_null _ := false
|}.

(** basic.ts throws bare strings in [if] and [add], and [Error] objects
    elsewhere. *)
Inductive exn : Type :=
| ThrowString (s : string)
| ThrowError (message : string).

Definition is_Boolean (ty : Ty) : bool :=
  match ty with Boolean => true | _ => false end.
Definition is_Number (ty : Ty) : bool :=
  match ty with Number => true | _ => false end.

(** The loop of the [Func] case of [typeEq]:
    [for (i = 0; i < ty1.params.length; i++)
       if (!typeEq(ty1.params[i].type, ty2.params[i].type)) return false].
    It walks both parameter arrays by index; the length test before it has
    made them equally long.  The result is [true] when the loop runs to its
    end. *)
Definition params_loop (typeEq : Ty -> Ty -> bool) : list Param -> list Param -> bool :=
  fix loop (ps1 ps2 : list Param) {struct ps2} : bool :=
    match ps2, ps1 with
    | (_, type2) :: ps2', (_, type1) :: ps1' =>
        if negb (typeEq type1 type2) then false else loop ps1' ps2'
    | _, _ => true
    end.

(** The dispatch is on [ty2]. *)
Fixpoint typeEq (ty1 ty2 : Ty) {struct ty2} : bool :=
  match ty2 with
  | Boolean => is_Boolean ty1
  | Number => is_Number ty1
  | Func params2 retType2 =>
      match ty1 with
      | Func params1 retType1 =>
          if negb (Nat.eqb (length params1) (length params2)) then false else
          if negb (params_loop typeEq params1 params2) then false else
          if negb (typeEq retType1 retType2) then false else
          true
      | _ => false
      end
  end.

(** [const newTyEnv = { ...tyEnv }], then [newTyEnv[name] = type] for each
    parameter, left to right. *)
Definition extend (tyEnv : TypeEnv) (params : list Param) : TypeEnv :=
  assign_params (copy tyEnv) params.

(** The loop of the [call] case:
    [for (i = 0; i < t.args.length; i++) {
       const argTy = typecheck(t.args[i], tyEnv);
       if (!typeEq(argTy, funcTy.params[i].type)) throw ...; }].
    The arity test before it has made the two arrays equally long. *)
Definition args_loop (typecheck : Term -> result exn Ty)
  : list Term -> list Param -> result exn unit :=
  fix loop (args : list Term) (params : list Param) {struct args} : result exn unit :=
    match args with
    | [] => Ok tt
    | arg :: args' =>
        do argTy <- typecheck arg;
        match params with
        | (_, type) :: params' =>
            if negb (typeEq argTy type)
            then Throw (ThrowError "parameter type mismatch")
            else loop args' params'
        | [] => Ok tt
        end
    end.

Fixpoint typecheck (t : Term) (tyEnv : TypeEnv) {struct t} : result exn Ty :=
  match t with
  | Ttrue => Ok Boolean
  | Tfalse => Ok Boolean
  | Tif cond thn els =>
      do condTy <- typecheck cond tyEnv;
      if negb (is_Boolean condTy) then Throw (ThrowString "boolean expected") else
      do thnTy <- typecheck thn tyEnv;
      do elsTy <- typecheck els tyEnv;
      if negb (typeEq thnTy elsTy)
      then Throw (ThrowString "then and else must have the same type")
      else Ok thnTy
  | Tnumber _ => Ok Number
  | Tadd l r =>
      do leftTy <- typecheck l tyEnv;
      if negb (is_Number leftTy) then Throw (ThrowString "number expected") else
      do rightTy <- typecheck r tyEnv;
      if negb (is_Number rightTy) then Throw (ThrowString "number expected") else
      Ok Number
  | Tvar name =>
      match get tyEnv name with
      | Undefined => Throw (ThrowError ("unknown variable: " +:+ name))
      | Value ty => Ok ty
      | Other => NotAType
      end
  | Tfunc params body =>
      let newTyEnv := extend tyEnv params in
      do retType <- typecheck body newTyEnv;
      Ok (Func params retType)
  | Tcall func args =>
      do funcTy <- typecheck func tyEnv;
      match funcTy with
      | Func params retType =>
          if negb (Nat.eqb (length params) (length args))
          then Throw (ThrowError "wrong number of arguments") else
          do _ <- args_loop (fun arg => typecheck arg tyEnv) args params;
          Ok retType
      | _ => Throw (ThrowError "function type expected")
      end
  | Tseq _ _ | Tconst _ _ _ => Throw (ThrowError "not implemented yet")
  end.

(** Induction over a type and the types of its parameters. *)
Fixpoint Ty_nested_ind (P : Ty -> Prop)
  (HBoolean : P Boolean) (HNumber : P Number)
  (HFunc : forall params retType,
      Forall (fun p => P p.2) params -> P retType -> P (Func params retType))
  (ty : Ty) {struct ty} : P ty :=
  match ty with
  | Boolean => HBoolean
  | Number => HNumber
  | Func params retType =>
      HFunc params retType
        ((fix go (ps : list Param) : Forall (fun p => P p.2) ps :=
            match ps with
            | [] => List.Forall_nil _
            | p :: ps' =>
                List.Forall_cons _ p ps' (Ty_nested_ind P HBoolean HNumber HFunc p.2) (go ps')
            end) params)
        (Ty_nested_ind P HBoolean HNumber HFunc retType)
  end.

(** Induction over a term and the arguments of its calls. *)
Fixpoint Term_nested_ind (P : Term -> Prop)
  (Htrue : P Ttrue) (Hfalse : P Tfalse)
  (Hif : forall cond thn els, P cond -> P thn -> P els -> P (Tif cond thn els))
  (Hnumber : forall n, P (Tnumber n))
  (Hadd : forall l r, P l -> P r -> P (Tadd l r))
  (Hvar : forall name, P (Tvar name))
  (Hfunc : forall params body, P body -> P (Tfunc params body))
  (Hcall : forall func args, P func -> Forall P args -> P (Tcall func args))
  (Hseq : forall body rest, P body -> P rest -> P (Tseq body rest))
  (Hconst : forall name init rest, P init -> P rest -> P (Tconst name init rest))
  (t : Term) {struct t} : P t :=
  let rec := Term_nested_ind P Htrue Hfalse Hif Hnumber Hadd Hvar Hfunc Hcall Hseq
               Hconst in
  match t with
  | Ttrue => Htrue
  | Tfalse => Hfalse
  | Tif cond thn els => Hif cond thn els (rec cond) (rec thn) (rec els)
  | Tnumber n => Hnumber n
  | Tadd l r => Hadd l r (rec l) (rec r)
  | Tvar name => Hvar name
  | Tfunc params body => Hfunc params body (rec body)
  | Tcall func args =>
      Hcall func args (rec func)
        ((fix go (ts : list Term) : Forall P ts :=
            match ts with
            | [] => List.Forall_nil _
            | term :: ts' => List.Forall_cons _ term ts' (rec term) (go ts')
            end) args)
  | Tseq body rest => Hseq body rest (rec body) (rec rest)
  | Tconst name init rest => Hconst name init rest (rec init) (rec rest)
  end.

(** *** Notions used to state properties of basic.ts *)

(** A type with the parameter names blanked out. *)
Fixpoint erase (ty : Ty) : Ty :=
  match ty with
  | Boolean => Boolean
  | Number => Number
  | Func params retType => Func (map (fun p => ("", erase p.2)) params) (erase retType)
  end.

(** The term has no [seq] and no [const] anywhere. *)
Fixpoint seq_const_free (t : Term) : bool :=
  match t with
  | Ttrue | Tfalse | Tnumber _ | Tvar _ => true
  | Tif cond thn els => seq_const_free cond && seq_const_free thn && seq_const_free els
  | Tadd l r => seq_const_free l && seq_const_free r
  | Tfunc _ body => seq_const_free body
  | Tcall func args => seq_const_free func && forallb seq_const_free args
  | Tseq _ _ | Tconst _ _ _ => false
  end.

(** A term of arith.ts as a term of basic.ts, and likewise a type. *)
Fixpoint of_arith (t : Arith.Term) : Term :=
  match t with
  | Arith.Ttrue => Ttrue
  | Arith.Tfalse => Tfalse
  | Arith.Tif cond thn els => Tif (of_arith cond) (of_arith thn) (of_arith els)
  | Arith.Tnumber n => Tnumber n
  | Arith.Tadd l r => Tadd (of_arith l) (of_arith r)
  end.

Definition of_arith_ty (ty : Arith.Ty) : Ty :=
  match ty with Arith.Boolean => Boolean | Arith.Number => Number end.

End Basic.

(** ** basic.ts, over the heap of environment objects *)

Module BasicHeap.
Import Basic.

Abbreviation loc := nat.
Abbreviation heap := (list (env Ty)).
Abbreviation M := (ST exn Ty).

Definition args_loop (typecheck : Term -> loc -> M Ty) (tyEnv : loc)
  : list Term -> list Param -> M unit :=
  fix loop (args : list Term) (params : list Param) {struct args} : M unit :=
    fun h =>
    match args with
    | [] => (Ok tt, h)
    | arg :: args' =>
        run argTy <- typecheck arg tyEnv from h to h;
        match params with
        | (_, type) :: params' =>
            if negb (typeEq argTy type)
            then (Throw (ThrowError "parameter type mismatch"), h)
            else loop args' params' h
        | [] => (Ok tt, h)
        end
    end.

Fixpoint typecheck (t : Term) (tyEnv : loc) {struct t} : M Ty :=
  fun h =>
  match t with
  | Ttrue => (Ok Boolean, h)
  | Tfalse => (Ok Boolean, h)
  | Tif cond thn els =>
      run condTy <- typecheck cond tyEnv from h to h;
      if negb (is_Boolean condTy)
      then (Throw (ThrowString "boolean expected"), h) else
      run thnTy <- typecheck thn tyEnv from h to h;
      run elsTy <- typecheck els tyEnv from h to h;
      if negb (typeEq thnTy elsTy)
      then (Throw (ThrowString "then and else must have the same type"), h)
      else (Ok thnTy, h)
  | Tnumber _ => (Ok Number, h)
  | Tadd l r =>
      run leftTy <- typecheck l tyEnv from h to h;
      if negb (is_Number leftTy)
      then (Throw (ThrowString "number expected"), h) else
      run rightTy <- typecheck r tyEnv from h to h;
      if negb (is_Number rightTy)
      then (Throw (ThrowString "number expected"), h) else
      (Ok Number, h)
  | Tvar name =>
      match get (deref h tyEnv) name with
      | Undefined => (Throw (ThrowError ("unknown variable: " +:+ name)), h)
      | Value ty => (Ok ty, h)
      | Other => (NotAType, h)
      end
  | Tfunc params body =>
      let (newTyEnv, h) := alloc (copy (deref h tyEnv)) h in
      let h := store_params newTyEnv params h in
      run retType <- typecheck body newTyEnv from h to h;
      (Ok (Func params retType), h)
  | Tcall func args =>
      run funcTy <- typecheck func tyEnv from h to h;
      match funcTy with
      | Func params retType =>
          if negb (Nat.eqb (length params) (length args))
          then (Throw (ThrowError "wrong number of arguments"), h) else
          run _u <- args_loop typecheck tyEnv args params from h to h;
          (Ok retType, h)
      | _ => (Throw (ThrowError "function type expected"), h)
      end
  | Tseq _ _ | Tconst _ _ _ => (Throw (ThrowError "not implemented yet"), h)
  end.

End BasicHeap.

(** ** obj.ts, first program: objects *)

Module Obj.

Inductive Ty : Type :=
| Boolean
| Number
| Func (params : list (string * Ty)) (retType : Ty)
| Object (props : list (string * Ty)).

(** [Param = { name: string; type: Type }] *)
Abbreviation Param := (string * Ty)%type.
(** [PropertyType = { name: string; type: Type }] *)
Abbreviation PropertyType := (string * Ty)%type.

Inductive Term : Type :=
| Ttrue
| Tfalse
| Tif (cond thn els : Term)
| Tnumber (n : Z)
| Tadd (left right : Term)
| Tvar (name : string)
| Tfunc (params : list Param) (body : Term)
| Tcall (func : Term) (args : list Term)
| Tseq (body rest : Term)
| Tconst (name : string) (init rest : Term)
| TobjectNew (props : list (string * Term))
| TobjectGet (obj : Term) (propName : string).

(** [PropertyTerm = { name: string; term: Term }] *)
Abbreviation PropertyTerm := (string * Term)%type.

Abbreviation TypeEnv := (env Ty).

(** A type is an object [{ tag }], [{ tag, params, retType }] or
    [{ tag, props }]. *)
#[global] Instance type_value : TypeValue Ty := {|
  field ty name :=
    match ty with
    | Boolean | Number => if String.eqb name "tag" then Some None else None
    | Func _ retType =>
        if String.eqb name "tag" then Some None
        else if String.eqb name "params" then Some None
        else if String.eqb name "retType" then Some (Some retType)
        else None
    | Object _ =>
        if String.eqb name "tag" then Some None
        else if String.eqb name "props" then Some None
        else None
    end;
  is_null _ := false
|}.

(** What [error] throws: an [Error] whose message is [message], or, when a
    term is passed, [message] followed by [" at "] and the JSON text of the
    term; [ErrorAt message term] stands for the latter. *)
Inductive exn : Type :=
| Error (message : string)
| ErrorAt (message : string) (term : Term).

Definition error {A} (message : string) (term : option Term) : result exn A :=
  match term with
  | Some term => Throw (ErrorAt message term)
  | None => Throw (Error message)
  end.

Definition is_Boolean (ty : Ty) : bool :=
  match ty with Boolean => true | _ => false end.
Definition is_Number (ty : Ty) : bool :=
  match ty with Number => true | _ => false end.

(** [props.find((prop) => prop.name === name)]: the first match. *)
Definition find_prop (props : list PropertyType) (name : string) : option PropertyType :=
  List.find (fun prop => String.eqb prop.1 name) props.

(** The loop of the [Func] case of [typeEq], by index over two arrays
    that the length test before it has made equally long. *)
Definition params_loop (typeEq : Ty -> Ty -> bool) : list Param -> list Param -> bool :=
  fix loop (ps1 ps2 : list Param) {struct ps2} : bool :=
    match ps2, ps1 with
    | (_, type2) :: ps2', (_, type1) :: ps1' =>
        if negb (typeEq type1 type2) then false else loop ps1' ps2'
    | _, _ => true
    end.

(** The loop of the [Object] case of [typeEq]:
    [for (const prop2 of ty2.props) {
       const prop1 = ty1.props.find((prop1) => prop1.name === prop2.name);
       if (!prop1) return false;
       if (!typeEq(prop1.type, prop2.type)) return false; }]. *)
Definition props_loop (typeEq : Ty -> Ty -> bool) (props1 : list PropertyType)
  : list PropertyType -> bool :=
  fix loop (ps2 : list PropertyType) {struct ps2} : bool :=
    match ps2 with
    | [] => true
    | prop2 :: ps2' =>
        match find_prop props1 prop2.1 with
        | None => false
        | Some prop1 =>
            if negb (typeEq prop1.2 prop2.2) then false else loop ps2'
        end
    end.

Fixpoint typeEq (ty1 ty2 : Ty) {struct ty2} : bool :=
  match ty2 with
  | Boolean => is_Boolean ty1
  | Number => is_Number ty1
  | Func params2 retType2 =>
      match ty1 with
      | Func params1 retType1 =>
          if negb (Nat.eqb (length params1) (length params2)) then false else
          if negb (params_loop typeEq params1 params2) then false else
          if negb (typeEq retType1 retType2) then false else
          true
      | _ => false
      end
  | Object props2 =>
      match ty1 with
      | Object props1 =>
          if negb (Nat.eqb (length props1) (length props2)) then false else
          props_loop typeEq props1 props2
      | _ => false
      end
  end.

(** [const newTyEnv = { ...tyEnv }], then [newTyEnv[name] = type] for each
    parameter, left to right. *)
Definition extend (tyEnv : TypeEnv) (params : list Param) : TypeEnv :=
  assign_params (copy tyEnv) params.

(** The loop of the [call] case; a failure is reported at the call [t]. *)
Definition args_loop (typecheck : Term -> result exn Ty) (t : Term)
  : list Term -> list Param -> result exn unit :=
  fix loop (args : list Term) (params : list Param) {struct args} : result exn unit :=
    match args with
    | [] => Ok tt
    | arg :: args' =>
        do argTy <- typecheck arg;
        match params with
        | (_, type) :: params' =>
            if negb (typeEq argTy type)
            then error "parameter type mismatch" (Some t)
            else loop args' params'
        | [] => Ok tt
        end
    end.

(** [t.props.map(({ name, term }) => ({ name, type: typecheck(term, tyEnv) }))]:
    the properties are checked in order, and the first failure ends the
    map. *)
Definition props_map (typecheck : Term -> result exn Ty)
  : list PropertyTerm -> result exn (list PropertyType) :=
  fix map (props : list PropertyTerm) {struct props} : result exn (list PropertyType) :=
    match props with
    | [] => Ok []
    | (name, term) :: props' =>
        do type <- typecheck term;
        do rest <- map props';
        Ok ((name, type) :: rest)
    end.

Fixpoint typecheck (t : Term) (tyEnv : TypeEnv) {struct t} : result exn Ty :=
  match t with
  | Ttrue => Ok Boolean
  | Tfalse => Ok Boolean
  | Tif cond thn els =>
      do condTy <- typecheck cond tyEnv;
      if negb (is_Boolean condTy) then error "boolean expected" (Some cond) else
      do thnTy <- typecheck thn tyEnv;
      do elsTy <- typecheck els tyEnv;
      if negb (typeEq thnTy elsTy)
      then error "then and else must have the same type" (Some t)
      else Ok thnTy
  | Tnumber _ => Ok Number
  | Tadd l r =>
      do leftTy <- typecheck l tyEnv;
      if negb (is_Number leftTy) then error "number expected" (Some l) else
      do rightTy <- typecheck r tyEnv;
      if negb (is_Number rightTy) then error "number expected" (Some r) else
      Ok Number
  | Tvar name =>
      match get tyEnv name with
      | Undefined => error ("unknown variable: " +:+ name) (Some t)
      | Value ty => Ok ty
      | Other => NotAType
      end
  | Tfunc params body =>
      let newTyEnv := extend tyEnv params in
      do retType <- typecheck body newTyEnv;
      Ok (Func params retType)
  | Tcall func args =>
      do funcTy <- typecheck func tyEnv;
      match funcTy with
      | Func params retType =>
          if negb (Nat.eqb (length params) (length args))
          then error "wrong number of arguments" (Some t) else
          do _ <- args_loop (fun arg => typecheck arg tyEnv) t args params;
          Ok retType
      | _ => error "function type expected" (Some t)
      end
  | Tseq body rest =>
      do _ <- typecheck body tyEnv;
      typecheck rest tyEnv
  | Tconst name init rest =>
      do ty <- typecheck init tyEnv;
      let newTyEnv := assign (copy tyEnv) name ty in
      typecheck rest newTyEnv
  | TobjectNew props =>
      do props <- props_map (fun term => typecheck term tyEnv) props;
      Ok (Object props)
  | TobjectGet obj propName =>
      do objectTy <- typecheck obj tyEnv;
      match objectTy with
      | Object props =>
          match find_prop props propName with
          | None => error ("unknown property: " +:+ propName) (Some t)
          | Some prop => Ok prop.2
          end
      | _ => error "object type expected" (Some t)
      end
  end.

(** Induction over a type, the types of its parameters and the types of
    its properties. *)
Fixpoint Ty_nested_ind (P : Ty -> Prop)
  (HBoolean : P Boolean) (HNumber : P Number)
  (HFunc : forall params retType,
      Forall (fun p => P p.2) params -> P retType -> P (Func params retType))
  (HObject : forall props, Forall (fun p => P p.2) props -> P (Object props))
  (ty : Ty) {struct ty} : P ty :=
  let go :=
    fix go (ps : list (string * Ty)) : Forall (fun p => P p.2) ps :=
      match ps with
      | [] => List.Forall_nil _
      | p :: ps' =>
          List.Forall_cons _ p ps'
            (Ty_nested_ind P HBoolean HNumber HFunc HObject p.2) (go ps')
      end in
  match ty with
  | Boolean => HBoolean
  | Number => HNumber
  | Func params retType =>
      HFunc params retType (go params)
        (Ty_nested_ind P HBoolean HNumber HFunc HObject retType)
  | Object props => HObject props (go props)
  end.

(** The invariant that the data model of the specification asks of an
    [Object] type, at every depth: no two properties of one object type
    have the same name. *)
Fixpoint unique_names (ty : Ty) : bool :=
  match ty with
  | Boolean | Number => true
  | Func params retType =>
      forallb (fun p => unique_names p.2) params && unique_names retType
  | Object props =>
      bool_decide (NoDup props.*1) && forallb (fun p => unique_names p.2) props
  end.

(** Induction over a term, the arguments of its calls and the terms of
    its object literals. *)
Fixpoint Term_nested_ind (P : Term -> Prop)
  (Htrue : P Ttrue) (Hfalse : P Tfalse)
  (Hif : forall cond thn els, P cond -> P thn -> P els -> P (Tif cond thn els))
  (Hnumber : forall n, P (Tnumber n))
  (Hadd : forall l r, P l -> P r -> P (Tadd l r))
  (Hvar : forall name, P (Tvar name))
  (Hfunc : forall params body, P body -> P (Tfunc params body))
  (Hcall : forall func args, P func -> Forall P args -> P (Tcall func args))
  (Hseq : forall body rest, P body -> P rest -> P (Tseq body rest))
  (Hconst : forall name init rest, P init -> P rest -> P (Tconst name init rest))
  (HobjectNew : forall props, Forall (fun prop => P prop.2) props -> P (TobjectNew props))
  (HobjectGet : forall obj propName, P obj -> P (TobjectGet obj propName))
  (t : Term) {struct t} : P t :=
  let rec := Term_nested_ind P Htrue Hfalse Hif Hnumber Hadd Hvar Hfunc Hcall Hseq
               Hconst HobjectNew HobjectGet in
  match t with
  | Ttrue => Htrue
  | Tfalse => Hfalse
  | Tif cond thn els => Hif cond thn els (rec cond) (rec thn) (rec els)
  | Tnumber n => Hnumber n
  | Tadd l r => Hadd l r (rec l) (rec r)
  | Tvar name => Hvar name
  | Tfunc params body => Hfunc params body (rec body)
  | Tcall func args =>
      Hcall func args (rec func)
        ((fix go (ts : list Term) : Forall P ts :=
            match ts with
            | [] => List.Forall_nil _
            | term :: ts' => List.Forall_cons _ term ts' (rec term) (go ts')
            end) args)
  | Tseq body rest => Hseq body rest (rec body) (rec rest)
  | Tconst name init rest => Hconst name init rest (rec init) (rec rest)
  | TobjectNew props =>
      HobjectNew props
        ((fix go (ps : list PropertyTerm) : Forall (fun prop => P prop.2) ps :=
            match ps with
            | [] => List.Forall_nil _
            | prop :: ps' => List.Forall_cons _ prop ps' (rec prop.2) (go ps')
            end) props)
  | TobjectGet obj propName => HobjectGet obj propName (rec obj)
  end.

(** *** Notions used to state properties of obj.ts *)

(** The variables that occur free in a term: [func] binds its parameters
    in its body, [const] binds its name in [rest]. *)
Fixpoint fv (t : Term) : gset string :=
  match t with
  | Ttrue | Tfalse | Tnumber _ => ∅
  | Tif cond thn els => fv cond ∪ fv thn ∪ fv els
  | Tadd l r => fv l ∪ fv r
  | Tvar name => {[name]}
  | Tfunc params body => fv body ∖ list_to_set params.*1
  | Tcall func args => fv func ∪ ⋃ (map fv args)
  | Tseq body rest => fv body ∪ fv rest
  | Tconst name init rest => fv init ∪ (fv rest ∖ {[name]})
  | TobjectNew props => ⋃ (map (fun prop => fv prop.2) props)
  | TobjectGet obj _ => fv obj
  end.

(** Every object literal of the term names each property once, and the
    declared parameter types name each property once. *)
Fixpoint props_named_once (t : Term) : bool :=
  match t with
  | Ttrue | Tfalse | Tnumber _ | Tvar _ => true
  | Tif cond thn els =>
      props_named_once cond && props_named_once thn && props_named_once els
  | Tadd l r => props_named_once l && props_named_once r
  | Tfunc params body =>
      forallb (fun p => unique_names p.2) params && props_named_once body
  | Tcall func args => props_named_once func && forallb props_named_once args
  | Tseq body rest => props_named_once body && props_named_once rest
  | Tconst _ init rest => props_named_once init && props_named_once rest
  | TobjectNew props =>
      bool_decide (NoDup props.*1) && forallb (fun prop => props_named_once prop.2) props
  | TobjectGet obj _ => props_named_once obj
  end.

(** A type and a term of basic.ts as a type and a term of obj.ts. *)
Fixpoint of_basic_ty (ty : Basic.Ty) : Ty :=
  match ty with
  | Basic.Boolean => Boolean
  | Basic.Number => Number
  | Basic.Func params retType =>
      Func (map (fun p => (p.1, of_basic_ty p.2)) params) (of_basic_ty retType)
  end.

Fixpoint of_basic (t : Basic.Term) : Term :=
  match t with
  | Basic.Ttrue => Ttrue
  | Basic.Tfalse => Tfalse
  | Basic.Tif cond thn els => Tif (of_basic cond) (of_basic thn) (of_basic els)
  | Basic.Tnumber n => Tnumber n
  | Basic.Tadd l r => Tadd (of_basic l) (of_basic r)
  | Basic.Tvar name => Tvar name
  | Basic.Tfunc params body =>
      Tfunc (map (fun p => (p.1, of_basic_ty p.2)) params) (of_basic body)
  | Basic.Tcall func args => Tcall (of_basic func) (map of_basic args)
  | Basic.Tseq body rest => Tseq (of_basic body) (of_basic rest)
  | Basic.Tconst name init rest => Tconst name (of_basic init) (of_basic rest)
  end.

End Obj.

(** ** obj.ts, first program, over the heap of environment objects *)

Module ObjHeap.
Import Obj.

Abbreviation loc := nat.
Abbreviation heap := (list (env Ty)).
Abbreviation M := (ST exn Ty).

Definition args_loop (typecheck : Term -> loc -> M Ty) (tyEnv : loc) (t : Term)
  : list Term -> list Param -> M unit :=
  fix loop (args : list Term) (params : list Param) {struct args} : M unit :=
    fun h =>
    match args with
    | [] => (Ok tt, h)
    | arg :: args' =>
        run argTy <- typecheck arg tyEnv from h to h;
        match params with
        | (_, type) :: params' =>
            if negb (typeEq argTy type)
            then (error "parameter type mismatch" (Some t), h)
            else loop args' params' h
        | [] => (Ok tt, h)
        end
    end.

Definition props_map (typecheck : Term -> loc -> M Ty) (tyEnv : loc)
  : list PropertyTerm -> M (list PropertyType) :=
  fix map (props : list PropertyTerm) {struct props} : M (list PropertyType) :=
    fun h =>
    match props with
    | [] => (Ok [], h)
    | (name, term) :: props' =>
        run type <- typecheck term tyEnv from h to h;
        run rest <- map props' from h to h;
        (Ok ((name, type) :: rest), h)
    end.

Fixpoint typecheck (t : Term) (tyEnv : loc) {struct t} : M Ty :=
  fun h =>
  match t with
  | Ttrue => (Ok Boolean, h)
  | Tfalse => (Ok Boolean, h)
  | Tif cond thn els =>
      run condTy <- typecheck cond tyEnv from h to h;
      if negb (is_Boolean condTy) then (error "boolean expected" (Some cond), h) else
      run thnTy <- typecheck thn tyEnv from h to h;
      run elsTy <- typecheck els tyEnv from h to h;
      if negb (typeEq thnTy elsTy)
      then (error "then and else must have the same type" (Some t), h)
      else (Ok thnTy, h)
  | Tnumber _ => (Ok Number, h)
  | Tadd l r =>
      run leftTy <- typecheck l tyEnv from h to h;
      if negb (is_Number leftTy) then (error "number expected" (Some l), h) else
      run rightTy <- typecheck r tyEnv from h to h;
      if negb (is_Number rightTy) then (error "number expected" (Some r), h) else
      (Ok Number, h)
  | Tvar name =>
      match get (deref h tyEnv) name with
      | Undefined => (error ("unknown variable: " +:+ name) (Some t), h)
      | Value ty => (Ok ty, h)
      | Other => (NotAType, h)
      end
  | Tfunc params body =>
      let (newTyEnv, h) := alloc (copy (deref h tyEnv)) h in
      let h := store_params newTyEnv params h in
      run retType <- typecheck body newTyEnv from h to h;
      (Ok (Func params retType), h)
  | Tcall func args =>
      run funcTy <- typecheck func tyEnv from h to h;
      match funcTy with
      | Func params retType =>
          if negb (Nat.eqb (length params) (length args))
          then (error "wrong number of arguments" (Some t), h) else
          run _u <- args_loop typecheck tyEnv t args params from h to h;
          (Ok retType, h)
      | _ => (error "function type expected" (Some t), h)
      end
  | Tseq body rest =>
      run _ty <- typecheck body tyEnv from h to h;
      typecheck rest tyEnv h
  | Tconst name init rest =>
      run ty <- typecheck init tyEnv from h to h;
      let (newTyEnv, h) := alloc (copy (deref h tyEnv)) h in
      let h := store newTyEnv name ty h in
      typecheck rest newTyEnv h
  | TobjectNew props =>
      run props <- props_map typecheck tyEnv props from h to h;
      (Ok (Object props), h)
  | TobjectGet obj propName =>
      run objectTy <- typecheck obj tyEnv from h to h;
      match objectTy with
      | Object props =>
          match find_prop props propName with
          | None => (error ("unknown property: " +:+ propName) (Some t), h)
          | Some prop => (Ok prop.2, h)
          end
      | _ => (error "object type expected" (Some t), h)
      end
  end.

End ObjHeap.

(** ** obj.ts, second program: seq2 and const2

    This variant is embedded over the heap of environment objects.  The
    assignment [tyEnv = { ...tyEnv, [term.name]: ty }] of the [seq2] case
    rebinds the local variable [tyEnv] to a new object.

    The [seq2] case ends with [return lastTy!], which TypeScript erases to
    [return lastTy]: the value [null] can leave [typecheck] and travel
    through environments and [Func] types, so [Ty] has it as [Null].
    Reading [.tag] of [null] raises a JavaScript [TypeError]. *)

Module Seq2.

Inductive Ty : Type :=
| Null
| Boolean
| Number
| Func (params : list (string * Ty)) (retType : Ty).

Abbreviation Param := (string * Ty)%type.

Inductive Term : Type :=
| Ttrue
| Tfalse
| Tif (cond thn els : Term)
| Tnumber (n : Z)
| Tadd (left right : Term)
| Tvar (name : string)
| Tfunc (params : list Param) (body : Term)
| Tcall (func : Term) (args : list Term)
| Tseq (body rest : Term)
| Tconst (name : string) (init rest : Term)
| Tseq2 (body : list Term)
| Tconst2 (name : string) (init : Term).

Inductive exn : Type :=
| ThrowString (s : string)
| ThrowError (message : string)
| TypeError.

Abbreviation TypeEnv := (env Ty).
(** References are positions in the heap. *)
Abbreviation loc := nat.
Abbreviation heap := (list (env Ty)).

Abbreviation M := (ST exn Ty).

(** A type is [null] or an object [{ tag }] or [{ tag, params, retType }]. *)
#[global] Instance type_value : TypeValue Ty := {|
  field ty name :=
    match ty with
    | Null => None
    | Boolean | Number => if String.eqb name "tag" then Some None else None
    | Func _ retType =>
        if String.eqb name "tag" then Some None
        else if String.eqb name "params" then Some None
        else if String.eqb name "retType" then Some (Some retType)
        else None
    end;
  is_null ty := match ty with Null => true | _ => false end
|}.

(** [ty.tag]; a [TypeError] when [ty] is [null]. *)
Definition tag (ty : Ty) : result exn string :=
  match ty with
  | Null => Throw TypeError
  | Boolean => Ok "Boolean"
  | Number => Ok "Number"
  | Func _ _ => Ok "Func"
  end.

(** *** typeEq *)

Definition params_loop (typeEq : Ty -> Ty -> result exn bool)
  : list Param -> list Param -> result exn bool :=
  fix loop (ps1 ps2 : list Param) {struct ps2} : result exn bool :=
    match ps2, ps1 with
    | (_, type2) :: ps2', (_, type1) :: ps1' =>
        do b <- typeEq type1 type2;
        if negb b then Ok false else loop ps1' ps2'
    | _, _ => Ok true
    end.

Fixpoint typeEq (ty1 ty2 : Ty) {struct ty2} : result exn bool :=
  match ty2 with
  | Null => Throw TypeError
  | Boolean => do tag1 <- tag ty1; Ok (String.eqb tag1 "Boolean")
  | Number => do tag1 <- tag ty1; Ok (String.eqb tag1 "Number")
  | Func params2 retType2 =>
      match ty1 with
      | Null => Throw TypeError
      | Func params1 retType1 =>
          if negb (Nat.eqb (length params1) (length params2)) then Ok false else
          do b <- params_loop typeEq params1 params2;
          if negb b then Ok false else
          do b <- typeEq retType1 retType2;
          if negb b then Ok false else
          Ok true
      | _ => Ok false
      end
  end.

(** *** typecheck *)

Definition args_loop (typecheck : Term -> loc -> M Ty) (tyEnv : loc)
  : list Term -> list Param -> M unit :=
  fix loop (args : list Term) (params : list Param) {struct args} : M unit :=
    fun h =>
    match args with
    | [] => (Ok tt, h)
    | arg :: args' =>
        run argTy <- typecheck arg tyEnv from h to h;
        match params with
        | (_, type) :: params' =>
            run b <- pure (typeEq argTy type) from h to h;
            if negb b
            then (Throw (ThrowError "parameter type mismatch"), h)
            else loop args' params' h
        | [] => (Ok tt, h)
        end
    end.

(** The loop of the [seq2] case, with the local variables [tyEnv] and
    [lastTy] it assigns to:
    [for (const term of t.body) {
       if (term.tag === "const2") {
         const ty = typecheck(term.init, tyEnv);
         tyEnv = { ...tyEnv, [term.name]: ty };
       } else { lastTy = typecheck(term, tyEnv); } }
     return lastTy!;] *)
Definition seq2_loop (typecheck : Term -> loc -> M Ty)
  : list Term -> loc -> Ty -> M Ty :=
  fix loop (body : list Term) (tyEnv : loc) (lastTy : Ty) {struct body} : M Ty :=
    fun h =>
    match body with
    | [] => (Ok lastTy, h)
    | term :: body' =>
        match term with
        | Tconst2 name init =>
            run ty <- typecheck init tyEnv from h to h;
            let (tyEnv, h) := alloc (<[name := ty]> (deref h tyEnv)) h in
            loop body' tyEnv lastTy h
        | _ =>
            run lastTy <- typecheck term tyEnv from h to h;
            loop body' tyEnv lastTy h
        end
    end.

Fixpoint typecheck (t : Term) (tyEnv : loc) {struct t} : M Ty :=
  fun h =>
  match t with
  | Ttrue => (Ok Boolean, h)
  | Tfalse => (Ok Boolean, h)
  | Tif cond thn els =>
      run condTy <- typecheck cond tyEnv from h to h;
      run condTag <- pure (tag condTy) from h to h;
      if negb (String.eqb condTag "Boolean")
      then (Throw (ThrowString "boolean expected"), h) else
      run thnTy <- typecheck thn tyEnv from h to h;
      run elsTy <- typecheck els tyEnv from h to h;
      run b <- pure (typeEq thnTy elsTy) from h to h;
      if negb b
      then (Throw (ThrowString "then and else must have the same type"), h)
      else (Ok thnTy, h)
  | Tnumber _ => (Ok Number, h)
  | Tadd l r =>
      run leftTy <- typecheck l tyEnv from h to h;
      run leftTag <- pure (tag leftTy) from h to h;
      if negb (String.eqb leftTag "Number")
      then (Throw (ThrowString "number expected"), h) else
      run rightTy <- typecheck r tyEnv from h to h;
      run rightTag <- pure (tag rightTy) from h to h;
      if negb (String.eqb rightTag "Number")
      then (Throw (ThrowString "number expected"), h) else
      (Ok Number, h)
  | Tvar name =>
      match get (deref h tyEnv) name with
      | Undefined => (Throw (ThrowError ("unknown variable: " +:+ name)), h)
      | Value ty => (Ok ty, h)
      | Other => (NotAType, h)
      end
  | Tfunc params body =>
      let (newTyEnv, h) := alloc (copy (deref h tyEnv)) h in
      let h := store_params newTyEnv params h in
      run retType <- typecheck body newTyEnv from h to h;
      (Ok (Func params retType), h)
  | Tcall func args =>
      run funcTy <- typecheck func tyEnv from h to h;
      run funcTag <- pure (tag funcTy) from h to h;
      match funcTy with
      | Func params retType =>
          if negb (Nat.eqb (length params) (length args))
          then (Throw (ThrowError "wrong number of arguments"), h) else
          run _u <- args_loop typecheck tyEnv args params from h to h;
          (Ok retType, h)
      | _ => (Throw (ThrowError "function type expected"), h)
      end
  | Tseq body rest =>
      run _ty <- typecheck body tyEnv from h to h;
      typecheck rest tyEnv h
  | Tseq2 body =>
      seq2_loop typecheck body tyEnv Null h
  | Tconst name init rest =>
      run ty <- typecheck init tyEnv from h to h;
      let (newTyEnv, h) := alloc (copy (deref h tyEnv)) h in
      let h := store newTyEnv name ty h in
      typecheck rest newTyEnv h
  | Tconst2 _ _ => (Throw (ThrowError "not implemented yet"), h)
  end.

(** Induction over a term, following the recursion of [typecheck]: the
    arguments of a call, and for each statement of a [seq2] the statement
    itself and, when it is a [const2], its initialiser. *)
Fixpoint Term_nested_ind (P : Term -> Prop)
  (Htrue : P Ttrue) (Hfalse : P Tfalse)
  (Hif : forall cond thn els, P cond -> P thn -> P els -> P (Tif cond thn els))
  (Hnumber : forall n, P (Tnumber n))
  (Hadd : forall l r, P l -> P r -> P (Tadd l r))
  (Hvar : forall name, P (Tvar name))
  (Hfunc : forall params body, P body -> P (Tfunc params body))
  (Hcall : forall func args, P func -> Forall P args -> P (Tcall func args))
  (Hseq : forall body rest, P body -> P rest -> P (Tseq body rest))
  (Hconst : forall name init rest, P init -> P rest -> P (Tconst name init rest))
  (Hseq2 : forall body,
      Forall (fun term =>
                P term /\ match term with Tconst2 _ init => P init | _ => True end) body ->
      P (Tseq2 body))
  (Hconst2 : forall name init, P init -> P (Tconst2 name init))
  (t : Term) {struct t} : P t :=
  let rec := Term_nested_ind P Htrue Hfalse Hif Hnumber Hadd Hvar Hfunc Hcall Hseq
               Hconst Hseq2 Hconst2 in
  match t with
  | Ttrue => Htrue
  | Tfalse => Hfalse
  | Tif cond thn els => Hif cond thn els (rec cond) (rec thn) (rec els)
  | Tnumber n => Hnumber n
  | Tadd l r => Hadd l r (rec l) (rec r)
  | Tvar name => Hvar name
  | Tfunc params body => Hfunc params body (rec body)
  | Tcall func args =>
      Hcall func args (rec func)
        ((fix go (ts : list Term) : Forall P ts :=
            match ts with
            | [] => List.Forall_nil _
            | term :: ts' => List.Forall_cons _ term ts' (rec term) (go ts')
            end) args)
  | Tseq body rest => Hseq body rest (rec body) (rec rest)
  | Tconst name init rest => Hconst name init rest (rec init) (rec rest)
  | Tseq2 body =>
      Hseq2 body
        ((fix go (ts : list Term)
            : Forall (fun term =>
                        P term /\
                        match term with Tconst2 _ init => P init | _ => True end) ts :=
            match ts with
            | [] => List.Forall_nil _
            | term :: ts' =>
                List.Forall_cons _ term ts'
                  (conj (rec term)
                     (match term as term'
                            return match term' with
                                   | Tconst2 _ init => P init
                                   | _ => True
                                   end
                      with
                      | Tconst2 _ init => rec init
                      | _ => I
                      end))
                  (go ts')
            end) body)
  | Tconst2 name init => Hconst2 name init (rec init)
  end.

(** A statement of a [seq2] body that binds. *)
Definition is_const2 (term : Term) : bool :=
  match term with Tconst2 _ _ => true | _ => false end.

(** *** Notions used to state properties of the seq2 program *)

(** The type has no [null] inside. *)
Fixpoint null_free (ty : Ty) : bool :=
  match ty with
  | Null => false
  | Boolean | Number => true
  | Func params retType => forallb (fun p => null_free p.2) params && null_free retType
  end.

(** Every [seq2] of the term has a statement that is not a binding, and
    the declared parameter types have no [null] inside. *)
Fixpoint has_result (t : Term) : bool :=
  match t with
  | Ttrue | Tfalse | Tnumber _ | Tvar _ => true
  | Tif cond thn els => has_result cond && has_result thn && has_result els
  | Tadd l r => has_result l && has_result r
  | Tfunc params body => forallb (fun p => null_free p.2) params && has_result body
  | Tcall func args => has_result func && forallb has_result args
  | Tseq body rest => has_result body && has_result rest
  | Tconst _ init rest => has_result init && has_result rest
  | Tseq2 body =>
      existsb (fun term => negb (is_const2 term)) body &&
      forallb (fun term =>
                 match term with
                 | Tconst2 _ init => has_result init
                 | _ => has_result term
                 end) body
  | Tconst2 _ init => has_result init
  end.

(** Every [const2] of the term is a statement of a [seq2] body. *)
Fixpoint const2_in_seq2 (t : Term) : bool :=
  match t with
  | Ttrue | Tfalse | Tnumber _ | Tvar _ => true
  | Tif cond thn els => const2_in_seq2 cond && const2_in_seq2 thn && const2_in_seq2 els
  | Tadd l r => const2_in_seq2 l && const2_in_seq2 r
  | Tfunc _ body => const2_in_seq2 body
  | Tcall func args => const2_in_seq2 func && forallb const2_in_seq2 args
  | Tseq body rest => const2_in_seq2 body && const2_in_seq2 rest
  | Tconst _ init rest => const2_in_seq2 init && const2_in_seq2 rest
  | Tseq2 body =>
      forallb (fun term =>
                 match term with
                 | Tconst2 _ init => const2_in_seq2 init
                 | _ => const2_in_seq2 term
                 end) body
  | Tconst2 _ _ => false
  end.

(** Every environment of the heap holds types with no [null] inside, as
    its own properties and as its prototype. *)
Definition heap_null_free (h : heap) : Prop :=
  Forall (env_Forall (fun ty => null_free ty = true)) h.

(** The outcome is a type with no [null] inside, a failure other than a
    [TypeError], or a value that is not a type. *)
Definition no_null (r : result exn Ty) : Prop :=
  match r with
  | Ok ty => null_free ty = true
  | Throw e => e <> TypeError
  | NotAType => True
  end.

(** Induction over a type and the types of its parameters. *)
Fixpoint Ty_nested_ind (P : Ty -> Prop)
  (HNull : P Null) (HBoolean : P Boolean) (HNumber : P Number)
  (HFunc : forall params retType,
      Forall (fun p => P p.2) params -> P retType -> P (Func params retType))
  (ty : Ty) {struct ty} : P ty :=
  match ty with
  | Null => HNull
  | Boolean => HBoolean
  | Number => HNumber
  | Func params retType =>
      HFunc params retType
        ((fix go (ps : list Param) : Forall (fun p => P p.2) ps :=
            match ps with
            | [] => List.Forall_nil _
            | p :: ps' =>
                List.Forall_cons _ p ps'
                  (Ty_nested_ind P HNull HBoolean HNumber HFunc p.2) (go ps')
            end) params)
        (Ty_nested_ind P HNull HBoolean HNumber HFunc retType)
  end.

(** A type and a term of basic.ts as a type and a term of the seq2
    program. *)
Fixpoint of_basic_ty (ty : Basic.Ty) : Ty :=
  match ty with
  | Basic.Boolean => Boolean
  | Basic.Number => Number
  | Basic.Func params retType =>
      Func (map (fun p => (p.1, of_basic_ty p.2)) params) (of_basic_ty retType)
  end.

Fixpoint of_basic (t : Basic.Term) : Term :=
  match t with
  | Basic.Ttrue => Ttrue
  | Basic.Tfalse => Tfalse
  | Basic.Tif cond thn els => Tif (of_basic cond) (of_basic thn) (of_basic els)
  | Basic.Tnumber n => Tnumber n
  | Basic.Tadd l r => Tadd (of_basic l) (of_basic r)
  | Basic.Tvar name => Tvar name
  | Basic.Tfunc params body =>
      Tfunc (map (fun p => (p.1, of_basic_ty p.2)) params) (of_basic body)
  | Basic.Tcall func args => Tcall (of_basic func) (map of_basic args)
  | Basic.Tseq body rest => Tseq (of_basic body) (of_basic rest)
  | Basic.Tconst name init rest => Tconst name (of_basic init) (of_basic rest)
  end.

End Seq2.

(** * Properties *)

(** A lookup in parallel lists: a position that breaks a [Forall2]. *)
Lemma Forall2_false_at {A B} (R : A -> B -> bool) (l : list A) (k : list B) i a b :
  Forall2 (fun a b => R a b = true) l k ->
  l !! i = Some a -> k !! i = Some b -> R a b = false -> False.
Proof.
  intros HF Ha Hb Hab.
  pose proof (Forall2_lookup_lr _ _ _ _ _ _ HF Ha Hb) as H. simpl in H. congruence.
Qed.

(** ** Environment objects *)

Section env_facts.
Context {V : Type} `{TypeValue V}.

(** The computed key of an object literal is read back, whatever the
    name. *)
Lemma get_insert_eq (tyEnv : env V) name v : get (<[name := v]> tyEnv) name = Value v.
Proof. unfold get. simpl. rewrite lookup_insert_eq. reflexivity. Qed.

Lemma bound_get (tyEnv : env V) name v :
  field v "__proto__" = None -> bound tyEnv name v -> get tyEnv name = Value v.
Proof.
  intros Hfield [Hown | (-> & Hown & Hproto)]; unfold get; rewrite Hown; [reflexivity|].
  rewrite Hproto, Hfield. reflexivity.
Qed.

(** An assignment of a value that is not [null] binds the name. *)
Lemma bound_assign (tyEnv : env V) name v :
  is_null v = false -> bound (assign tyEnv name v) name v.
Proof.
  intros Hnull. unfold bound, assign.
  destruct (own tyEnv !! name) eqn:Hown; simpl; [left; apply lookup_insert_eq|].
  destruct (String.eqb_spec name "__proto__") as [->|Hne]; [|left; apply lookup_insert_eq..].
  destruct (proto tyEnv); simpl; [| |left; apply lookup_insert_eq];
    right; rewrite Hnull; auto.
Qed.

(** An assignment to another name leaves the binding as it is. *)
Lemma bound_assign_ne (tyEnv : env V) name v name' v' :
  name <> name' -> bound tyEnv name v -> bound (assign tyEnv name' v') name v.
Proof.
  intros Hne [Hown | (-> & Hown & Hproto)]; unfold bound, assign.
  - left. destruct (own tyEnv !! name'); simpl; [rewrite lookup_insert_ne; auto|].
    destruct (String.eqb name' "__proto__"); [|simpl; rewrite lookup_insert_ne; auto..].
    destruct (proto tyEnv); simpl; [assumption..|rewrite lookup_insert_ne; auto].
  - right. destruct (String.eqb_spec name' "__proto__") as [->|Hne']; [congruence|].
    destruct (own tyEnv !! name'); simpl; rewrite lookup_insert_ne by auto; auto.
Qed.

Lemma bound_assign_params (params : list (string * V)) :
  forall (tyEnv : env V) name v,
    name ∉ params.*1 -> bound tyEnv name v -> bound (assign_params tyEnv params) name v.
Proof.
  unfold assign_params.
  induction params as [|[n t] params IH]; intros tyEnv name v Hnotin Hb; simpl;
    [exact Hb|].
  rewrite fmap_cons in Hnotin. apply not_elem_of_cons in Hnotin as [Hne Hnotin].
  apply IH; [exact Hnotin|]. apply bound_assign_ne; [exact Hne | exact Hb].
Qed.

(** What an assignment binds is read back, but for [null] assigned to
    [__proto__]. *)
Lemma get_assign_eq (tyEnv : env V) name v :
  name <> "__proto__" \/ is_null v = false ->
  field v "__proto__" = None ->
  get (assign tyEnv name v) name = Value v.
Proof.
  intros [Hne|Hnull] Hfield.
  - unfold get, assign. apply String.eqb_neq in Hne. rewrite Hne.
    destruct (own tyEnv !! name); simpl; rewrite lookup_insert_eq; reflexivity.
  - apply bound_get; [exact Hfield | apply bound_assign, Hnull].
Qed.

(** But for [__proto__], an assignment to a copy is the object literal with
    the computed key. *)
Lemma assign_copy_insert (tyEnv : env V) name v :
  name <> "__proto__" -> assign (copy tyEnv) name v = <[name := v]> tyEnv.
Proof.
  intros Hne. apply String.eqb_neq in Hne. unfold assign, copy. simpl. rewrite Hne.
  destruct (own tyEnv !! name); reflexivity.
Qed.

(** Assignments to two environments with the same prototype and the same
    own [__proto__] go the same way. *)
Lemma assign_proto_agree (tyEnv1 tyEnv2 : env V) name v :
  proto tyEnv1 = proto tyEnv2 ->
  own tyEnv1 !! "__proto__" = own tyEnv2 !! "__proto__" ->
  proto (assign tyEnv1 name v) = proto (assign tyEnv2 name v).
Proof.
  intros Hproto Hown. unfold assign.
  destruct (String.eqb_spec name "__proto__") as [->|Hne].
  - rewrite Hown, Hproto.
    destruct (own tyEnv2 !! "__proto__"); [reflexivity|].
    destruct (proto tyEnv2); reflexivity.
  - destruct (own tyEnv1 !! name), (own tyEnv2 !! name); exact Hproto.
Qed.

Lemma assign_own_agree (tyEnv1 tyEnv2 : env V) name v x :
  proto tyEnv1 = proto tyEnv2 ->
  own tyEnv1 !! "__proto__" = own tyEnv2 !! "__proto__" ->
  (x <> name -> own tyEnv1 !! x = own tyEnv2 !! x) ->
  own (assign tyEnv1 name v) !! x = own (assign tyEnv2 name v) !! x.
Proof.
  intros Hproto Hown Hx. unfold assign.
  destruct (String.eqb_spec name "__proto__") as [->|Hne].
  - rewrite Hown, Hproto.
    destruct (own tyEnv2 !! "__proto__") eqn:E; simpl.
    + destruct (decide (x = "__proto__")) as [->|Hne];
        [rewrite !lookup_insert_eq; reflexivity|].
      rewrite !lookup_insert_ne by congruence. apply Hx, Hne.
    + destruct (proto tyEnv2); simpl;
        (destruct (decide (x = "__proto__")) as [->|Hne];
         [first [rewrite !lookup_insert_eq; reflexivity | congruence]|]);
        rewrite ?lookup_insert_ne by congruence; apply Hx, Hne.
  - assert (forall tyEnv : env V,
               own (match own tyEnv !! name with
                    | Some _ => Env (<[name := v]> (own tyEnv)) (proto tyEnv)
                    | None => Env (<[name := v]> (own tyEnv)) (proto tyEnv)
                    end) !! x
               = <[name := v]> (own tyEnv) !! x) as E
        by (intros tyEnv; destruct (own tyEnv !! name); reflexivity).
    rewrite !E. destruct (decide (x = name)) as [->|Hne'];
      [rewrite !lookup_insert_eq; reflexivity|].
    rewrite !lookup_insert_ne by congruence. apply Hx, Hne'.
Qed.

Lemma assign_params_agree (params : list (string * V)) :
  forall tyEnv1 tyEnv2 : env V,
    proto tyEnv1 = proto tyEnv2 ->
    own tyEnv1 !! "__proto__" = own tyEnv2 !! "__proto__" ->
    proto (assign_params tyEnv1 params) = proto (assign_params tyEnv2 params) /\
    forall x, (x ∉ params.*1 -> own tyEnv1 !! x = own tyEnv2 !! x) ->
              own (assign_params tyEnv1 params) !! x
              = own (assign_params tyEnv2 params) !! x.
Proof.
  unfold assign_params.
  induction params as [|[n t] params IH]; intros tyEnv1 tyEnv2 Hproto Hown; simpl.
  - split; [exact Hproto|]. intros x Hx. apply Hx, not_elem_of_nil.
  - destruct (IH (assign tyEnv1 n t) (assign tyEnv2 n t)) as [IHproto IHown].
    + apply assign_proto_agree; assumption.
    + apply assign_own_agree; [assumption..|]. intros _. exact Hown.
    + split; [exact IHproto|]. intros x Hx. apply IHown. intros Hnotin.
      apply assign_own_agree; [assumption..|]. intros Hne. apply Hx.
      rewrite not_elem_of_cons. split; [exact Hne | exact Hnotin].
Qed.

(** Assignments keep the types of an environment within a property that
    holds of the assigned value. *)
Lemma env_Forall_assign (P : V -> Prop) (tyEnv : env V) name v :
  P v -> env_Forall P tyEnv -> env_Forall P (assign tyEnv name v).
Proof.
  intros Hv [Hown Hproto]. unfold assign.
  destruct (own tyEnv !! name); [split; [apply map_Forall_insert_2; assumption | exact Hproto]|].
  destruct (String.eqb name "__proto__");
    [|split; [apply map_Forall_insert_2; assumption | exact Hproto]].
  destruct (proto tyEnv); simpl.
  - split; [exact Hown|]. simpl. destruct (is_null v); [exact I | exact Hv].
  - split; [exact Hown|]. simpl. destruct (is_null v); [exact I | exact Hv].
  - split; [apply map_Forall_insert_2; assumption | exact I].
Qed.

Lemma env_Forall_assign_params (P : V -> Prop) (params : list (string * V)) :
  Forall (fun p => P p.2) params ->
  forall tyEnv : env V, env_Forall P tyEnv -> env_Forall P (assign_params tyEnv params).
Proof.
  unfold assign_params.
  induction 1 as [|[n t] params Hp _ IH]; intros tyEnv Henv; simpl; [exact Henv|].
  apply IH, env_Forall_assign; assumption.
Qed.

Lemma env_Forall_copy (P : V -> Prop) (tyEnv : env V) :
  env_Forall P tyEnv -> env_Forall P (copy tyEnv).
Proof. intros [Hown _]. split; [exact Hown | exact I]. Qed.

Lemma env_Forall_insert (P : V -> Prop) (tyEnv : env V) name v :
  P v -> env_Forall P tyEnv -> env_Forall P (<[name := v]> tyEnv).
Proof. intros Hv [Hown _]. split; [apply map_Forall_insert_2; assumption | exact I]. Qed.

Lemma env_Forall_empty (P : V -> Prop) : env_Forall P (∅ : env V).
Proof. split; [apply map_Forall_empty | exact I]. Qed.

(** A type read from an environment is one of its types, or a field of
    its prototype. *)
Lemma env_Forall_get (P : V -> Prop) (tyEnv : env V) name v :
  (forall ty name v, P ty -> field ty name = Some (Some v) -> P v) ->
  env_Forall P tyEnv -> get tyEnv name = Value v -> P v.
Proof.
  intros Hfield [Hown Hproto]. unfold get.
  destruct (own tyEnv !! name) as [v'|] eqn:E.
  - intros [= <-]. exact (Hown name v' E).
  - destruct (proto tyEnv) as [|ty|]; [destruct (inherited name); discriminate| |discriminate].
    destruct (field ty name) as [[v'|]|] eqn:Ef.
    + intros [= <-]. exact (Hfield ty name v' Hproto Ef).
    + discriminate.
    + destruct (String.eqb name "__proto__"); [intros [= <-]; exact Hproto|].
      destruct (inherited name); discriminate.
Qed.

(** ** The heap *)

(** A write through a reference to the newest object touches only it. *)
Lemma store_fresh (h : list (env V)) (obj : env V) name v :
  store (length h) name v (h ++ [obj]) = h ++ [assign obj name v].
Proof.
  unfold store, deref.
  rewrite lookup_app_r, Nat.sub_diag by lia. simpl.
  rewrite insert_app_r_alt, Nat.sub_diag by lia. reflexivity.
Qed.

Lemma store_params_fresh (params : list (string * V)) (h : list (env V)) (obj : env V) :
  store_params (length h) params (h ++ [obj]) = h ++ [assign_params obj params].
Proof.
  unfold store_params, assign_params. revert obj.
  induction params as [|[name v] params IH]; intros obj; simpl; [reflexivity|].
  rewrite store_fresh. apply IH.
Qed.

End env_facts.

(** Environments under a translation of the types that keeps their fields
    and [null]. *)
Section env_fmap_facts.
Context {V W : Type} `{TypeValue V} `{TypeValue W} (f : V -> W).
Hypothesis field_fmap :
  forall ty name, field (f ty) name = option_map (option_map f) (field ty name).
Hypothesis is_null_fmap : forall v, is_null (f v) = is_null v.

Lemma empty_fmap : f <$> (∅ : env V) = ∅.
Proof. unfold fmap, env_fmap. simpl. rewrite fmap_empty. reflexivity. Qed.

Lemma copy_fmap (tyEnv : env V) : copy (f <$> tyEnv) = f <$> copy tyEnv.
Proof. reflexivity. Qed.

Lemma assign_fmap (tyEnv : env V) name v :
  assign (f <$> tyEnv) name (f v) = f <$> assign tyEnv name v.
Proof using is_null_fmap.
  unfold assign, fmap at 1 2 4, env_fmap. simpl. rewrite lookup_fmap, is_null_fmap.
  destruct (own tyEnv !! name); simpl; [rewrite fmap_insert; reflexivity|].
  destruct (String.eqb name "__proto__"); [|simpl; rewrite fmap_insert; reflexivity].
  destruct (proto tyEnv); simpl; try (destruct (is_null v); reflexivity).
  rewrite fmap_insert. reflexivity.
Qed.

Lemma assign_params_fmap (params : list (string * V)) :
  forall tyEnv : env V,
    assign_params (f <$> tyEnv) (map (fun p => (p.1, f p.2)) params)
    = f <$> assign_params tyEnv params.
Proof using is_null_fmap.
  unfold assign_params.
  induction params as [|[n t] params IH]; intros tyEnv; simpl; [reflexivity|].
  rewrite assign_fmap. apply IH.
Qed.

Lemma get_fmap (tyEnv : env V) name v :
  get tyEnv name = Value v -> get (f <$> tyEnv) name = Value (f v).
Proof using field_fmap.
  unfold get, fmap at 1 2, env_fmap. simpl. rewrite lookup_fmap.
  destruct (own tyEnv !! name); simpl; [intros [= <-]; reflexivity|].
  destruct (proto tyEnv) as [|ty|]; [destruct (inherited name); discriminate| |discriminate].
  rewrite field_fmap.
  destruct (field ty name) as [[v'|]|]; simpl; [intros [= <-]; reflexivity|discriminate|].
  destruct (String.eqb name "__proto__"); [intros [= <-]; reflexivity|].
  destruct (inherited name); discriminate.
Qed.

End env_fmap_facts.

(** An object that exists is the same in every extension of the heap. *)
Lemma deref_app {V} (h k : list (env V)) l :
  l < length h -> deref (h ++ k) l = deref h l.
Proof. intros Hl. unfold deref. rewrite lookup_app_l by exact Hl. reflexivity. Qed.

Lemma deref_fresh {V} (h : list (env V)) obj : deref (h ++ [obj]) (length h) = obj.
Proof. unfold deref. rewrite lookup_app_r, Nat.sub_diag by lia. reflexivity. Qed.

Lemma refines_extends {E V A} (m : ST E V A) (r : result E A) (h : list (env V)) :
  refines m r h -> (m h).1 = r /\ h `prefix_of` (m h).2.
Proof. intros [k ->]. split; [reflexivity | apply prefix_app_r; reflexivity]. Qed.

(** A valid reference stays valid, and points to the same object, when the
    heap is extended. *)
Lemma valid_app {V} (h k : list (env V)) l tyEnv :
  l < length h -> deref h l = tyEnv ->
  l < length (h ++ k) /\ deref (h ++ k) l = tyEnv.
Proof.
  intros Hl He. split; [rewrite length_app; lia | rewrite deref_app; assumption].
Qed.

Lemma valid_fresh {V} (h : list (env V)) obj :
  length h < length (h ++ [obj]) /\ deref (h ++ [obj]) (length h) = obj.
Proof. split; [rewrite length_app; simpl; lia | apply deref_fresh]. Qed.

(** Closes a [refines] goal once both sides have been run: the heap is
    the initial one, or the initial one extended several times. *)
Ltac close_refines :=
  first [ exists []; rewrite app_nil_r; reflexivity
        | eexists; rewrite <- ?app_assoc; reflexivity ].

(** ** basic.ts *)

Module BasicFacts.
Import Basic.

Lemma basic_params_loop_Forall2 (eq : Ty -> Ty -> bool) (ps1 ps2 : list Param) :
  length ps1 = length ps2 ->
  params_loop eq ps1 ps2 = true <-> Forall2 (fun p1 p2 => eq p1.2 p2.2 = true) ps1 ps2.
Proof.
  revert ps1. induction ps2 as [|[n2 t2] ps2 IH]; intros [|[n1 t1] ps1] Hlen;
    simpl in Hlen; try discriminate.
  - split; [constructor | reflexivity].
  - simpl. destruct (eq t1 t2) eqn:E; simpl.
    + rewrite IH by lia. split.
      * intros H. constructor; [exact E | exact H].
      * intros H. inversion H; subst. assumption.
    + split; [discriminate |]. intros H. inversion H; subst. simpl in *. congruence.
Qed.

Lemma basic_typeEq_Func_inv (ty1 : Ty) params2 retType2 :
  typeEq ty1 (Func params2 retType2) = true <->
  exists params1 retType1,
    ty1 = Func params1 retType1 /\
    length params1 = length params2 /\
    Forall2 (fun p1 p2 => typeEq p1.2 p2.2 = true) params1 params2 /\
    typeEq retType1 retType2 = true.
Proof.
  destruct ty1 as [| |params1 retType1]; simpl.
  1,2: split; [discriminate | intros (? & ? & ? & _); discriminate].
  destruct (Nat.eqb_spec (length params1) (length params2)) as [Hlen|Hlen]; simpl.
  - destruct (params_loop typeEq params1 params2) eqn:Hloop; simpl.
    + apply basic_params_loop_Forall2 in Hloop; [|exact Hlen..].
      destruct (typeEq retType1 retType2) eqn:Hret; simpl.
      * split; [|reflexivity..]. intros _. exists params1, retType1. auto.
      * split; [discriminate|]. intros (? & ? & [= <- <-] & _ & _ & H). congruence.
    + split; [discriminate|]. intros (? & ? & [= <- <-] & _ & H & _).
      apply basic_params_loop_Forall2 in H; [congruence | exact Hlen].
  - split; [discriminate|]. intros (? & ? & [= <- <-] & H & _). contradiction.
Qed.

Lemma basic_typeEq_refl (ty : Ty) : typeEq ty ty = true.
Proof.
  induction ty as [| |params retType IHparams IHret] using Ty_nested_ind; try reflexivity.
  apply basic_typeEq_Func_inv. exists params, retType. repeat split; [|exact IHret..].
  induction IHparams; constructor; assumption.
Qed.

Lemma basic_field_proto (ty : Ty) : field ty "__proto__" = None.
Proof. destruct ty; reflexivity. Qed.

(** The rightmost parameter of a name is the one the body sees. *)
Lemma basic_extend_last (ps1 ps2 : list Param) (tyEnv : TypeEnv) name ty :
  name ∉ ps2.*1 -> get (extend tyEnv (ps1 ++ (name, ty) :: ps2)) name = Value ty.
Proof.
  intros Hnotin. apply bound_get; [apply basic_field_proto|].
  unfold extend, assign_params. rewrite foldl_app. simpl.
  apply bound_assign_params; [exact Hnotin|]. apply bound_assign. reflexivity.
Qed.

(** The argument loop, when every argument has a type. *)
Lemma basic_args_loop_spec (tc : Term -> result exn Ty) args tys (params : list Param) :
  Forall2 (fun arg ty => tc arg = Ok ty) args tys ->
  length params = length args ->
  (Forall2 (fun ty p => typeEq ty p.2 = true) tys params /\
   args_loop tc args params = Ok tt) \/
  ((exists i ty p, tys !! i = Some ty /\ params !! i = Some p /\ typeEq ty p.2 = false) /\
   args_loop tc args params = Throw (ThrowError "parameter type mismatch")).
Proof.
  intros Hargs. revert params.
  induction Hargs as [|arg ty args tys Harg Hargs IH]; intros [|[n pty] params] Hlen;
    simpl in Hlen; try discriminate.
  - left. split; [constructor | reflexivity].
  - simpl. rewrite Harg. destruct (typeEq ty pty) eqn:E; simpl.
    + destruct (IH params) as [[HF Hloop]|[(i & ty' & p & H1 & H2 & H3) Hloop]]; [lia | |].
      * left. split; [constructor; assumption | exact Hloop].
      * right. split; [|exact Hloop..]. exists (S i), ty', p. auto.
    + right. split; [|reflexivity..]. exists 0, ty, (n, pty). auto.
Qed.

End BasicFacts.

(** ** obj.ts, first program *)

Module ObjFacts.
Import Obj.

Lemma obj_params_loop_Forall2 (eq : Ty -> Ty -> bool) (ps1 ps2 : list Param) :
  length ps1 = length ps2 ->
  params_loop eq ps1 ps2 = true <-> Forall2 (fun p1 p2 => eq p1.2 p2.2 = true) ps1 ps2.
Proof.
  revert ps1. induction ps2 as [|[n2 t2] ps2 IH]; intros [|[n1 t1] ps1] Hlen;
    simpl in Hlen; try discriminate.
  - split; [constructor | reflexivity].
  - simpl. destruct (eq t1 t2) eqn:E; simpl.
    + rewrite IH by lia. split.
      * intros H. constructor; [exact E | exact H].
      * intros H. inversion H; subst. assumption.
    + split; [discriminate |]. intros H. inversion H; subst. simpl in *. congruence.
Qed.

(** The [Object] loop succeeds when every property of the second type finds
    its first namesake in the first type, with an equal type. *)
Lemma obj_props_loop_true (eq : Ty -> Ty -> bool) (props1 ps2 : list PropertyType) :
  props_loop eq props1 ps2 = true <->
  Forall (fun prop2 => exists prop1,
              find_prop props1 prop2.1 = Some prop1 /\ eq prop1.2 prop2.2 = true) ps2.
Proof.
  induction ps2 as [|prop2 ps2 IH]; simpl.
  - split; [constructor | reflexivity].
  - destruct (find_prop props1 prop2.1) as [prop1|] eqn:Hfind.
    + destruct (eq prop1.2 prop2.2) eqn:E; simpl.
      * rewrite IH. split.
        -- intros H. constructor; [exists prop1; auto | exact H].
        -- intros H. inversion H; subst. assumption.
      * split; [discriminate|]. intros H. inversion H as [|? ? (p & Hp & Hp') ?]; subst.
        rewrite Hfind in Hp. congruence.
    + split; [discriminate|]. intros H. inversion H as [|? ? (p & Hp & Hp') ?]; subst.
      rewrite Hfind in Hp. discriminate.
Qed.

Lemma obj_typeEq_Object (props1 props2 : list PropertyType) :
  typeEq (Object props1) (Object props2) = true <->
  length props1 = length props2 /\
  Forall (fun prop2 => exists prop1,
              find_prop props1 prop2.1 = Some prop1 /\ typeEq prop1.2 prop2.2 = true) props2.
Proof.
  simpl. destruct (Nat.eqb_spec (length props1) (length props2)) as [Hlen|Hlen]; simpl.
  - rewrite obj_props_loop_true. tauto.
  - split; [discriminate | tauto].
Qed.

(** What [find] returns has the name asked for and is in the array. *)
Lemma obj_find_prop_Some props name prop :
  find_prop props name = Some prop -> prop ∈ props /\ prop.1 = name.
Proof.
  unfold find_prop. intros H. apply List.find_some in H as [Hin Heq].
  split; [apply list_elem_of_In; exact Hin | apply String.eqb_eq; exact Heq].
Qed.

Lemma obj_find_prop_None props name :
  find_prop props name = None <-> name ∉ props.*1.
Proof.
  unfold find_prop. induction props as [|[n ty] props IH]; simpl.
  - split; [intros _; apply not_elem_of_nil | reflexivity].
  - rewrite not_elem_of_cons. destruct (String.eqb_spec n name) as [->|Hne].
    + split; [discriminate | intros [H _]; contradiction].
    + rewrite IH. split; [intros H; split; [congruence | exact H] | tauto].
Qed.

(** [find] returns the first property of the name. *)
Lemma obj_find_prop_first (ps1 ps2 : list PropertyType) name ty :
  name ∉ ps1.*1 -> find_prop (ps1 ++ (name, ty) :: ps2) name = Some (name, ty).
Proof.
  unfold find_prop. induction ps1 as [|[n t] ps1 IH]; simpl; intros Hnotin.
  - rewrite String.eqb_refl. reflexivity.
  - apply not_elem_of_cons in Hnotin as [Hne Hnotin].
    destruct (String.eqb_spec n name) as [->|_]; [contradiction|]. apply IH, Hnotin.
Qed.

(** With unique names, [find] returns the property itself. *)
Lemma obj_find_prop_NoDup (props : list PropertyType) prop :
  NoDup props.*1 -> prop ∈ props -> find_prop props prop.1 = Some prop.
Proof.
  intros Hnd Hin. apply list_elem_of_split in Hin as (ps1 & ps2 & ->).
  destruct prop as [name ty]. apply obj_find_prop_first.
  rewrite fmap_app, fmap_cons in Hnd. apply NoDup_app in Hnd as (_ & Hdisj & _).
  intros Hin. apply (Hdisj name Hin). left.
Qed.

Lemma obj_unique_names_Object props :
  unique_names (Object props) = true <->
  NoDup props.*1 /\ Forall (fun p => unique_names p.2 = true) props.
Proof.
  simpl. rewrite andb_true_iff, bool_decide_eq_true, forallb_forall, Forall_forall.
  split; intros [H1 H2]; (split; [exact H1|]); intros x Hx; apply H2;
    apply list_elem_of_In; exact Hx.
Qed.

Lemma obj_unique_names_Func params retType :
  unique_names (Func params retType) = true <->
  Forall (fun p => unique_names p.2 = true) params /\ unique_names retType = true.
Proof.
  simpl. rewrite andb_true_iff, forallb_forall, Forall_forall.
  split; intros [H1 H2]; (split; [|exact H2..]); intros x Hx; apply H1;
    apply list_elem_of_In; exact Hx.
Qed.

Lemma obj_typeEq_refl (ty : Ty) : unique_names ty = true -> typeEq ty ty = true.
Proof.
  induction ty as [| |params retType IHparams IHret|props IHprops] using Ty_nested_ind;
    try reflexivity.
  - intros [Hps Hret]%obj_unique_names_Func. simpl.
    rewrite Nat.eqb_refl; simpl.
    assert (params_loop typeEq params params = true) as ->.
    { apply obj_params_loop_Forall2; [reflexivity|].
      clear -IHparams Hps. induction IHparams; inversion Hps; subst; constructor; auto. }
    simpl. rewrite (IHret Hret). reflexivity.
  - intros [Hnd Hps]%obj_unique_names_Object.
    apply obj_typeEq_Object. split; [reflexivity|].
    rewrite Forall_forall in IHprops, Hps |- *. intros prop Hin.
    exists prop. split; [apply obj_find_prop_NoDup; assumption | auto].
Qed.

(** One direction of symmetry; the other is the same statement with the
    two types exchanged. *)
Lemma obj_typeEq_sym_true (ty2 : Ty) :
  forall ty1, unique_names ty1 = true -> unique_names ty2 = true ->
              typeEq ty1 ty2 = true -> typeEq ty2 ty1 = true.
Proof.
  induction ty2 as [| |params2 retType2 IHparams IHret|props2 IHprops] using Ty_nested_ind;
    intros ty1 Hu1 Hu2 Heq.
  - destruct ty1; simpl in Heq; try discriminate. reflexivity.
  - destruct ty1; simpl in Heq; try discriminate. reflexivity.
  - destruct ty1 as [| |params1 retType1|]; simpl in Heq; try discriminate.
    apply obj_unique_names_Func in Hu1 as [Hps1 Hr1], Hu2 as [Hps2 Hr2].
    destruct (Nat.eqb_spec (length params1) (length params2)) as [Hlen|];
      simpl in Heq; [|discriminate..].
    destruct (params_loop typeEq params1 params2) eqn:Hloop; simpl in Heq; [|discriminate..].
    destruct (typeEq retType1 retType2) eqn:Hret; simpl in Heq; [|discriminate..].
    apply obj_params_loop_Forall2 in Hloop; [|exact Hlen..].
    simpl. rewrite <- Hlen, Nat.eqb_refl; simpl.
    assert (params_loop typeEq params2 params1 = true) as ->.
    { apply obj_params_loop_Forall2; [symmetry; exact Hlen|].
      clear -Hloop IHparams Hps1 Hps2.
      induction Hloop as [|p1 p2 ps1 ps2 Hp Hps IH]; [constructor|].
      inversion IHparams; inversion Hps1; inversion Hps2; subst.
      constructor; auto. }
    simpl. rewrite (IHret retType1 Hr1 Hr2 Hret). reflexivity.
  - destruct ty1 as [| | |props1]; simpl in Heq; try discriminate.
    apply obj_unique_names_Object in Hu1 as [Hnd1 Hps1], Hu2 as [Hnd2 Hps2].
    apply obj_typeEq_Object in Heq as [Hlen Hall].
    apply obj_typeEq_Object. split; [symmetry; exact Hlen|].
    rewrite Forall_forall in Hall, IHprops, Hps1, Hps2 |- *.
    (* every name of the second type is a name of the first *)
    assert (Hincl : forall n, n ∈ props2.*1 -> n ∈ props1.*1).
    { intros n (p2 & -> & Hin2)%list_elem_of_fmap.
      destruct (Hall p2 Hin2) as (p1 & Hfind & _).
      apply obj_find_prop_Some in Hfind as [Hin1 <-].
      apply list_elem_of_fmap. exists p1. auto. }
    (* and, by counting, the converse *)
    assert (Hincl' : forall n, n ∈ props1.*1 -> n ∈ props2.*1).
    { intros n Hn.
      assert (props2.*1 ≡ₚ props1.*1) as Hperm.
      { apply submseteq_length_Permutation; [|rewrite !length_fmap; lia..].
        apply NoDup_submseteq; assumption. }
      rewrite Hperm. exact Hn. }
    intros prop1 Hin1.
    assert (prop1.1 ∈ props2.*1) as (prop2 & Hname & Hin2)%list_elem_of_fmap.
    { apply Hincl', list_elem_of_fmap. exists prop1. auto. }
    exists prop2. split.
    + rewrite Hname. apply obj_find_prop_NoDup; assumption.
    + destruct (Hall prop2 Hin2) as (p1 & Hfind & Hty).
      rewrite <- Hname, (obj_find_prop_NoDup props1 prop1 Hnd1 Hin1) in Hfind.
      injection Hfind as <-. apply IHprops; auto.
Qed.

Lemma obj_typeEq_sym (ty1 ty2 : Ty) :
  unique_names ty1 = true -> unique_names ty2 = true -> typeEq ty1 ty2 = typeEq ty2 ty1.
Proof.
  intros H1 H2.
  destruct (typeEq ty1 ty2) eqn:E12, (typeEq ty2 ty1) eqn:E21; try reflexivity.
  - rewrite (obj_typeEq_sym_true ty2 ty1 H1 H2 E12) in E21. discriminate.
  - rewrite (obj_typeEq_sym_true ty1 ty2 H2 H1 E21) in E12. discriminate.
Qed.

(** The order in which the properties are listed does not matter. *)
Lemma obj_typeEq_Permutation (props props' : list PropertyType) :
  unique_names (Object props) = true -> props ≡ₚ props' ->
  typeEq (Object props) (Object props') = true.
Proof.
  intros [Hnd Hps]%obj_unique_names_Object Hperm.
  apply obj_typeEq_Object. split; [apply Permutation_length, Hperm|].
  rewrite Forall_forall in Hps |- *. intros prop Hin. rewrite <- Hperm in Hin.
  exists prop. split; [apply obj_find_prop_NoDup; assumption|].
  apply obj_typeEq_refl, Hps, Hin.
Qed.

Lemma obj_field_proto (ty : Ty) : field ty "__proto__" = None.
Proof. destruct ty; reflexivity. Qed.

Lemma obj_extend_last (ps1 ps2 : list Param) (tyEnv : TypeEnv) name ty :
  name ∉ ps2.*1 -> get (extend tyEnv (ps1 ++ (name, ty) :: ps2)) name = Value ty.
Proof.
  intros Hnotin. apply bound_get; [apply obj_field_proto|].
  unfold extend, assign_params. rewrite foldl_app. simpl.
  apply bound_assign_params; [exact Hnotin|]. apply bound_assign. reflexivity.
Qed.

Lemma obj_args_loop_spec (tc : Term -> result exn Ty) t args tys (params : list Param) :
  Forall2 (fun arg ty => tc arg = Ok ty) args tys ->
  length params = length args ->
  (Forall2 (fun ty p => typeEq ty p.2 = true) tys params /\
   args_loop tc t args params = Ok tt) \/
  ((exists i ty p, tys !! i = Some ty /\ params !! i = Some p /\ typeEq ty p.2 = false) /\
   args_loop tc t args params = Throw (ErrorAt "parameter type mismatch" t)).
Proof.
  intros Hargs. revert params.
  induction Hargs as [|arg ty args tys Harg Hargs IH]; intros [|[n pty] params] Hlen;
    simpl in Hlen; try discriminate.
  - left. split; [constructor | reflexivity].
  - simpl. rewrite Harg. destruct (typeEq ty pty) eqn:E; simpl.
    + destruct (IH params) as [[HF Hloop]|[(i & ty' & p & H1 & H2 & H3) Hloop]]; [lia | |].
      * left. split; [constructor; assumption | exact Hloop].
      * right. split; [|exact Hloop..]. exists (S i), ty', p. auto.
    + right. split; [|reflexivity..]. exists 0, ty, (n, pty). auto.
Qed.

(** The map of the [objectNew] case, when every property term has a type:
    the names in the given order, each with the type of its term. *)
Lemma obj_props_map_ok (tc : Term -> result exn Ty) (props : list PropertyTerm) tys :
  Forall2 (fun prop ty => tc prop.2 = Ok ty) props tys ->
  props_map tc props = Ok (zip props.*1 tys).
Proof.
  induction 1 as [|[name term] ty props tys Hty _ IH]; simpl; [reflexivity|].
  simpl in Hty. rewrite Hty, IH. reflexivity.
Qed.

End ObjFacts.

(** ** obj.ts, second program *)

Module Seq2Facts.
Import Seq2.

Lemma seq2_args_loop_extends (tc : Term -> loc -> M Ty) tyEnv args :
  Forall (fun arg => forall l, extends (tc arg l)) args ->
  forall params, extends (args_loop tc tyEnv args params).
Proof.
  induction 1 as [|arg args Harg _ IH]; intros params h; simpl; [reflexivity|].
  pose proof (Harg tyEnv h) as H1.
  destruct (tc arg tyEnv h) as [[argTy|e|] h1]; simpl in *; [|exact H1..].
  destruct params as [|[n type] params]; simpl; [exact H1|].
  unfold pure. destruct (typeEq argTy type) as [[|]|e|]; simpl; try exact H1.
  etrans; [exact H1 | apply IH].
Qed.

Lemma seq2_seq2_loop_extends (tc : Term -> loc -> M Ty) body :
  Forall (fun term =>
            (forall l, extends (tc term l)) /\
            match term with
            | Tconst2 _ init => forall l, extends (tc init l)
            | _ => True
            end) body ->
  forall tyEnv lastTy, extends (seq2_loop tc body tyEnv lastTy).
Proof.
  induction 1 as [|term body [Hterm Hinit] _ IH]; intros tyEnv lastTy h; simpl;
    [reflexivity|].
  destruct term;
    try (pose proof (Hterm tyEnv h) as H1;
         match goal with
         | |- context [tc ?t tyEnv h] =>
             destruct (tc t tyEnv h) as [[ty|e|] h1]; simpl in *;
             [etrans; [exact H1 | apply IH] | exact H1..]
         end).
  pose proof (Hinit tyEnv h) as H1.
  destruct (tc term tyEnv h) as [[ty|e|] h1]; simpl in *; [|exact H1..].
  etrans; [exact H1|]. etrans; [|apply IH..]. apply prefix_app_r. reflexivity.
Qed.

Lemma seq2_typecheck_extends (t : Term) : forall tyEnv, extends (typecheck t tyEnv).
Proof.
  induction t as [| |cond thn els IHc IHt IHe| |l r IHl IHr| |params body IHb
                 |func args IHf IHargs|body rest IHb IHr|name init rest IHi IHr
                 |body IHbody|name init IHi] using Term_nested_ind;
    intros tyEnv h; simpl; try reflexivity.
  - pose proof (IHc tyEnv h) as H1.
    destruct (typecheck cond tyEnv h) as [[condTy|e|] h1]; simpl in *; [|exact H1..].
    unfold pure. destruct (tag condTy) as [condTag|e|]; simpl; [|exact H1..].
    destruct (String.eqb condTag "Boolean"); simpl; [|exact H1..].
    pose proof (IHt tyEnv h1) as H2.
    destruct (typecheck thn tyEnv h1) as [[thnTy|e|] h2]; simpl in *;
      [|etrans; eassumption..].
    pose proof (IHe tyEnv h2) as H3.
    destruct (typecheck els tyEnv h2) as [[elsTy|e|] h3]; simpl in *;
      [|etrans; [etrans|]; eassumption..].
    assert (h `prefix_of` h3) by (etrans; [etrans|]; eassumption).
    destruct (typeEq thnTy elsTy) as [[|]|e|]; simpl; assumption.
  - pose proof (IHl tyEnv h) as H1.
    destruct (typecheck l tyEnv h) as [[leftTy|e|] h1]; simpl in *; [|exact H1..].
    unfold pure. destruct (tag leftTy) as [leftTag|e|]; simpl; [|exact H1..].
    destruct (String.eqb leftTag "Number"); simpl; [|exact H1..].
    pose proof (IHr tyEnv h1) as H2.
    destruct (typecheck r tyEnv h1) as [[rightTy|e|] h2]; simpl in *;
      [|etrans; eassumption..].
    assert (h `prefix_of` h2) by (etrans; eassumption).
    destruct (tag rightTy) as [rightTag|e|]; simpl; [|assumption..].
    destruct (String.eqb rightTag "Number"); simpl; assumption.
  - destruct (get (deref h tyEnv) name); simpl; reflexivity.
  - rewrite store_params_fresh.
    pose proof (IHb (length h) (h ++ [assign_params (copy (deref h tyEnv)) params])) as H1.
    assert (h `prefix_of` h ++ [assign_params (copy (deref h tyEnv)) params]) as H0
      by (apply prefix_app_r; reflexivity).
    destruct (typecheck body (length h) (h ++ [assign_params (copy (deref h tyEnv)) params]))
      as [[retType|e|] h1]; simpl in *; etrans; eassumption.
  - pose proof (IHf tyEnv h) as H1.
    destruct (typecheck func tyEnv h) as [[funcTy|e|] h1]; simpl in *; [|exact H1..].
    unfold pure. destruct (tag funcTy) as [funcTag|e|]; simpl; [|exact H1..].
    destruct funcTy as [| | |params retType]; simpl; try exact H1.
    destruct (Nat.eqb (length params) (length args)); simpl; [|exact H1..].
    pose proof (seq2_args_loop_extends typecheck tyEnv args IHargs params h1) as H2.
    destruct (args_loop typecheck tyEnv args params h1) as [[u|e|] h2]; simpl in *;
      etrans; eassumption.
  - pose proof (IHb tyEnv h) as H1.
    destruct (typecheck body tyEnv h) as [[ty|e|] h1]; simpl in *; [|exact H1..].
    etrans; [exact H1 | apply IHr].
  - pose proof (IHi tyEnv h) as H1.
    destruct (typecheck init tyEnv h) as [[ty|e|] h1]; simpl in *; [|exact H1..].
    rewrite store_fresh.
    etrans; [exact H1|]. etrans; [|apply IHr..]. apply prefix_app_r. reflexivity.
  - apply seq2_seq2_loop_extends. exact IHbody.
Qed.

(** Objects that exist before a call are the same after it. *)
Lemma seq2_typecheck_deref (t : Term) (tyEnv l : loc) (h : heap) :
  l < length h -> deref (typecheck t tyEnv h).2 l = deref h l.
Proof.
  intros Hl. destruct (seq2_typecheck_extends t tyEnv h) as [k ->].
  unfold deref. rewrite lookup_app_l by exact Hl. reflexivity.
Qed.

(** A [seq2] body of bindings only never produces a type. *)
Lemma seq2_seq2_loop_bindings (tc : Term -> loc -> M Ty) body :
  forallb is_const2 body = true ->
  forall tyEnv lastTy h,
    match (seq2_loop tc body tyEnv lastTy h).1 with
    | Ok ty => ty = lastTy
    | Throw _ | NotAType => True
    end.
Proof.
  induction body as [|term body IH]; intros Hall tyEnv lastTy h; simpl; [reflexivity|].
  simpl in Hall. apply andb_true_iff in Hall as [Hterm Hall].
  destruct term; try discriminate.
  destruct (tc term tyEnv h) as [[ty|e|] h1]; simpl; [|exact I..].
  apply IH, Hall.
Qed.

End Seq2Facts.

(** ** obj.ts, first program, over the heap *)

Module ObjHeapFacts.
Import Obj.

Lemma obj_heap_args_loop_refines (tc_h : Term -> nat -> ST exn Ty Ty)
  (tc : Term -> env Ty -> result exn Ty) t args :
  Forall (fun arg => forall l h env, l < length h -> deref h l = env ->
                                     refines (tc_h arg l) (tc arg env) h) args ->
  forall params l h env,
    l < length h -> deref h l = env ->
    refines (ObjHeap.args_loop tc_h l t args params)
            (args_loop (fun arg => tc arg env) t args params) h.
Proof.
  induction 1 as [|arg args Harg _ IH]; intros params l h env Hl He; simpl.
  - close_refines.
  - unfold refines. simpl.
    destruct (Harg l h env Hl He) as [k1 E1]. rewrite E1.
    destruct (tc arg env) as [argTy|e|]; [|close_refines..].
    destruct params as [|[n type] params]; [close_refines|].
    destruct (typeEq argTy type); simpl; [|close_refines..].
    destruct (valid_app h k1 l env Hl He) as [Hl1 He1].
    destruct (IH params l (h ++ k1) env Hl1 He1) as [k2 E2]. rewrite E2.
    close_refines.
Qed.

Lemma obj_heap_props_map_refines (tc_h : Term -> nat -> ST exn Ty Ty)
  (tc : Term -> env Ty -> result exn Ty) props :
  Forall (fun prop => forall l h env, l < length h -> deref h l = env ->
                                      refines (tc_h prop.2 l) (tc prop.2 env) h) props ->
  forall l h env,
    l < length h -> deref h l = env ->
    refines (ObjHeap.props_map tc_h l props)
            (props_map (fun term => tc term env) props) h.
Proof.
  induction 1 as [|[name term] props Hprop _ IH]; intros l h env Hl He; simpl.
  - close_refines.
  - unfold refines. simpl in *.
    destruct (Hprop l h env Hl He) as [k1 E1]. rewrite E1.
    destruct (tc term env) as [type|e|]; [|close_refines..].
    destruct (valid_app h k1 l env Hl He) as [Hl1 He1].
    destruct (IH l (h ++ k1) env Hl1 He1) as [k2 E2]. rewrite E2.
    destruct (props_map (fun term => tc term env) props); close_refines.
Qed.

(** The checker over the heap computes what the checker on environment
    values computes, and leaves the heap extended. *)
Lemma obj_heap_typecheck_refines (t : Term) :
  forall l h env, l < length h -> deref h l = env ->
                  refines (ObjHeap.typecheck t l) (typecheck t env) h.
Proof.
  induction t as [| |cond thn els IHc IHt IHe| |lt rt IHl IHr| |params body IHb
                 |func args IHf IHargs|body rest IHb IHr|name init rest IHi IHr
                 |props IHprops|obj propName IHo] using Term_nested_ind;
    intros l h env Hl He; unfold refines; simpl; try close_refines.
  - destruct (IHc l h env Hl He) as [k1 E1]. rewrite E1.
    destruct (typecheck cond env) as [condTy|e|]; [|close_refines..].
    destruct (is_Boolean condTy); simpl; [|close_refines..].
    destruct (valid_app h k1 l env Hl He) as [Hl1 He1].
    destruct (IHt l (h ++ k1) env Hl1 He1) as [k2 E2]. rewrite E2.
    destruct (typecheck thn env) as [thnTy|e|]; [|close_refines..].
    destruct (valid_app (h ++ k1) k2 l env Hl1 He1) as [Hl2 He2].
    destruct (IHe l ((h ++ k1) ++ k2) env Hl2 He2) as [k3 E3]. rewrite E3.
    destruct (typecheck els env) as [elsTy|e|]; [|close_refines..].
    destruct (typeEq thnTy elsTy); simpl; close_refines.
  - destruct (IHl l h env Hl He) as [k1 E1]. rewrite E1.
    destruct (typecheck lt env) as [leftTy|e|]; [|close_refines..].
    destruct (is_Number leftTy); simpl; [|close_refines..].
    destruct (valid_app h k1 l env Hl He) as [Hl1 He1].
    destruct (IHr l (h ++ k1) env Hl1 He1) as [k2 E2]. rewrite E2.
    destruct (typecheck rt env) as [rightTy|e|]; [|close_refines..].
    destruct (is_Number rightTy); simpl; close_refines.
  - rewrite He. destruct (get env name); close_refines.
  - rewrite store_params_fresh, He.
    destruct (valid_fresh h (extend env params)) as [Hl1 He1].
    destruct (IHb (length h) (h ++ [extend env params])
                (extend env params) Hl1 He1) as [k1 E1].
    change (assign_params (copy env) params) with (extend env params).
    rewrite E1. destruct (typecheck body (extend env params)); close_refines.
  - destruct (IHf l h env Hl He) as [k1 E1]. rewrite E1.
    destruct (typecheck func env) as [funcTy|e|]; [|close_refines..].
    destruct funcTy as [| |params retType|]; try close_refines.
    destruct (Nat.eqb (length params) (length args)); simpl; [|close_refines..].
    destruct (valid_app h k1 l env Hl He) as [Hl1 He1].
    destruct (obj_heap_args_loop_refines ObjHeap.typecheck typecheck
                (Tcall func args) args IHargs params l (h ++ k1) env Hl1 He1)
      as [k2 E2].
    rewrite E2.
    destruct (args_loop (fun arg => typecheck arg env) (Tcall func args) args params);
      close_refines.
  - destruct (IHb l h env Hl He) as [k1 E1]. rewrite E1.
    destruct (typecheck body env) as [ty|e|]; [|close_refines..].
    destruct (valid_app h k1 l env Hl He) as [Hl1 He1].
    destruct (IHr l (h ++ k1) env Hl1 He1) as [k2 E2]. rewrite E2.
    close_refines.
  - destruct (IHi l h env Hl He) as [k1 E1]. rewrite E1.
    destruct (typecheck init env) as [ty|e|]; [|close_refines..].
    destruct (valid_app h k1 l env Hl He) as [Hl1 He1].
    rewrite store_fresh, He1.
    destruct (valid_fresh (h ++ k1) (assign (copy env) name ty)) as [Hl2 He2].
    destruct (IHr (length (h ++ k1)) ((h ++ k1) ++ [assign (copy env) name ty])
                (assign (copy env) name ty) Hl2 He2) as [k2 E2].
    rewrite E2. close_refines.
  - destruct (obj_heap_props_map_refines ObjHeap.typecheck typecheck props IHprops
                l h env Hl He) as [k1 E1].
    rewrite E1.
    destruct (props_map (fun term => typecheck term env) props); close_refines.
  - destruct (IHo l h env Hl He) as [k1 E1]. rewrite E1.
    destruct (typecheck obj env) as [objectTy|e|]; [|close_refines..].
    destruct objectTy as [| | |props]; try close_refines.
    destruct (find_prop props propName); close_refines.
Qed.

End ObjHeapFacts.

(** ** basic.ts, over the heap *)

Module BasicHeapFacts.
Import Basic.

Lemma basic_heap_args_loop_refines (tc_h : Term -> nat -> ST exn Ty Ty)
  (tc : Term -> env Ty -> result exn Ty) args :
  Forall (fun arg => forall l h env, l < length h -> deref h l = env ->
                                     refines (tc_h arg l) (tc arg env) h) args ->
  forall params l h env,
    l < length h -> deref h l = env ->
    refines (BasicHeap.args_loop tc_h l args params)
            (args_loop (fun arg => tc arg env) args params) h.
Proof.
  induction 1 as [|arg args Harg _ IH]; intros params l h env Hl He; simpl.
  - close_refines.
  - unfold refines. simpl.
    destruct (Harg l h env Hl He) as [k1 E1]. rewrite E1.
    destruct (tc arg env) as [argTy|e|]; [|close_refines..].
    destruct params as [|[n type] params]; [close_refines|].
    destruct (typeEq argTy type); simpl; [|close_refines..].
    destruct (valid_app h k1 l env Hl He) as [Hl1 He1].
    destruct (IH params l (h ++ k1) env Hl1 He1) as [k2 E2]. rewrite E2.
    close_refines.
Qed.

Lemma basic_heap_typecheck_refines (t : Term) :
  forall l h env, l < length h -> deref h l = env ->
                  refines (BasicHeap.typecheck t l) (typecheck t env) h.
Proof.
  induction t as [| |cond thn els IHc IHt IHe| |lt rt IHl IHr| |params body IHb
                 |func args IHf IHargs|body rest IHb IHr|name init rest IHi IHr]
                   using Term_nested_ind;
    intros l h env Hl He; unfold refines; simpl; try close_refines.
  - destruct (IHc l h env Hl He) as [k1 E1]. rewrite E1.
    destruct (typecheck cond env) as [condTy|e|]; [|close_refines..].
    destruct (is_Boolean condTy); simpl; [|close_refines..].
    destruct (valid_app h k1 l env Hl He) as [Hl1 He1].
    destruct (IHt l (h ++ k1) env Hl1 He1) as [k2 E2]. rewrite E2.
    destruct (typecheck thn env) as [thnTy|e|]; [|close_refines..].
    destruct (valid_app (h ++ k1) k2 l env Hl1 He1) as [Hl2 He2].
    destruct (IHe l ((h ++ k1) ++ k2) env Hl2 He2) as [k3 E3]. rewrite E3.
    destruct (typecheck els env) as [elsTy|e|]; [|close_refines..].
    destruct (typeEq thnTy elsTy); simpl; close_refines.
  - destruct (IHl l h env Hl He) as [k1 E1]. rewrite E1.
    destruct (typecheck lt env) as [leftTy|e|]; [|close_refines..].
    destruct (is_Number leftTy); simpl; [|close_refines..].
    destruct (valid_app h k1 l env Hl He) as [Hl1 He1].
    destruct (IHr l (h ++ k1) env Hl1 He1) as [k2 E2]. rewrite E2.
    destruct (typecheck rt env) as [rightTy|e|]; [|close_refines..].
    destruct (is_Number rightTy); simpl; close_refines.
  - rewrite He. destruct (get env name); close_refines.
  - rewrite store_params_fresh, He.
    destruct (valid_fresh h (extend env params)) as [Hl1 He1].
    destruct (IHb (length h) (h ++ [extend env params])
                (extend env params) Hl1 He1) as [k1 E1].
    change (assign_params (copy env) params) with (extend env params).
    rewrite E1. destruct (typecheck body (extend env params)); close_refines.
  - destruct (IHf l h env Hl He) as [k1 E1]. rewrite E1.
    destruct (typecheck func env) as [funcTy|e|]; [|close_refines..].
    destruct funcTy as [| |params retType]; try close_refines.
    destruct (Nat.eqb (length params) (length args)); simpl; [|close_refines..].
    destruct (valid_app h k1 l env Hl He) as [Hl1 He1].
    destruct (basic_heap_args_loop_refines BasicHeap.typecheck typecheck
                args IHargs params l (h ++ k1) env Hl1 He1) as [k2 E2].
    rewrite E2.
    destruct (args_loop (fun arg => typecheck arg env) args params); close_refines.
Qed.

End BasicHeapFacts.

(** ** Names that [Object.prototype] knows

    Runs that go through the prototype of the environment. *)

(** [toString] in [{}] is a method of [Object.prototype], not an unknown
    variable. *)
Example var_toString_inherited :
  Basic.typecheck (Basic.Tvar "toString") ∅ = NotAType /\
  Obj.typecheck (Obj.Tvar "toString") ∅ = NotAType /\
  Seq2.typecheck (Seq2.Tvar "toString") 0 [∅] = (NotAType, [∅]) /\
  Obj.typecheck (Obj.Tvar "x") ∅ = Throw (Obj.ErrorAt "unknown variable: x" (Obj.Tvar "x")).
Proof. refine (conj _ (conj _ (conj _ _))); reflexivity. Qed.

(** A parameter [__proto__] becomes the prototype of the copy, where the
    body reads it; the copy that a [const] of the body makes does not have
    it, and [__proto__] reads there as [Object.prototype]. *)
Example func_proto_parameter :
  Obj.typecheck (Obj.Tfunc [("__proto__", Obj.Number)] (Obj.Tvar "__proto__")) ∅
  = Ok (Obj.Func [("__proto__", Obj.Number)] Obj.Number) /\
  Obj.typecheck
    (Obj.Tfunc [("__proto__", Obj.Number)]
       (Obj.Tconst "y" Obj.Ttrue (Obj.Tvar "__proto__"))) ∅
  = NotAType.
Proof. refine (conj _ _); reflexivity. Qed.

(** [const2] binds [__proto__] as an own property, which the later copies
    keep; [const] sets the prototype, which they do not. *)
Example const2_proto_own :
  (Seq2.typecheck
     (Seq2.Tseq2 [Seq2.Tconst2 "__proto__" (Seq2.Tnumber 1);
                  Seq2.Tconst2 "y" Seq2.Ttrue;
                  Seq2.Tadd (Seq2.Tvar "__proto__") (Seq2.Tnumber 1)]) 0 [∅]).1
  = Ok Seq2.Number /\
  (Seq2.typecheck
     (Seq2.Tconst "__proto__" (Seq2.Tnumber 1)
        (Seq2.Tseq2 [Seq2.Tconst2 "y" Seq2.Ttrue;
                     Seq2.Tadd (Seq2.Tvar "__proto__") (Seq2.Tnumber 1)])) 0 [∅]).1
  = NotAType.
Proof. refine (conj _ _); reflexivity. Qed.

(** * The claims *)

(** ** C1 *)

(** C1 (the code at the inputs where the claim fails): a [seq2] whose body
    is empty, or holds one [const2] binding of a number and nothing else,
    does not throw: [typecheck] returns [null], whatever the environment. *)
Theorem seq2_without_statement_returns_null :
  (forall tyEnv h,
      Seq2.typecheck (Seq2.Tseq2 []) tyEnv h = (Ok Seq2.Null, h)) /\
  (forall name n tyEnv h,
      Seq2.typecheck (Seq2.Tseq2 [Seq2.Tconst2 name (Seq2.Tnumber n)]) tyEnv h
      = (Ok Seq2.Null, h ++ [<[name := Seq2.Number]> (deref h tyEnv)])).
Proof. split; reflexivity. Qed.

(** For every [seq2] of bindings only, the outcome is [null] or the failure
    of an initialiser, never a type. *)
Lemma seq2_bindings_only_no_type (body : list Seq2.Term) tyEnv h :
  forallb Seq2.is_const2 body = true ->
  match (Seq2.typecheck (Seq2.Tseq2 body) tyEnv h).1 with
  | Ok ty => ty = Seq2.Null
  | Throw _ | NotAType => True
  end.
Proof. intros H. simpl. apply Seq2Facts.seq2_seq2_loop_bindings, H. Qed.

(** ** C2 *)

(** C2 (as stated, refuted): the object literal [{ foo: 1, foo: true }] is
    accepted, its last [foo] has type [Boolean], and reading [foo] from it
    gives [Number], the type of the first [foo]. *)
Lemma objectGet_duplicate_last_counterexample :
  Obj.typecheck (Obj.TobjectNew [("foo", Obj.Tnumber 1); ("foo", Obj.Ttrue)]) ∅
  = Ok (Obj.Object [("foo", Obj.Number); ("foo", Obj.Boolean)]) /\
  Obj.typecheck
    (Obj.TobjectGet (Obj.TobjectNew [("foo", Obj.Tnumber 1); ("foo", Obj.Ttrue)]) "foo") ∅
  = Ok Obj.Number /\
  Obj.typecheck
    (Obj.TobjectGet (Obj.TobjectNew [("foo", Obj.Tnumber 1); ("foo", Obj.Ttrue)]) "foo") ∅
  <> Ok Obj.Boolean.
Proof. split; [reflexivity|]. split; [reflexivity | discriminate]. Qed.

(** C2 (amended): when every property term of an [objectNew] has a type,
    the term is accepted, whether or not names repeat, with the [Object]
    type that lists the names in the given order, each with the type of its
    term; an [objectGet] of a name on it returns the type of the first
    property of that name. *)
Theorem objectGet_duplicate_first_wins :
  forall (props : list (string * Obj.Term)) tyEnv tys,
    Forall2 (fun prop ty => Obj.typecheck prop.2 tyEnv = Ok ty) props tys ->
    Obj.typecheck (Obj.TobjectNew props) tyEnv = Ok (Obj.Object (zip props.*1 tys)) /\
    (forall ps1 name term ps2 ty,
        props = ps1 ++ (name, term) :: ps2 ->
        name ∉ ps1.*1 ->
        Obj.typecheck term tyEnv = Ok ty ->
        Obj.typecheck (Obj.TobjectGet (Obj.TobjectNew props) name) tyEnv = Ok ty).
Proof.
  intros props tyEnv tys Hprops.
  assert (Hnew : Obj.typecheck (Obj.TobjectNew props) tyEnv
                 = Ok (Obj.Object (zip props.*1 tys))).
  { simpl.
    rewrite (ObjFacts.obj_props_map_ok (fun term => Obj.typecheck term tyEnv)
               props tys Hprops).
    reflexivity. }
  split; [exact Hnew|].
  intros ps1 name term ps2 ty -> Hfirst Hterm.
  change (Obj.typecheck (Obj.TobjectGet (Obj.TobjectNew (ps1 ++ (name, term) :: ps2)) name)
            tyEnv)
    with (match Obj.typecheck (Obj.TobjectNew (ps1 ++ (name, term) :: ps2)) tyEnv with
          | Ok objectTy =>
              match objectTy with
              | Obj.Object props =>
                  match Obj.find_prop props name with
                  | None =>
                      Obj.error ("unknown property: " +:+ name)
                        (Some (Obj.TobjectGet
                                 (Obj.TobjectNew (ps1 ++ (name, term) :: ps2)) name))
                  | Some prop => Ok prop.2
                  end
              | _ =>
                  Obj.error "object type expected"
                    (Some (Obj.TobjectGet
                             (Obj.TobjectNew (ps1 ++ (name, term) :: ps2)) name))
              end
          | Throw err => Throw err
          | NotAType => NotAType
          end).
  rewrite Hnew.
  apply Forall2_app_inv_l in Hprops as (tys1 & tys' & Hps1 & Hrest & ->).
  apply Forall2_cons_inv_l in Hrest as (ty' & tys2 & Hty & Hps2 & ->).
  simpl in Hty. rewrite Hterm in Hty. injection Hty as <-.
  pose proof (Forall2_length _ _ _ Hps1) as Hlen1.
  rewrite fmap_app, fmap_cons. simpl.
  rewrite zip_with_app by (rewrite length_fmap; exact Hlen1). simpl.
  rewrite ObjFacts.obj_find_prop_first; [reflexivity|].
  rewrite fst_zip by (rewrite length_fmap; lia). exact Hfirst.
Qed.

Lemma objectGet_duplicate_first_wins_witness :
  Obj.typecheck
    (Obj.TobjectGet (Obj.TobjectNew [("foo", Obj.Tnumber 1); ("foo", Obj.Ttrue)]) "foo") ∅
  = Ok Obj.Number.
Proof.
  refine (proj2 (objectGet_duplicate_first_wins
                   [("foo", Obj.Tnumber 1); ("foo", Obj.Ttrue)] ∅
                   [Obj.Number; Obj.Boolean] _)
            [] "foo" (Obj.Tnumber 1) [("foo", Obj.Ttrue)] Obj.Number eq_refl _ eq_refl).
  - constructor; [reflexivity|]. constructor; [reflexivity | constructor].
  - simpl. apply not_elem_of_nil.
Defined.

(** ** C3 *)

(** C3 (as stated, refuted): the checker gives [{ foo: 1, foo: true }] an
    [Object] type that is not [typeEq] to itself. *)
Lemma typeEq_refl_counterexample :
  Obj.typecheck (Obj.TobjectNew [("foo", Obj.Tnumber 1); ("foo", Obj.Ttrue)]) ∅
  = Ok (Obj.Object [("foo", Obj.Number); ("foo", Obj.Boolean)]) /\
  Obj.typeEq (Obj.Object [("foo", Obj.Number); ("foo", Obj.Boolean)])
             (Obj.Object [("foo", Obj.Number); ("foo", Obj.Boolean)]) = false.
Proof. split; reflexivity. Qed.

(** C3 (amended): [typeEq(a, a)] is true for every type [a] in which, at
    every depth, the properties of an [Object] type have distinct names. *)
Theorem typeEq_refl_unique_names :
  forall a : Obj.Ty, Obj.unique_names a = true -> Obj.typeEq a a = true.
Proof. exact ObjFacts.obj_typeEq_refl. Qed.

Lemma typeEq_refl_unique_names_witness :
  Obj.typeEq
    (Obj.Object [("foo", Obj.Number);
                 ("bar", Obj.Func [("x", Obj.Boolean)] (Obj.Object [("foo", Obj.Number)]))])
    (Obj.Object [("foo", Obj.Number);
                 ("bar", Obj.Func [("x", Obj.Boolean)] (Obj.Object [("foo", Obj.Number)]))])
  = true.
Proof.
  apply (typeEq_refl_unique_names
           (Obj.Object [("foo", Obj.Number);
                        ("bar", Obj.Func [("x", Obj.Boolean)]
                                  (Obj.Object [("foo", Obj.Number)]))])).
  vm_compute. reflexivity.
Defined.

(** ** C4 *)

(** C4 (as stated, refuted).  With [{ foo: 1, foo: true }] as the first
    type and [{ foo: true, foo: true }] as the second, the property counts
    agree and every property of the second occurs by name in the first with
    a [typeEq] type, yet [typeEq] is false.  And for two object types that
    list the same two properties in opposite orders, [typeEq] is true one
    way round and false the other. *)
Lemma typeEq_Object_counterexample :
  (Obj.typecheck (Obj.TobjectNew [("foo", Obj.Tnumber 1); ("foo", Obj.Ttrue)]) ∅
   = Ok (Obj.Object [("foo", Obj.Number); ("foo", Obj.Boolean)]) /\
   Obj.typecheck (Obj.TobjectNew [("foo", Obj.Ttrue); ("foo", Obj.Tfalse)]) ∅
   = Ok (Obj.Object [("foo", Obj.Boolean); ("foo", Obj.Boolean)]) /\
   length [("foo", Obj.Number); ("foo", Obj.Boolean)]
   = length [("foo", Obj.Boolean); ("foo", Obj.Boolean)] /\
   Forall (fun prop2 : string * Obj.Ty =>
             exists prop1, prop1 ∈ [("foo", Obj.Number); ("foo", Obj.Boolean)] /\
                           prop1.1 = prop2.1 /\ Obj.typeEq prop1.2 prop2.2 = true)
          [("foo", Obj.Boolean); ("foo", Obj.Boolean)] /\
   Obj.typeEq (Obj.Object [("foo", Obj.Number); ("foo", Obj.Boolean)])
              (Obj.Object [("foo", Obj.Boolean); ("foo", Obj.Boolean)]) = false) /\
  (Obj.typecheck
     (Obj.TobjectNew
        [("x", Obj.TobjectNew [("foo", Obj.Tnumber 1); ("bar", Obj.Tnumber 2)]);
         ("x", Obj.TobjectNew [("foo", Obj.Tnumber 1); ("foo", Obj.Tnumber 2)])]) ∅
   = Ok (Obj.Object
           [("x", Obj.Object [("foo", Obj.Number); ("bar", Obj.Number)]);
            ("x", Obj.Object [("foo", Obj.Number); ("foo", Obj.Number)])]) /\
   Obj.typecheck
     (Obj.TobjectNew
        [("x", Obj.TobjectNew [("foo", Obj.Tnumber 1); ("foo", Obj.Tnumber 2)]);
         ("x", Obj.TobjectNew [("foo", Obj.Tnumber 1); ("bar", Obj.Tnumber 2)])]) ∅
   = Ok (Obj.Object
           [("x", Obj.Object [("foo", Obj.Number); ("foo", Obj.Number)]);
            ("x", Obj.Object [("foo", Obj.Number); ("bar", Obj.Number)])]) /\
   Obj.typeEq
     (Obj.Object
        [("x", Obj.Object [("foo", Obj.Number); ("bar", Obj.Number)]);
         ("x", Obj.Object [("foo", Obj.Number); ("foo", Obj.Number)])])
     (Obj.Object
        [("x", Obj.Object [("foo", Obj.Number); ("foo", Obj.Number)]);
         ("x", Obj.Object [("foo", Obj.Number); ("bar", Obj.Number)])]) = true /\
   Obj.typeEq
     (Obj.Object
        [("x", Obj.Object [("foo", Obj.Number); ("foo", Obj.Number)]);
         ("x", Obj.Object [("foo", Obj.Number); ("bar", Obj.Number)])])
     (Obj.Object
        [("x", Obj.Object [("foo", Obj.Number); ("bar", Obj.Number)]);
         ("x", Obj.Object [("foo", Obj.Number); ("foo", Obj.Number)])]) = false).
Proof.
  split.
  - split; [reflexivity|]. split; [reflexivity|]. split; [reflexivity|]. split.
    + assert (H : exists prop1 : string * Obj.Ty,
                 prop1 ∈ [("foo", Obj.Number); ("foo", Obj.Boolean)] /\
                 prop1.1 = "foo" /\ Obj.typeEq prop1.2 Obj.Boolean = true).
      { exists ("foo", Obj.Boolean).
        split; [right; left | split; reflexivity]. }
      constructor; [exact H|]. constructor; [exact H | constructor].
    + reflexivity.
  - split; [reflexivity|]. split; [reflexivity|]. split; reflexivity.
Qed.

Lemma obj_unique_names_Permutation (props props' : list (string * Obj.Ty)) :
  props ≡ₚ props' ->
  Obj.unique_names (Obj.Object props) = true ->
  Obj.unique_names (Obj.Object props') = true.
Proof.
  intros Hperm [Hnd Hps]%ObjFacts.obj_unique_names_Object.
  apply ObjFacts.obj_unique_names_Object. split.
  - rewrite <- Hperm. exact Hnd.
  - rewrite <- Hperm. exact Hps.
Qed.

(** With unique names in the first type, the first property of a name is
    the only one. *)
Lemma obj_find_prop_unique (props1 : list (string * Obj.Ty)) name (P : string * Obj.Ty -> Prop) :
  NoDup props1.*1 ->
  (exists prop1, Obj.find_prop props1 name = Some prop1 /\ P prop1) <->
  (exists prop1, prop1 ∈ props1 /\ prop1.1 = name /\ P prop1).
Proof.
  intros Hnd. split.
  - intros (prop1 & Hfind & HP).
    apply ObjFacts.obj_find_prop_Some in Hfind as [Hin Hname]. eauto.
  - intros (prop1 & Hin & <- & HP). exists prop1.
    split; [apply ObjFacts.obj_find_prop_NoDup; assumption | exact HP].
Qed.

(** C4 (amended).  [typeEq] against an [Object] type is true only of an
    [Object] type, and on two [Object] types it is true exactly when the
    property counts agree and, for every property of the second, the first
    property of that name in the first type exists and has a [typeEq] type.
    When the names of the first type are distinct, that is: every property
    of the second occurs by name in the first with a [typeEq] type.  On
    types whose [Object] types have distinct property names at every depth,
    [typeEq] is symmetric, and an [Object] type is [typeEq], both ways
    round, to every reordering of its properties. *)
Theorem typeEq_Object :
  (forall ty1 props2,
      Obj.typeEq ty1 (Obj.Object props2) = true -> exists props1, ty1 = Obj.Object props1) /\
  (forall props1 props2,
      Obj.typeEq (Obj.Object props1) (Obj.Object props2) = true <->
      length props1 = length props2 /\
      Forall (fun prop2 =>
                exists prop1, Obj.find_prop props1 prop2.1 = Some prop1 /\
                              Obj.typeEq prop1.2 prop2.2 = true) props2) /\
  (forall props1 props2,
      NoDup props1.*1 ->
      Obj.typeEq (Obj.Object props1) (Obj.Object props2) = true <->
      length props1 = length props2 /\
      Forall (fun prop2 =>
                exists prop1, prop1 ∈ props1 /\ prop1.1 = prop2.1 /\
                              Obj.typeEq prop1.2 prop2.2 = true) props2) /\
  (forall ty1 ty2,
      Obj.unique_names ty1 = true -> Obj.unique_names ty2 = true ->
      Obj.typeEq ty1 ty2 = Obj.typeEq ty2 ty1) /\
  (forall props props',
      Obj.unique_names (Obj.Object props) = true -> props ≡ₚ props' ->
      Obj.typeEq (Obj.Object props) (Obj.Object props') = true /\
      Obj.typeEq (Obj.Object props') (Obj.Object props) = true).
Proof.
  split; [|split; [|split; [|split..]]].
  - intros [| | |props1] props2 H; simpl in H; try discriminate. eauto.
  - apply ObjFacts.obj_typeEq_Object.
  - intros props1 props2 Hnd. rewrite ObjFacts.obj_typeEq_Object.
    apply and_iff_compat_l. rewrite !Forall_forall.
    split; intros H prop2 Hin; specialize (H prop2 Hin);
      apply (obj_find_prop_unique props1 prop2.1
               (fun prop1 => Obj.typeEq prop1.2 prop2.2 = true) Hnd); exact H.
  - apply ObjFacts.obj_typeEq_sym.
  - intros props props' Hu Hperm. split.
    + apply ObjFacts.obj_typeEq_Permutation; assumption.
    + apply ObjFacts.obj_typeEq_Permutation; [|symmetry; exact Hperm..].
      apply (obj_unique_names_Permutation props props' Hperm Hu).
Qed.

Lemma typeEq_Object_witness :
  (Obj.typeEq (Obj.Object [("foo", Obj.Number); ("bar", Obj.Boolean)])
              (Obj.Object [("bar", Obj.Boolean); ("foo", Obj.Number)]) = true /\
   Obj.typeEq (Obj.Object [("bar", Obj.Boolean); ("foo", Obj.Number)])
              (Obj.Object [("foo", Obj.Number); ("bar", Obj.Boolean)]) = true) /\
  Obj.typeEq Obj.Number (Obj.Object [("foo", Obj.Number)])
  = Obj.typeEq (Obj.Object [("foo", Obj.Number)]) Obj.Number /\
  (exists props1, Obj.Object [("foo", Obj.Number)] = Obj.Object props1) /\
  (length [("foo", Obj.Number); ("bar", Obj.Boolean)]
   = length [("bar", Obj.Boolean); ("foo", Obj.Number)] /\
   Forall (fun prop2 : string * Obj.Ty =>
             exists prop1, prop1 ∈ [("foo", Obj.Number); ("bar", Obj.Boolean)] /\
                           prop1.1 = prop2.1 /\ Obj.typeEq prop1.2 prop2.2 = true)
          [("bar", Obj.Boolean); ("foo", Obj.Number)]).
Proof.
  destruct typeEq_Object as (Hobj & _ & Hnames & Hsym & Hperm).
  refine (conj _ (conj _ (conj _ _))).
  - apply (Hperm [("foo", Obj.Number); ("bar", Obj.Boolean)]
                 [("bar", Obj.Boolean); ("foo", Obj.Number)]).
    + vm_compute. reflexivity.
    + apply perm_swap.
  - apply (Hsym Obj.Number (Obj.Object [("foo", Obj.Number)])); reflexivity.
  - apply (Hobj (Obj.Object [("foo", Obj.Number)]) [("foo", Obj.Number)]). reflexivity.
  - apply (Hnames [("foo", Obj.Number); ("bar", Obj.Boolean)]
                  [("bar", Obj.Boolean); ("foo", Obj.Number)]).
    + simpl. apply NoDup_cons. split.
      * intros Hin. apply list_elem_of_singleton in Hin. discriminate.
      * apply NoDup_singleton.
    + reflexivity.
Defined.

(** ** C5 *)

(** C5: the [call] rule, in basic.ts and in obj.ts (whose errors carry the
    call term).  Let [func] have a type.  If that type is not a [Func]
    type, the check fails with "function type expected".  If it is
    [Func params retType] and the number of arguments is not the number of
    parameters, the check fails with "wrong number of arguments".  If the
    numbers agree and the arguments have types, then the check fails with
    "parameter type mismatch" as soon as at some position the type of the
    argument is not [typeEq] to the type of the parameter, and its result is
    [retType] when they are [typeEq] at every position. *)
Theorem call_rule :
  (forall func args tyEnv funcTy,
      Basic.typecheck func tyEnv = Ok funcTy ->
      ((forall params retType, funcTy <> Basic.Func params retType) ->
       Basic.typecheck (Basic.Tcall func args) tyEnv
       = Throw (Basic.ThrowError "function type expected")) /\
      (forall params retType,
          funcTy = Basic.Func params retType ->
          (length args <> length params ->
           Basic.typecheck (Basic.Tcall func args) tyEnv
           = Throw (Basic.ThrowError "wrong number of arguments")) /\
          (length args = length params ->
           forall argTys,
             Forall2 (fun arg argTy => Basic.typecheck arg tyEnv = Ok argTy) args argTys ->
             ((exists i argTy param,
                  argTys !! i = Some argTy /\ params !! i = Some param /\
                  Basic.typeEq argTy param.2 = false) ->
              Basic.typecheck (Basic.Tcall func args) tyEnv
              = Throw (Basic.ThrowError "parameter type mismatch")) /\
             (Forall2 (fun argTy param => Basic.typeEq argTy param.2 = true)
                      argTys params ->
              Basic.typecheck (Basic.Tcall func args) tyEnv = Ok retType)))) /\
  (forall func args tyEnv funcTy,
      Obj.typecheck func tyEnv = Ok funcTy ->
      ((forall params retType, funcTy <> Obj.Func params retType) ->
       Obj.typecheck (Obj.Tcall func args) tyEnv
       = Throw (Obj.ErrorAt "function type expected" (Obj.Tcall func args))) /\
      (forall params retType,
          funcTy = Obj.Func params retType ->
          (length args <> length params ->
           Obj.typecheck (Obj.Tcall func args) tyEnv
           = Throw (Obj.ErrorAt "wrong number of arguments" (Obj.Tcall func args))) /\
          (length args = length params ->
           forall argTys,
             Forall2 (fun arg argTy => Obj.typecheck arg tyEnv = Ok argTy) args argTys ->
             ((exists i argTy param,
                  argTys !! i = Some argTy /\ params !! i = Some param /\
                  Obj.typeEq argTy param.2 = false) ->
              Obj.typecheck (Obj.Tcall func args) tyEnv
              = Throw (Obj.ErrorAt "parameter type mismatch" (Obj.Tcall func args))) /\
             (Forall2 (fun argTy param => Obj.typeEq argTy param.2 = true)
                      argTys params ->
              Obj.typecheck (Obj.Tcall func args) tyEnv = Ok retType)))).
Proof.
  split.
  - intros func args tyEnv funcTy Hfunc. split.
    + intros Hnot. simpl. rewrite Hfunc.
      destruct funcTy as [| |params retType]; try reflexivity.
      destruct (Hnot params retType). reflexivity.
    + intros params retType ->. split.
      * intros Hlen. simpl. rewrite Hfunc.
        destruct (Nat.eqb_spec (length params) (length args)); [lia | reflexivity].
      * intros Hlen argTys Hargs. simpl. rewrite Hfunc.
        rewrite <- Hlen, Nat.eqb_refl. simpl.
        destruct (BasicFacts.basic_args_loop_spec
                    (fun arg => Basic.typecheck arg tyEnv) args argTys params Hargs
                    (eq_sym Hlen))
          as [[Hall ->]|[(i & argTy & param & Hi & Hp & Hne) ->]].
        -- split; [|reflexivity..]. intros (i & argTy & param & Hi & Hp & Hne).
           destruct (Forall2_false_at (fun a p => Basic.typeEq a p.2) _ _ _ _ _
                       Hall Hi Hp Hne).
        -- split; [reflexivity|]. intros Hall.
           destruct (Forall2_false_at (fun a p => Basic.typeEq a p.2) _ _ _ _ _
                       Hall Hi Hp Hne).
  - intros func args tyEnv funcTy Hfunc. split.
    + intros Hnot. simpl. rewrite Hfunc.
      destruct funcTy as [| |params retType|]; try reflexivity.
      destruct (Hnot params retType). reflexivity.
    + intros params retType ->. split.
      * intros Hlen. simpl. rewrite Hfunc.
        destruct (Nat.eqb_spec (length params) (length args)); [lia | reflexivity].
      * intros Hlen argTys Hargs. simpl. rewrite Hfunc.
        rewrite <- Hlen, Nat.eqb_refl. simpl.
        destruct (ObjFacts.obj_args_loop_spec
                    (fun arg => Obj.typecheck arg tyEnv) (Obj.Tcall func args)
                    args argTys params Hargs (eq_sym Hlen))
          as [[Hall ->]|[(i & argTy & param & Hi & Hp & Hne) ->]].
        -- split; [|reflexivity..]. intros (i & argTy & param & Hi & Hp & Hne).
           destruct (Forall2_false_at (fun a p => Obj.typeEq a p.2) _ _ _ _ _
                       Hall Hi Hp Hne).
        -- split; [reflexivity|]. intros Hall.
           destruct (Forall2_false_at (fun a p => Obj.typeEq a p.2) _ _ _ _ _
                       Hall Hi Hp Hne).
Qed.

Lemma call_rule_witness :
  Basic.typecheck (Basic.Tcall (Basic.Tnumber 1) []) ∅
  = Throw (Basic.ThrowError "function type expected") /\
  Basic.typecheck
    (Basic.Tcall (Basic.Tfunc [("x", Basic.Number)] (Basic.Tvar "x")) []) ∅
  = Throw (Basic.ThrowError "wrong number of arguments") /\
  Basic.typecheck
    (Basic.Tcall (Basic.Tfunc [("x", Basic.Number)] (Basic.Tvar "x")) [Basic.Ttrue]) ∅
  = Throw (Basic.ThrowError "parameter type mismatch") /\
  Basic.typecheck
    (Basic.Tcall (Basic.Tfunc [("x", Basic.Number)] (Basic.Tvar "x")) [Basic.Tnumber 42]) ∅
  = Ok Basic.Number /\
  Obj.typecheck
    (Obj.Tcall (Obj.Tfunc [("x", Obj.Number)] (Obj.Tvar "x")) [Obj.Ttrue]) ∅
  = Throw (Obj.ErrorAt "parameter type mismatch"
             (Obj.Tcall (Obj.Tfunc [("x", Obj.Number)] (Obj.Tvar "x")) [Obj.Ttrue])) /\
  Obj.typecheck
    (Obj.Tcall (Obj.Tfunc [("x", Obj.Number)] (Obj.Tvar "x")) [Obj.Tnumber 42]) ∅
  = Ok Obj.Number.
Proof.
  assert (HfB : Basic.typecheck (Basic.Tfunc [("x", Basic.Number)] (Basic.Tvar "x")) ∅
                = Ok (Basic.Func [("x", Basic.Number)] Basic.Number)) by reflexivity.
  assert (HfO : Obj.typecheck (Obj.Tfunc [("x", Obj.Number)] (Obj.Tvar "x")) ∅
                = Ok (Obj.Func [("x", Obj.Number)] Obj.Number)) by reflexivity.
  destruct call_rule as [HB HO].
  refine (conj _ (conj _ (conj _ (conj _ (conj _ _))))).
  - apply (proj1 (HB (Basic.Tnumber 1) [] ∅ Basic.Number eq_refl)).
    intros params retType. discriminate.
  - destruct (HB _ [] _ _ HfB) as [_ H].
    apply (proj1 (H _ _ eq_refl)). simpl. lia.
  - destruct (HB _ [Basic.Ttrue] _ _ HfB) as [_ H].
    destruct (proj2 (H _ _ eq_refl) eq_refl [Basic.Boolean]) as [Hmismatch _].
    + constructor; [reflexivity | constructor].
    + apply Hmismatch. exists 0, Basic.Boolean, ("x", Basic.Number).
      split; [reflexivity | split; reflexivity].
  - destruct (HB _ [Basic.Tnumber 42] _ _ HfB) as [_ H].
    destruct (proj2 (H _ _ eq_refl) eq_refl [Basic.Number]) as [_ Hok].
    + constructor; [reflexivity | constructor].
    + apply Hok. constructor; [reflexivity | constructor].
  - destruct (HO _ [Obj.Ttrue] _ _ HfO) as [_ H].
    destruct (proj2 (H _ _ eq_refl) eq_refl [Obj.Boolean]) as [Hmismatch _].
    + constructor; [reflexivity | constructor].
    + apply Hmismatch. exists 0, Obj.Boolean, ("x", Obj.Number).
      split; [reflexivity | split; reflexivity].
  - destruct (HO _ [Obj.Tnumber 42] _ _ HfO) as [_ H].
    destruct (proj2 (H _ _ eq_refl) eq_refl [Obj.Number]) as [_ Hok].
    + constructor; [reflexivity | constructor].
    + apply Hok. constructor; [reflexivity | constructor].
Defined.

(** ** C6 *)

(** C6: the [if] rule, in basic.ts with [typeEq] and in arith.ts, whose
    two types are their tags, with the comparison of the tags.  When the
    condition has a type that is not [Boolean], the check fails with
    "boolean expected", whatever the branches are; when it is [Boolean] and
    the branches have types that are not equal, the check fails; when they
    are equal, the result is the type of the then-branch. *)
Theorem if_rule :
  (forall cond thn els tyEnv condTy,
      Basic.typecheck cond tyEnv = Ok condTy ->
      (condTy <> Basic.Boolean ->
       Basic.typecheck (Basic.Tif cond thn els) tyEnv
       = Throw (Basic.ThrowString "boolean expected")) /\
      (condTy = Basic.Boolean ->
       forall thnTy elsTy,
         Basic.typecheck thn tyEnv = Ok thnTy ->
         Basic.typecheck els tyEnv = Ok elsTy ->
         (Basic.typeEq thnTy elsTy = false ->
          Basic.typecheck (Basic.Tif cond thn els) tyEnv
          = Throw (Basic.ThrowString "then and else must have the same type")) /\
         (Basic.typeEq thnTy elsTy = true ->
          Basic.typecheck (Basic.Tif cond thn els) tyEnv = Ok thnTy))) /\
  (forall cond thn els condTy,
      Arith.typecheck cond = Ok condTy ->
      (condTy <> Arith.Boolean ->
       Arith.typecheck (Arith.Tif cond thn els) = Throw "boolean expected") /\
      (condTy = Arith.Boolean ->
       forall thnTy elsTy,
         Arith.typecheck thn = Ok thnTy ->
         Arith.typecheck els = Ok elsTy ->
         (Arith.tag thnTy <> Arith.tag elsTy ->
          Arith.typecheck (Arith.Tif cond thn els)
          = Throw "then and else have different types") /\
         (Arith.tag thnTy = Arith.tag elsTy ->
          Arith.typecheck (Arith.Tif cond thn els) = Ok thnTy))).
Proof.
  split.
  - intros cond thn els tyEnv condTy Hcond. simpl. rewrite Hcond. split.
    + intros Hne. destruct condTy; [contradiction | reflexivity..].
    + intros -> thnTy elsTy -> ->. simpl. split; intros ->; reflexivity.
  - intros cond thn els condTy Hcond. simpl. rewrite Hcond. split.
    + intros Hne. destruct condTy; [contradiction | reflexivity].
    + intros -> thnTy elsTy -> ->. simpl. split; intros H.
      * apply String.eqb_neq in H. rewrite H. reflexivity.
      * rewrite H, String.eqb_refl. reflexivity.
Qed.

Lemma if_rule_witness :
  Basic.typecheck (Basic.Tif (Basic.Tnumber 0) Basic.Ttrue Basic.Ttrue) ∅
  = Throw (Basic.ThrowString "boolean expected") /\
  Basic.typecheck (Basic.Tif Basic.Ttrue (Basic.Tnumber 1) Basic.Tfalse) ∅
  = Throw (Basic.ThrowString "then and else must have the same type") /\
  Basic.typecheck (Basic.Tif Basic.Ttrue (Basic.Tnumber 1) (Basic.Tnumber 2)) ∅
  = Ok Basic.Number /\
  Arith.typecheck (Arith.Tif (Arith.Tnumber 0) Arith.Ttrue Arith.Ttrue)
  = Throw "boolean expected" /\
  Arith.typecheck (Arith.Tif Arith.Ttrue (Arith.Tnumber 1) Arith.Tfalse)
  = Throw "then and else have different types" /\
  Arith.typecheck (Arith.Tif Arith.Ttrue (Arith.Tnumber 1) (Arith.Tnumber 2))
  = Ok Arith.Number.
Proof.
  destruct if_rule as [HB HA].
  refine (conj _ (conj _ (conj _ (conj _ (conj _ _))))).
  - refine (proj1 (HB (Basic.Tnumber 0) _ _ ∅ Basic.Number eq_refl) _). discriminate.
  - exact (proj1 (proj2 (HB Basic.Ttrue (Basic.Tnumber 1) Basic.Tfalse ∅ Basic.Boolean
                           eq_refl) eq_refl Basic.Number Basic.Boolean eq_refl eq_refl)
             eq_refl).
  - exact (proj2 (proj2 (HB Basic.Ttrue (Basic.Tnumber 1) (Basic.Tnumber 2) ∅
                           Basic.Boolean eq_refl) eq_refl Basic.Number Basic.Number
                    eq_refl eq_refl) eq_refl).
  - refine (proj1 (HA (Arith.Tnumber 0) _ _ Arith.Number eq_refl) _). discriminate.
  - refine (proj1 (proj2 (HA Arith.Ttrue (Arith.Tnumber 1) Arith.Tfalse Arith.Boolean
                            eq_refl) eq_refl Arith.Number Arith.Boolean eq_refl eq_refl)
              _). discriminate.
  - exact (proj2 (proj2 (HA Arith.Ttrue (Arith.Tnumber 1) (Arith.Tnumber 2)
                           Arith.Boolean eq_refl) eq_refl Arith.Number Arith.Number
                    eq_refl eq_refl) eq_refl).
Defined.

(** ** C7 *)

(** C7: [typecheck] never mutates the environment it is given.  Over the
    heap of environment objects, for the seq2/const2 program, for the
    object program of obj.ts and for basic.ts: the heap after a call
    extends the heap before it, so every object that existed keeps its own
    properties and its prototype, the one [tyEnv] refers to among them;
    [func], [const] and the [const2] statements of a [seq2] write only into
    the copies they allocate.  Hence a name bound by a [const] or by a
    [const2] is visible where the construct makes it visible (in [rest], in
    the later statements of the same [seq2]; but for [null] assigned to
    [__proto__] by a [const], which leaves the copy without a prototype),
    and after the construct it reads as it did before: a name that was
    [undefined] is an unknown variable again.  For obj.ts and basic.ts the
    outcome over the heap is the outcome of the checker that takes the
    environment as a value. *)
Theorem typecheck_never_mutates_env :
  (forall (t : Seq2.Term) (tyEnv : nat) (h : list (env Seq2.Ty)),
      h `prefix_of` (Seq2.typecheck t tyEnv h).2 /\
      (forall l, l < length h ->
                 (Seq2.typecheck t tyEnv h).2 !! l = h !! l /\
                 deref (Seq2.typecheck t tyEnv h).2 l = deref h l) /\
      (forall name,
          tyEnv < length h ->
          get (deref (Seq2.typecheck t tyEnv h).2 tyEnv) name = get (deref h tyEnv) name /\
          (get (deref h tyEnv) name = Undefined ->
           Seq2.typecheck (Seq2.Tvar name) tyEnv (Seq2.typecheck t tyEnv h).2
           = (Throw (Seq2.ThrowError ("unknown variable: " +:+ name)),
              (Seq2.typecheck t tyEnv h).2))) /\
      (forall name init ty h1,
          Seq2.typecheck init tyEnv h = (Ok ty, h1) ->
          (t = Seq2.Tconst name init (Seq2.Tvar name) /\
           (name <> "__proto__" \/ ty <> Seq2.Null) \/
           t = Seq2.Tseq2 [Seq2.Tconst2 name init; Seq2.Tvar name]) ->
          (Seq2.typecheck t tyEnv h).1 = Ok ty)) /\
  (forall (t : Obj.Term) (tyEnv : nat) (h : list (env Obj.Ty)),
      tyEnv < length h ->
      h `prefix_of` (ObjHeap.typecheck t tyEnv h).2 /\
      deref (ObjHeap.typecheck t tyEnv h).2 tyEnv = deref h tyEnv /\
      (ObjHeap.typecheck t tyEnv h).1 = Obj.typecheck t (deref h tyEnv) /\
      (forall name init rest ty,
          t = Obj.Tseq (Obj.Tconst name init rest) (Obj.Tvar name) ->
          get (deref h tyEnv) name = Undefined ->
          Obj.typecheck (Obj.Tconst name init rest) (deref h tyEnv) = Ok ty ->
          (ObjHeap.typecheck t tyEnv h).1
          = Throw (Obj.ErrorAt ("unknown variable: " +:+ name) (Obj.Tvar name)))) /\
  (forall (t : Basic.Term) (tyEnv : nat) (h : list (env Basic.Ty)),
      tyEnv < length h ->
      h `prefix_of` (BasicHeap.typecheck t tyEnv h).2 /\
      deref (BasicHeap.typecheck t tyEnv h).2 tyEnv = deref h tyEnv /\
      (BasicHeap.typecheck t tyEnv h).1 = Basic.typecheck t (deref h tyEnv)).
Proof.
  split; [|split].
  - intros t tyEnv h. split; [apply Seq2Facts.seq2_typecheck_extends|].
    split; [|split].
    + intros l Hl. split; [|apply Seq2Facts.seq2_typecheck_deref, Hl].
      destruct (Seq2Facts.seq2_typecheck_extends t tyEnv h) as [k ->].
      apply lookup_app_l, Hl.
    + intros name Hl.
      rewrite Seq2Facts.seq2_typecheck_deref by exact Hl. split; [reflexivity|].
      intros Hundef. simpl.
      rewrite Seq2Facts.seq2_typecheck_deref by exact Hl. rewrite Hundef. reflexivity.
    + intros name init ty h1 Hinit [[-> Hname] | ->]; simpl; rewrite Hinit; simpl.
      * rewrite store_fresh, deref_fresh, get_assign_eq; [reflexivity| |].
        -- destruct Hname as [Hne|Hnull]; [left; exact Hne | right].
           destruct ty; [destruct Hnull|..]; reflexivity.
        -- destruct ty; reflexivity.
      * rewrite deref_fresh, get_insert_eq. reflexivity.
  - intros t tyEnv h Hl.
    destruct (ObjHeapFacts.obj_heap_typecheck_refines t tyEnv h (deref h tyEnv) Hl eq_refl)
      as [k E].
    rewrite E. cbn [fst snd]. split; [apply prefix_app_r; reflexivity|].
    split; [apply deref_app, Hl|]. split; [reflexivity|].
    intros name init rest ty -> Hnone Hconst.
    change (Obj.typecheck (Obj.Tseq (Obj.Tconst name init rest) (Obj.Tvar name))
              (deref h tyEnv))
      with (match Obj.typecheck (Obj.Tconst name init rest) (deref h tyEnv) with
            | Ok _ => Obj.typecheck (Obj.Tvar name) (deref h tyEnv)
            | Throw err => Throw err
            | NotAType => NotAType
            end).
    rewrite Hconst. simpl. rewrite Hnone. reflexivity.
  - intros t tyEnv h Hl.
    destruct (BasicHeapFacts.basic_heap_typecheck_refines t tyEnv h (deref h tyEnv)
                Hl eq_refl) as [k E].
    rewrite E. simpl. split; [apply prefix_app_r; reflexivity|].
    split; [apply deref_app, Hl | reflexivity].
Qed.

Lemma typecheck_never_mutates_env_witness :
  (deref
     (Seq2.typecheck (Seq2.Tconst "x" (Seq2.Tnumber 1) (Seq2.Tvar "x")) 0 [∅]).2 0 = ∅ /\
   Seq2.typecheck (Seq2.Tvar "x") 0
     (Seq2.typecheck (Seq2.Tconst "x" (Seq2.Tnumber 1) (Seq2.Tvar "x")) 0 [∅]).2
   = (Throw (Seq2.ThrowError "unknown variable: x"), [∅; {["x" := Seq2.Number]}]) /\
   (Seq2.typecheck (Seq2.Tconst "x" (Seq2.Tnumber 1) (Seq2.Tvar "x")) 0 [∅]).1
   = Ok Seq2.Number) /\
  (deref
     (ObjHeap.typecheck
        (Obj.Tseq (Obj.Tconst "x" (Obj.Tnumber 1) (Obj.Tvar "x")) (Obj.Tvar "x")) 0 [∅]).2 0
   = ∅ /\
   (ObjHeap.typecheck
      (Obj.Tseq (Obj.Tconst "x" (Obj.Tnumber 1) (Obj.Tvar "x")) (Obj.Tvar "x")) 0 [∅]).1
   = Throw (Obj.ErrorAt "unknown variable: x" (Obj.Tvar "x"))) /\
  deref
    (BasicHeap.typecheck
       (Basic.Tfunc [("x", Basic.Number)] (Basic.Tvar "x")) 0 [∅]).2 0 = ∅.
Proof.
  destruct typecheck_never_mutates_env as (HS & HO & HB).
  refine (conj _ (conj _ _)).
  - destruct (HS (Seq2.Tconst "x" (Seq2.Tnumber 1) (Seq2.Tvar "x")) 0 [∅])
      as (_ & Hframe & Hvar & Hbound).
    refine (conj _ (conj _ _)).
    + exact (proj2 (Hframe 0 (Nat.lt_0_succ 0))).
    + exact (proj2 (Hvar "x" (Nat.lt_0_succ 0)) eq_refl).
    + apply (Hbound "x" (Seq2.Tnumber 1) Seq2.Number [∅] eq_refl).
      left. split; [reflexivity|]. left. discriminate.
  - destruct (HO (Obj.Tseq (Obj.Tconst "x" (Obj.Tnumber 1) (Obj.Tvar "x")) (Obj.Tvar "x"))
                0 [∅] (Nat.lt_0_succ 0)) as (_ & Hframe & _ & Hout).
    split; [exact Hframe|].
    apply (Hout "x" (Obj.Tnumber 1) (Obj.Tvar "x") Obj.Number eq_refl eq_refl).
    reflexivity.
  - exact (proj1 (proj2 (HB (Basic.Tfunc [("x", Basic.Number)] (Basic.Tvar "x"))
                            0 [∅] (Nat.lt_0_succ 0)))).
Defined.

(** ** C8 *)

(** C8: [typeEq] against a [Func] type is true exactly when the first type
    is a [Func] type with as many parameters, whose parameter types are
    [typeEq] position by position and whose return type is [typeEq]; the
    parameter names take no part, so two [Func] types that differ in
    parameter names only are [typeEq]. *)
Theorem typeEq_Func :
  (forall ty1 params2 retType2,
      Basic.typeEq ty1 (Basic.Func params2 retType2) = true <->
      exists params1 retType1,
        ty1 = Basic.Func params1 retType1 /\
        length params1 = length params2 /\
        Forall2 (fun p1 p2 => Basic.typeEq p1.2 p2.2 = true) params1 params2 /\
        Basic.typeEq retType1 retType2 = true) /\
  (forall (params1 params2 : list (string * Basic.Ty)) retType,
      params1.*2 = params2.*2 ->
      Basic.typeEq (Basic.Func params1 retType) (Basic.Func params2 retType) = true).
Proof.
  split; [apply BasicFacts.basic_typeEq_Func_inv|].
  intros params1 params2 retType Htypes.
  apply BasicFacts.basic_typeEq_Func_inv. exists params1, retType.
  split; [reflexivity|].
  assert (length params1 = length params2) as Hlen.
  { rewrite <- (length_fmap snd params1), Htypes. apply length_fmap. }
  split; [exact Hlen|]. split; [|apply BasicFacts.basic_typeEq_refl..].
  revert params2 Htypes Hlen.
  induction params1 as [|[n1 t1] params1 IH]; intros [|[n2 t2] params2] Htypes Hlen;
    simpl in *; try discriminate; constructor.
  - simpl. injection Htypes as -> _. apply BasicFacts.basic_typeEq_refl.
  - apply IH; [injection Htypes as _ H; exact H | lia].
Qed.

Lemma typeEq_Func_witness :
  Basic.typeEq (Basic.Func [("x", Basic.Number); ("y", Basic.Boolean)] Basic.Number)
               (Basic.Func [("a", Basic.Number); ("b", Basic.Boolean)] Basic.Number)
  = true.
Proof.
  exact (proj2 typeEq_Func
           [("x", Basic.Number); ("y", Basic.Boolean)]
           [("a", Basic.Number); ("b", Basic.Boolean)] Basic.Number eq_refl).
Defined.

(** ** C9 *)

(** C9: in the seq2/const2 variant a [const2] term that [typecheck] is
    called on fails with "not implemented yet", at the top level as well
    as where it is the first sub-term that another case checks; as a
    statement of a [seq2] body it binds its name for the statements after
    it. *)
Theorem const2_outside_seq2_not_implemented :
  (forall name init tyEnv h,
      Seq2.typecheck (Seq2.Tconst2 name init) tyEnv h = (Throw (Seq2.ThrowError "not implemented yet"), h)) /\
  (forall name init thn els tyEnv h,
      Seq2.typecheck (Seq2.Tif (Seq2.Tconst2 name init) thn els) tyEnv h
      = (Throw (Seq2.ThrowError "not implemented yet"), h)) /\
  (forall name init r tyEnv h,
      Seq2.typecheck (Seq2.Tadd (Seq2.Tconst2 name init) r) tyEnv h
      = (Throw (Seq2.ThrowError "not implemented yet"), h)) /\
  (forall name init args tyEnv h,
      Seq2.typecheck (Seq2.Tcall (Seq2.Tconst2 name init) args) tyEnv h
      = (Throw (Seq2.ThrowError "not implemented yet"), h)) /\
  (forall name init rest tyEnv h,
      Seq2.typecheck (Seq2.Tseq (Seq2.Tconst2 name init) rest) tyEnv h
      = (Throw (Seq2.ThrowError "not implemented yet"), h)) /\
  (forall name name' init rest tyEnv h,
      Seq2.typecheck (Seq2.Tconst name' (Seq2.Tconst2 name init) rest) tyEnv h
      = (Throw (Seq2.ThrowError "not implemented yet"), h)) /\
  (forall name init tyEnv h ty h1,
      Seq2.typecheck init tyEnv h = (Ok ty, h1) ->
      Seq2.typecheck (Seq2.Tseq2 [Seq2.Tconst2 name init; Seq2.Tvar name]) tyEnv h
      = (Ok ty, h1 ++ [<[name := ty]> (deref h1 tyEnv)])).
Proof.
  repeat split; try reflexivity.
  intros name init tyEnv h ty h1 Hinit. simpl. rewrite Hinit. simpl.
  rewrite deref_fresh, get_insert_eq. reflexivity.
Qed.

Lemma const2_outside_seq2_not_implemented_witness :
  Seq2.typecheck (Seq2.Tseq2 [Seq2.Tconst2 "x" (Seq2.Tnumber 1); Seq2.Tvar "x"]) 0 [∅]
  = (Ok Seq2.Number, [∅; {["x" := Seq2.Number]}]).
Proof.
  exact (proj2 (proj2 (proj2 (proj2 (proj2 (proj2
           const2_outside_seq2_not_implemented)))))
           "x" (Seq2.Tnumber 1) 0 [∅] Seq2.Number [∅] eq_refl).
Defined.

(** ** C10 *)

(** C10: a [func] whose parameter list names a parameter more than once,
    in basic.ts and in obj.ts.  The body is checked in the environment
    extended with the parameters from left to right, in which a name reads
    as the declared type of its rightmost parameter (for [__proto__], whose
    assignment sets the prototype of the copy, as for any other name); the
    [Func] type of the result carries the parameter list as it was written,
    the duplicates included. *)
Theorem func_duplicate_parameter :
  (forall (ps1 ps2 : list (string * Basic.Ty)) name ty body tyEnv,
      name ∉ ps2.*1 ->
      get (Basic.extend tyEnv (ps1 ++ (name, ty) :: ps2)) name = Value ty /\
      Basic.typecheck (Basic.Tfunc (ps1 ++ (name, ty) :: ps2) (Basic.Tvar name)) tyEnv
      = Ok (Basic.Func (ps1 ++ (name, ty) :: ps2) ty) /\
      (forall retType,
          Basic.typecheck body (Basic.extend tyEnv (ps1 ++ (name, ty) :: ps2))
          = Ok retType ->
          Basic.typecheck (Basic.Tfunc (ps1 ++ (name, ty) :: ps2) body) tyEnv
          = Ok (Basic.Func (ps1 ++ (name, ty) :: ps2) retType))) /\
  (forall (ps1 ps2 : list (string * Obj.Ty)) name ty body tyEnv,
      name ∉ ps2.*1 ->
      get (Obj.extend tyEnv (ps1 ++ (name, ty) :: ps2)) name = Value ty /\
      Obj.typecheck (Obj.Tfunc (ps1 ++ (name, ty) :: ps2) (Obj.Tvar name)) tyEnv
      = Ok (Obj.Func (ps1 ++ (name, ty) :: ps2) ty) /\
      (forall retType,
          Obj.typecheck body (Obj.extend tyEnv (ps1 ++ (name, ty) :: ps2))
          = Ok retType ->
          Obj.typecheck (Obj.Tfunc (ps1 ++ (name, ty) :: ps2) body) tyEnv
          = Ok (Obj.Func (ps1 ++ (name, ty) :: ps2) retType))).
Proof.
  split.
  - intros ps1 ps2 name ty body tyEnv Hlast.
    pose proof (BasicFacts.basic_extend_last ps1 ps2 tyEnv name ty Hlast) as Hext.
    split; [exact Hext|]. split.
    + simpl. rewrite Hext. reflexivity.
    + intros retType Hbody. simpl. rewrite Hbody. reflexivity.
  - intros ps1 ps2 name ty body tyEnv Hlast.
    pose proof (ObjFacts.obj_extend_last ps1 ps2 tyEnv name ty Hlast) as Hext.
    split; [exact Hext|]. split.
    + simpl. rewrite Hext. reflexivity.
    + intros retType Hbody. simpl. rewrite Hbody. reflexivity.
Qed.

Lemma func_duplicate_parameter_witness :
  Basic.typecheck
    (Basic.Tfunc [("x", Basic.Number); ("x", Basic.Boolean)] (Basic.Tvar "x")) ∅
  = Ok (Basic.Func [("x", Basic.Number); ("x", Basic.Boolean)] Basic.Boolean) /\
  Obj.typecheck
    (Obj.Tfunc [("x", Obj.Number); ("x", Obj.Boolean)] (Obj.Tvar "x")) ∅
  = Ok (Obj.Func [("x", Obj.Number); ("x", Obj.Boolean)] Obj.Boolean) /\
  Obj.typecheck
    (Obj.Tfunc [("__proto__", Obj.Boolean); ("__proto__", Obj.Number)]
       (Obj.Tvar "__proto__")) ∅
  = Ok (Obj.Func [("__proto__", Obj.Boolean); ("__proto__", Obj.Number)] Obj.Number).
Proof.
  destruct func_duplicate_parameter as [HB HO].
  refine (conj _ (conj _ _)).
  - refine (proj1 (proj2 (HB [("x", Basic.Number)] [] "x" Basic.Boolean
                            (Basic.Tvar "x") ∅ _))).
    simpl. apply not_elem_of_nil.
  - refine (proj1 (proj2 (HO [("x", Obj.Number)] [] "x" Obj.Boolean
                            (Obj.Tvar "x") ∅ _))).
    simpl. apply not_elem_of_nil.
  - refine (proj1 (proj2 (HO [("__proto__", Obj.Boolean)] [] "__proto__" Obj.Number
                            (Obj.Tvar "__proto__") ∅ _))).
    simpl. apply not_elem_of_nil.
Defined.

(** * Further properties *)

(** ** typeEq of basic.ts *)

Lemma basic_typeEq_erase (ty2 : Basic.Ty) :
  forall ty1, Basic.typeEq ty1 ty2 = true <-> Basic.erase ty1 = Basic.erase ty2.
Proof.
  induction ty2 as [| |params2 retType2 IHparams IHret] using Basic.Ty_nested_ind;
    intros ty1.
  - destruct ty1; simpl; split; (reflexivity || discriminate).
  - destruct ty1; simpl; split; (reflexivity || discriminate).
  - rewrite BasicFacts.basic_typeEq_Func_inv. split.
    + intros (params1 & retType1 & -> & _ & Hps & Hret). simpl. f_equal.
      * clear -Hps IHparams.
        induction Hps as [|p1 p2 ps1 ps2 Hp _ IH]; [reflexivity|].
        inversion IHparams as [|? ? Hp2 Hps2]; subst. simpl. f_equal.
        -- f_equal. apply Hp2, Hp.
        -- apply IH, Hps2.
      * apply IHret, Hret.
    + destruct ty1 as [| |params1 retType1]; simpl; try discriminate.
      intros [= Hps Hret]. exists params1, retType1. split; [reflexivity|].
      assert (Forall2 (fun p1 p2 => Basic.typeEq p1.2 p2.2 = true) params1 params2) as HF.
      { clear -Hps IHparams. revert params1 Hps.
        induction IHparams as [|p2 ps2 Hp2 _ IH]; intros [|p1 ps1] Hps;
          simpl in Hps; try discriminate; constructor.
        - apply Hp2. injection Hps as H _. exact H.
        - apply IH. injection Hps as _ H. exact H. }
      split; [exact (Forall2_length _ _ _ HF)|]. split; [exact HF|].
      apply IHret, Hret.
Qed.

(** X1: [typeEq] of basic.ts holds exactly of two types that are equal once
    the parameter names are blanked out; so it is reflexive, symmetric
    and transitive. *)
Theorem basic_typeEq_equivalence :
  (forall ty1 ty2, Basic.typeEq ty1 ty2 = true <-> Basic.erase ty1 = Basic.erase ty2) /\
  (forall ty, Basic.typeEq ty ty = true) /\
  (forall ty1 ty2, Basic.typeEq ty1 ty2 = Basic.typeEq ty2 ty1) /\
  (forall ty1 ty2 ty3,
      Basic.typeEq ty1 ty2 = true -> Basic.typeEq ty2 ty3 = true ->
      Basic.typeEq ty1 ty3 = true).
Proof.
  split; [intros; apply basic_typeEq_erase|].
  split; [apply BasicFacts.basic_typeEq_refl|]. split.
  - intros ty1 ty2.
    destruct (Basic.typeEq ty1 ty2) eqn:E12, (Basic.typeEq ty2 ty1) eqn:E21;
      try reflexivity.
    + apply basic_typeEq_erase in E12. symmetry in E12.
      apply basic_typeEq_erase in E12. congruence.
    + apply basic_typeEq_erase in E21. symmetry in E21.
      apply basic_typeEq_erase in E21. congruence.
  - intros ty1 ty2 ty3 H12 H23. apply basic_typeEq_erase.
    apply basic_typeEq_erase in H12, H23. congruence.
Qed.

Lemma basic_typeEq_equivalence_witness :
  Basic.typeEq (Basic.Func [("x", Basic.Number)] Basic.Boolean)
               (Basic.Func [("z", Basic.Number)] Basic.Boolean) = true.
Proof.
  apply (proj2 (proj2 (proj2 basic_typeEq_equivalence))
           (Basic.Func [("x", Basic.Number)] Basic.Boolean)
           (Basic.Func [("y", Basic.Number)] Basic.Boolean)
           (Basic.Func [("z", Basic.Number)] Basic.Boolean)); reflexivity.
Defined.

(** ** typeEq of obj.ts *)

Lemma obj_typeEq_Func_inv (ty1 : Obj.Ty) params2 retType2 :
  Obj.typeEq ty1 (Obj.Func params2 retType2) = true <->
  exists params1 retType1,
    ty1 = Obj.Func params1 retType1 /\
    Forall2 (fun p1 p2 => Obj.typeEq p1.2 p2.2 = true) params1 params2 /\
    Obj.typeEq retType1 retType2 = true.
Proof.
  destruct ty1 as [| |params1 retType1|props1]; simpl.
  1,2,4: split; [discriminate | intros (? & ? & ? & _); discriminate].
  destruct (Nat.eqb_spec (length params1) (length params2)) as [Hlen|Hlen]; simpl.
  - destruct (Obj.params_loop Obj.typeEq params1 params2) eqn:Hloop; simpl.
    + apply ObjFacts.obj_params_loop_Forall2 in Hloop; [|exact Hlen..].
      destruct (Obj.typeEq retType1 retType2) eqn:Hret; simpl.
      * split; [|reflexivity..]. intros _. exists params1, retType1. auto.
      * split; [discriminate|]. intros (? & ? & [= <- <-] & _ & H). congruence.
    + split; [discriminate|]. intros (? & ? & [= <- <-] & H & _).
      apply ObjFacts.obj_params_loop_Forall2 in H; [congruence | exact Hlen].
  - split; [discriminate|]. intros (? & ? & [= <- <-] & H & _).
    apply Forall2_length in H. contradiction.
Qed.

(** X2: [typeEq] of obj.ts is transitive on all types, those with repeated
    property names included. *)
Theorem obj_typeEq_trans :
  forall ty1 ty2 ty3 : Obj.Ty,
    Obj.typeEq ty1 ty2 = true -> Obj.typeEq ty2 ty3 = true -> Obj.typeEq ty1 ty3 = true.
Proof.
  intros ty1 ty2 ty3. revert ty1 ty2.
  induction ty3 as [| |params3 retType3 IHparams IHret|props3 IHprops]
                     using Obj.Ty_nested_ind; intros ty1 ty2 H12 H23.
  - destruct ty2; simpl in H23; try discriminate.
    destruct ty1; simpl in H12; try discriminate. reflexivity.
  - destruct ty2; simpl in H23; try discriminate.
    destruct ty1; simpl in H12; try discriminate. reflexivity.
  - apply obj_typeEq_Func_inv in H23 as (params2 & retType2 & -> & Hps23 & Hr23).
    apply obj_typeEq_Func_inv in H12 as (params1 & retType1 & -> & Hps12 & Hr12).
    apply obj_typeEq_Func_inv. exists params1, retType1.
    split; [reflexivity|]. split; [|exact (IHret _ _ Hr12 Hr23)..].
    clear -Hps12 Hps23 IHparams. revert params1 Hps12.
    induction Hps23 as [|p2 p3 ps2 ps3 Hp23 _ IH]; intros params1 Hps12;
      inversion Hps12 as [|p1 ? ps1 ? Hp12 Hps12']; subst; [constructor|].
    inversion IHparams as [|? ? Hp3 Hps3]; subst.
    constructor; [exact (Hp3 _ _ Hp12 Hp23) | apply IH; assumption].
  - destruct ty2 as [| | |props2]; simpl in H23; try discriminate.
    destruct ty1 as [| | |props1]; simpl in H12; try discriminate.
    apply ObjFacts.obj_typeEq_Object in H12 as [Hlen12 Hall12].
    apply ObjFacts.obj_typeEq_Object in H23 as [Hlen23 Hall23].
    apply ObjFacts.obj_typeEq_Object. split; [congruence|].
    rewrite Forall_forall in Hall12, Hall23, IHprops |- *.
    intros prop3 Hin3.
    destruct (Hall23 prop3 Hin3) as (prop2 & Hfind2 & Hty23).
    apply ObjFacts.obj_find_prop_Some in Hfind2 as [Hin2 Hname2].
    destruct (Hall12 prop2 Hin2) as (prop1 & Hfind1 & Hty12).
    exists prop1. split; [rewrite <- Hname2; exact Hfind1|].
    exact (IHprops prop3 Hin3 _ _ Hty12 Hty23).
Qed.

Lemma obj_typeEq_trans_witness :
  Obj.typeEq (Obj.Object [("foo", Obj.Number); ("foo", Obj.Boolean)])
             (Obj.Object [("foo", Obj.Number); ("foo", Obj.Number)]) = true.
Proof.
  apply (obj_typeEq_trans
           (Obj.Object [("foo", Obj.Number); ("foo", Obj.Boolean)])
           (Obj.Object [("foo", Obj.Number); ("foo", Obj.Number)])
           (Obj.Object [("foo", Obj.Number); ("foo", Obj.Number)])); reflexivity.
Defined.

(** ** Terms that typecheck *)

Lemma basic_args_loop_Ok (tc : Basic.Term -> result Basic.exn Basic.Ty) args :
  forall params,
    length params = length args ->
    Basic.args_loop tc args params = Ok tt ->
    Forall (fun arg => exists ty, tc arg = Ok ty) args.
Proof.
  induction args as [|arg args IH]; intros params Hlen Hloop; [constructor|].
  destruct params as [|[n type] params]; [discriminate|]. simpl in *.
  destruct (tc arg) as [argTy|e|] eqn:Harg; [|discriminate..].
  destruct (Basic.typeEq argTy type); simpl in Hloop; [|discriminate..].
  constructor; [eauto | apply (IH params); [lia | exact Hloop]].
Qed.

(** X3: basic.ts has no case for [seq] and [const], and a successful check
    has visited every sub-term: a term that typechecks has no [seq] and
    no [const] anywhere. *)
Theorem basic_typecheck_Ok_seq_const_free :
  forall t tyEnv ty,
    Basic.typecheck t tyEnv = Ok ty -> Basic.seq_const_free t = true.
Proof.
  induction t as [| |cond thn els IHc IHt IHe| |l r IHl IHr| |params body IHb
                 |func args IHf IHargs|body rest _ _|name init rest _ _]
                   using Basic.Term_nested_ind;
    intros tyEnv ty H; simpl in *; try reflexivity; try discriminate.
  - destruct (Basic.typecheck cond tyEnv) as [condTy| |] eqn:Hc; [|discriminate..].
    destruct (Basic.is_Boolean condTy); simpl in H; [|discriminate..].
    destruct (Basic.typecheck thn tyEnv) as [thnTy| |] eqn:Ht; [|discriminate..].
    destruct (Basic.typecheck els tyEnv) as [elsTy| |] eqn:He; [|discriminate..].
    rewrite (IHc _ _ Hc), (IHt _ _ Ht), (IHe _ _ He). reflexivity.
  - destruct (Basic.typecheck l tyEnv) as [leftTy| |] eqn:Hl; [|discriminate..].
    destruct (Basic.is_Number leftTy); simpl in H; [|discriminate..].
    destruct (Basic.typecheck r tyEnv) as [rightTy| |] eqn:Hr; [|discriminate..].
    rewrite (IHl _ _ Hl), (IHr _ _ Hr). reflexivity.
  - destruct (Basic.typecheck body (Basic.extend tyEnv params)) eqn:Hb; [|discriminate..].
    exact (IHb _ _ Hb).
  - destruct (Basic.typecheck func tyEnv) as [funcTy| |] eqn:Hf; [|discriminate..].
    destruct funcTy as [| |params retType]; try discriminate.
    destruct (Nat.eqb_spec (length params) (length args)) as [Hlen|];
      simpl in H; [|discriminate..].
    destruct (Basic.args_loop (fun arg => Basic.typecheck arg tyEnv) args params)
      as [[]| |] eqn:Hloop; [|discriminate..].
    rewrite (IHf _ _ Hf). simpl.
    apply basic_args_loop_Ok in Hloop; [|exact Hlen..].
    apply forallb_forall. intros arg Hin.
    rewrite Forall_forall in IHargs, Hloop.
    apply list_elem_of_In in Hin.
    destruct (Hloop arg Hin) as [ty' Hty']. exact (IHargs arg Hin _ _ Hty').
Qed.

Lemma basic_typecheck_Ok_seq_const_free_witness :
  Basic.seq_const_free
    (Basic.Tcall (Basic.Tfunc [("x", Basic.Number)] (Basic.Tvar "x")) [Basic.Tnumber 42])
  = true.
Proof.
  apply (basic_typecheck_Ok_seq_const_free
           (Basic.Tcall (Basic.Tfunc [("x", Basic.Number)] (Basic.Tvar "x"))
              [Basic.Tnumber 42]) ∅ Basic.Number).
  reflexivity.
Defined.

Lemma seq2_args_loop_Ok (tc : Seq2.Term -> nat -> ST Seq2.exn Seq2.Ty Seq2.Ty) tyEnv args :
  forall params h h',
    length params = length args ->
    Seq2.args_loop tc tyEnv args params h = (Ok tt, h') ->
    Forall (fun arg => exists h1 ty h2, tc arg tyEnv h1 = (Ok ty, h2)) args.
Proof.
  induction args as [|arg args IH]; intros params h h' Hlen Hloop; [constructor|].
  destruct params as [|[n type] params]; [discriminate|]. simpl in *.
  destruct (tc arg tyEnv h) as [[argTy|e|] h1] eqn:Harg; [|discriminate..].
  unfold pure in Hloop. destruct (Seq2.typeEq argTy type) as [[|]| |]; simpl in Hloop;
    try discriminate.
  constructor; [eauto | apply (IH params h1 h'); [lia | exact Hloop]].
Qed.

Lemma seq2_seq2_loop_Ok (tc : Seq2.Term -> nat -> ST Seq2.exn Seq2.Ty Seq2.Ty) body :
  forall tyEnv lastTy h ty h',
    Seq2.seq2_loop tc body tyEnv lastTy h = (Ok ty, h') ->
    Forall (fun term =>
              match term with
              | Seq2.Tconst2 _ init => exists l h1 ty h2, tc init l h1 = (Ok ty, h2)
              | _ => exists l h1 ty h2, tc term l h1 = (Ok ty, h2)
              end) body.
Proof.
  induction body as [|term body IH]; intros tyEnv lastTy h ty h' Hloop; [constructor|].
  simpl in Hloop.
  destruct term;
    try (match type of Hloop with
         | context [tc ?t tyEnv h] =>
             destruct (tc t tyEnv h) as [[ty1|e|] h1] eqn:Hterm; [|discriminate..];
             constructor; [eauto 6 | exact (IH _ _ _ _ _ Hloop)]
         end).
Qed.

(** X4: in the seq2 program a successful check has visited every sub-term,
    and a [const2] is only handled as a statement of a [seq2] body: when a
    term typechecks, every [const2] in it is such a statement. *)
Theorem seq2_typecheck_Ok_const2_in_seq2 :
  forall t tyEnv h ty h',
    Seq2.typecheck t tyEnv h = (Ok ty, h') -> Seq2.const2_in_seq2 t = true.
Proof.
  induction t as [| |cond thn els IHc IHt IHe| |l r IHl IHr| |params body IHb
                 |func args IHf IHargs|body rest IHb IHr|name init rest IHi IHr
                 |body IHbody|name init IHi] using Seq2.Term_nested_ind;
    intros tyEnv h ty h' H; simpl in *; try reflexivity; try discriminate.
  - destruct (Seq2.typecheck cond tyEnv h) as [[condTy| |] h1] eqn:Hc; [|discriminate..].
    unfold pure in H. destruct (Seq2.tag condTy) as [condTag| |]; [|discriminate..].
    destruct (String.eqb condTag "Boolean"); simpl in H; [|discriminate..].
    destruct (Seq2.typecheck thn tyEnv h1) as [[thnTy| |] h2] eqn:Ht; [|discriminate..].
    destruct (Seq2.typecheck els tyEnv h2) as [[elsTy| |] h3] eqn:He; [|discriminate..].
    rewrite (IHc _ _ _ _ Hc), (IHt _ _ _ _ Ht), (IHe _ _ _ _ He). reflexivity.
  - destruct (Seq2.typecheck l tyEnv h) as [[leftTy| |] h1] eqn:Hl; [|discriminate..].
    unfold pure in H. destruct (Seq2.tag leftTy) as [leftTag| |]; [|discriminate..].
    destruct (String.eqb leftTag "Number"); simpl in H; [|discriminate..].
    destruct (Seq2.typecheck r tyEnv h1) as [[rightTy| |] h2] eqn:Hr; [|discriminate..].
    rewrite (IHl _ _ _ _ Hl), (IHr _ _ _ _ Hr). reflexivity.
  - destruct (Seq2.typecheck body _ _) as [[retType| |] h1] eqn:Hb; [|discriminate..].
    exact (IHb _ _ _ _ Hb).
  - destruct (Seq2.typecheck func tyEnv h) as [[funcTy| |] h1] eqn:Hf; [|discriminate..].
    unfold pure in H. destruct (Seq2.tag funcTy) as [funcTag| |]; [|discriminate..].
    destruct funcTy as [| | |params retType]; try discriminate.
    destruct (Nat.eqb_spec (length params) (length args)) as [Hlen|];
      simpl in H; [|discriminate..].
    destruct (Seq2.args_loop Seq2.typecheck tyEnv args params h1)
      as [[[]| |] h2] eqn:Hloop; [|discriminate..].
    rewrite (IHf _ _ _ _ Hf). simpl.
    apply seq2_args_loop_Ok in Hloop; [|exact Hlen..].
    apply forallb_forall. intros arg Hin.
    rewrite Forall_forall in IHargs, Hloop.
    apply list_elem_of_In in Hin.
    destruct (Hloop arg Hin) as (h1' & ty' & h2' & Hty'). exact (IHargs arg Hin _ _ _ _ Hty').
  - destruct (Seq2.typecheck body tyEnv h) as [[ty1| |] h1] eqn:Hb; [|discriminate..].
    rewrite (IHb _ _ _ _ Hb), (IHr _ _ _ _ H). reflexivity.
  - destruct (Seq2.typecheck init tyEnv h) as [[ty1| |] h1] eqn:Hi; [|discriminate..].
    rewrite (IHi _ _ _ _ Hi), (IHr _ _ _ _ H). reflexivity.
  - apply seq2_seq2_loop_Ok in H.
    apply forallb_forall. intros term Hin. apply list_elem_of_In in Hin.
    rewrite Forall_forall in IHbody, H.
    specialize (H term Hin). destruct (IHbody term Hin) as [Hterm Hinit].
    destruct term; destruct H as (l & h1 & ty1 & h2 & Hty); eauto.
Qed.

Lemma seq2_typecheck_Ok_const2_in_seq2_witness :
  Seq2.const2_in_seq2
    (Seq2.Tseq2 [Seq2.Tconst2 "x" (Seq2.Tnumber 1); Seq2.Tvar "x"]) = true.
Proof.
  apply (seq2_typecheck_Ok_const2_in_seq2
           (Seq2.Tseq2 [Seq2.Tconst2 "x" (Seq2.Tnumber 1); Seq2.Tvar "x"])
           0 [∅] Seq2.Number [∅; {["x" := Seq2.Number]}]).
  reflexivity.
Defined.

(** ** seq2 in terms of seq and const *)

(** Once a statement that is not a binding follows, the type remembered
    so far plays no part. *)
Lemma seq2_seq2_loop_lastTy (tc : Seq2.Term -> nat -> ST Seq2.exn Seq2.Ty Seq2.Ty) body :
  existsb (fun term => negb (Seq2.is_const2 term)) body = true ->
  forall tyEnv lastTy lastTy' h,
    Seq2.seq2_loop tc body tyEnv lastTy h = Seq2.seq2_loop tc body tyEnv lastTy' h.
Proof.
  induction body as [|term body IH]; intros Hex tyEnv lastTy lastTy' h;
    [discriminate|].
  destruct term; simpl; try reflexivity.
  simpl in Hex. destruct (tc term tyEnv h) as [[ty|e|] h1]; [|reflexivity..].
  apply IH, Hex.
Qed.

(** X5: a [seq2] is the nesting of [const] and [seq] that its statements
    spell out, with the same outcome and the same heap.  A leading [const2]
    of a name other than [__proto__] is a [const] around the rest of the
    sequence (the [const2] binds with a computed key of an object literal,
    the [const] with an assignment, which for [__proto__] sets the
    prototype); a leading statement that is not a binding is a [seq] before
    the rest, provided the rest has a statement that is not a binding; a
    [seq2] of one such statement is that statement. *)
Theorem seq2_as_const_and_seq :
  (forall name init body tyEnv h,
      name <> "__proto__" ->
      Seq2.typecheck (Seq2.Tseq2 (Seq2.Tconst2 name init :: body)) tyEnv h
      = Seq2.typecheck (Seq2.Tconst name init (Seq2.Tseq2 body)) tyEnv h) /\
  (forall term body tyEnv h,
      Seq2.is_const2 term = false ->
      existsb (fun term => negb (Seq2.is_const2 term)) body = true ->
      Seq2.typecheck (Seq2.Tseq2 (term :: body)) tyEnv h
      = Seq2.typecheck (Seq2.Tseq term (Seq2.Tseq2 body)) tyEnv h) /\
  (forall term tyEnv h,
      Seq2.is_const2 term = false ->
      Seq2.typecheck (Seq2.Tseq2 [term]) tyEnv h = Seq2.typecheck term tyEnv h).
Proof.
  split; [|split..].
  - intros name init body tyEnv h Hname. simpl.
    destruct (Seq2.typecheck init tyEnv h) as [[ty|e|] h1]; [|reflexivity..].
    rewrite store_fresh, assign_copy_insert by exact Hname. reflexivity.
  - intros term body tyEnv h Hterm Hbody.
    change (Seq2.typecheck (Seq2.Tseq term (Seq2.Tseq2 body)) tyEnv h)
      with (match Seq2.typecheck term tyEnv h with
            | (Ok _, h1) => Seq2.seq2_loop Seq2.typecheck body tyEnv Seq2.Null h1
            | (Throw err, h1) => (Throw err, h1)
            | (NotAType, h1) => (NotAType, h1)
            end).
    change (Seq2.typecheck (Seq2.Tseq2 (term :: body)) tyEnv h)
      with (Seq2.seq2_loop Seq2.typecheck (term :: body) tyEnv Seq2.Null h).
    destruct term; try discriminate; cbn [Seq2.seq2_loop];
      match goal with
      | |- context [Seq2.typecheck ?t tyEnv h] =>
          destruct (Seq2.typecheck t tyEnv h) as [[ty|e|] h1]; [|reflexivity..];
          apply seq2_seq2_loop_lastTy, Hbody
      end.
  - intros term tyEnv h Hterm.
    change (Seq2.typecheck (Seq2.Tseq2 [term]) tyEnv h)
      with (Seq2.seq2_loop Seq2.typecheck [term] tyEnv Seq2.Null h).
    destruct term; try discriminate; cbn [Seq2.seq2_loop];
      match goal with
      | |- context [Seq2.typecheck ?t tyEnv h] =>
          destruct (Seq2.typecheck t tyEnv h) as [[ty|e|] h1]; reflexivity
      end.
Qed.

Lemma seq2_as_const_and_seq_witness :
  Seq2.typecheck (Seq2.Tseq2 [Seq2.Tconst2 "x" (Seq2.Tnumber 1); Seq2.Tvar "x"]) 0 [∅]
  = Seq2.typecheck
      (Seq2.Tconst "x" (Seq2.Tnumber 1) (Seq2.Tseq2 [Seq2.Tvar "x"])) 0 [∅] /\
  Seq2.typecheck
    (Seq2.Tseq2 [Seq2.Ttrue; Seq2.Tconst2 "x" (Seq2.Tnumber 1); Seq2.Tvar "x"]) 0 [∅]
  = Seq2.typecheck
      (Seq2.Tseq Seq2.Ttrue
         (Seq2.Tseq2 [Seq2.Tconst2 "x" (Seq2.Tnumber 1); Seq2.Tvar "x"])) 0 [∅] /\
  Seq2.typecheck (Seq2.Tseq2 [Seq2.Tvar "x"]) 0 [∅]
  = Seq2.typecheck (Seq2.Tvar "x") 0 [∅].
Proof.
  destruct seq2_as_const_and_seq as (Hconst & Hseq & Hone).
  refine (conj _ (conj _ _)).
  - apply (Hconst "x" (Seq2.Tnumber 1) [Seq2.Tvar "x"] 0 [∅]). discriminate.
  - apply (Hseq Seq2.Ttrue [Seq2.Tconst2 "x" (Seq2.Tnumber 1); Seq2.Tvar "x"] 0 [∅]);
      reflexivity.
  - apply (Hone (Seq2.Tvar "x") 0 [∅]). reflexivity.
Defined.

(** ** Where null comes from *)

Lemma seq2_null_free_Func params retType :
  Seq2.null_free (Seq2.Func params retType) = true <->
  Forall (fun p => Seq2.null_free p.2 = true) params /\ Seq2.null_free retType = true.
Proof.
  simpl. rewrite andb_true_iff, forallb_forall, Forall_forall.
  split; intros [H1 H2]; (split; [|exact H2..]); intros x Hx; apply H1;
    apply list_elem_of_In; exact Hx.
Qed.

Lemma seq2_params_loop_null_free (eq : Seq2.Ty -> Seq2.Ty -> result Seq2.exn bool)
  (ps2 : list (string * Seq2.Ty)) :
  Forall (fun p2 => forall ty1, Seq2.null_free ty1 = true ->
                                exists b, eq ty1 p2.2 = Ok b) ps2 ->
  forall ps1 : list (string * Seq2.Ty),
    Forall (fun p => Seq2.null_free p.2 = true) ps1 ->
    exists b, Seq2.params_loop eq ps1 ps2 = Ok b.
Proof.
  induction 1 as [|[n2 t2] ps2 Hp2 _ IH]; intros ps1 Hps1; simpl; [eauto|].
  destruct ps1 as [|[n1 t1] ps1]; [eauto|].
  inversion Hps1 as [|? ? Ht1 Hps1']; subst. simpl in *.
  destruct (Hp2 t1 Ht1) as [b ->]. destruct b; simpl; [apply IH, Hps1' | eauto].
Qed.

(** [typeEq] reads [.tag] of [null] only when one of the types holds it. *)
Lemma seq2_typeEq_null_free (ty2 : Seq2.Ty) :
  Seq2.null_free ty2 = true ->
  forall ty1, Seq2.null_free ty1 = true -> exists b, Seq2.typeEq ty1 ty2 = Ok b.
Proof.
  induction ty2 as [ | | |params2 retType2 IHparams IHret] using Seq2.Ty_nested_ind;
    intros H2 ty1 H1.
  - discriminate.
  - destruct ty1; simpl in *; try discriminate; eauto.
  - destruct ty1; simpl in *; try discriminate; eauto.
  - apply seq2_null_free_Func in H2 as [Hps2 Hr2].
    destruct ty1 as [| | |params1 retType1]; simpl; try discriminate; eauto.
    apply seq2_null_free_Func in H1 as [Hps1 Hr1].
    destruct (negb (Nat.eqb (length params1) (length params2))); [eauto|].
    destruct (seq2_params_loop_null_free Seq2.typeEq params2) with (ps1 := params1)
      as [b ->]; [|exact Hps1|].
    { clear -IHparams Hps2. induction IHparams as [|p ps Hp _ IH]; [constructor|].
      inversion Hps2; subst. constructor; auto. }
    destruct b; simpl; [|eauto..].
    destruct (IHret Hr2 retType1 Hr1) as [b ->]. destruct b; simpl; eauto.
Qed.

Lemma seq2_null_free_field (ty : Seq2.Ty) name v :
  Seq2.null_free ty = true -> field ty name = Some (Some v) -> Seq2.null_free v = true.
Proof.
  destruct ty as [| | |params retType]; simpl;
    repeat (destruct (String.eqb _ _)); try discriminate.
  intros Hty [= <-]. apply seq2_null_free_Func in Hty as [_ Hret]. exact Hret.
Qed.

Lemma seq2_heap_null_free_deref h l :
  Seq2.heap_null_free h ->
  env_Forall (fun ty => Seq2.null_free ty = true) (deref h l).
Proof.
  intros Hh. unfold deref. destruct (h !! l) as [obj|] eqn:E; simpl.
  - unfold Seq2.heap_null_free in Hh. rewrite Forall_forall in Hh.
    apply Hh. apply list_elem_of_lookup. eauto.
  - apply env_Forall_empty.
Qed.

Lemma seq2_heap_null_free_alloc h (obj : env Seq2.Ty) :
  Seq2.heap_null_free h ->
  env_Forall (fun ty => Seq2.null_free ty = true) obj ->
  Seq2.heap_null_free (h ++ [obj]).
Proof.
  intros Hh Hobj. apply Forall_app. split; [exact Hh|]. constructor; [exact Hobj|constructor].
Qed.

Lemma seq2_args_loop_no_null tyEnv args :
  Forall (fun arg =>
            forall l h, Seq2.heap_null_free h ->
                        Seq2.heap_null_free (Seq2.typecheck arg l h).2 /\
                        Seq2.no_null (Seq2.typecheck arg l h).1) args ->
  forall params h,
    Forall (fun p => Seq2.null_free p.2 = true) params ->
    Seq2.heap_null_free h ->
    Seq2.heap_null_free (Seq2.args_loop Seq2.typecheck tyEnv args params h).2 /\
    match (Seq2.args_loop Seq2.typecheck tyEnv args params h).1 with
    | Ok _ => True
    | Throw e => e <> Seq2.TypeError
    | NotAType => True
    end.
Proof.
  induction 1 as [|arg args Harg _ IH]; intros params h Hps Hh; simpl; [auto|].
  destruct (Harg tyEnv h Hh) as [Hh1 Hr1].
  destruct (Seq2.typecheck arg tyEnv h) as [[argTy|e|] h1]; simpl in *; [|auto..].
  destruct params as [|[n type] params]; simpl; [auto|].
  inversion Hps as [|? ? Htype Hps']; subst. simpl in Htype.
  unfold pure. destruct (seq2_typeEq_null_free type Htype argTy Hr1) as [b ->].
  destruct b; simpl; [apply IH; assumption|]. split; [exact Hh1 | discriminate].
Qed.

Lemma seq2_seq2_loop_no_null body :
  Forall (fun term =>
            match term with
            | Seq2.Tconst2 _ init =>
                forall l h, Seq2.heap_null_free h ->
                            Seq2.heap_null_free (Seq2.typecheck init l h).2 /\
                            Seq2.no_null (Seq2.typecheck init l h).1
            | _ =>
                forall l h, Seq2.heap_null_free h ->
                            Seq2.heap_null_free (Seq2.typecheck term l h).2 /\
                            Seq2.no_null (Seq2.typecheck term l h).1
            end) body ->
  forall tyEnv lastTy h,
    Seq2.heap_null_free h ->
    Seq2.null_free lastTy = true \/
    existsb (fun term => negb (Seq2.is_const2 term)) body = true ->
    Seq2.heap_null_free (Seq2.seq2_loop Seq2.typecheck body tyEnv lastTy h).2 /\
    Seq2.no_null (Seq2.seq2_loop Seq2.typecheck body tyEnv lastTy h).1.
Proof.
  induction 1 as [|term body Hterm _ IH]; intros tyEnv lastTy h Hh Hlast.
  - simpl. split; [exact Hh|]. destruct Hlast as [H|H]; [exact H | discriminate].
  - destruct term; cbn [Seq2.seq2_loop];
      try (destruct (Hterm tyEnv h Hh) as [Hh1 Hr1];
           match goal with
           | |- context [Seq2.typecheck ?t tyEnv h] =>
               destruct (Seq2.typecheck t tyEnv h) as [[ty|e|] h1]
           end; simpl in Hh1, Hr1; [apply IH; [exact Hh1 | left; exact Hr1] | auto..]).
    destruct (Hterm tyEnv h Hh) as [Hh1 Hr1].
    destruct (Seq2.typecheck term tyEnv h) as [[ty|e|] h1]; simpl in Hh1, Hr1; [|auto..].
    cbn [alloc]. apply IH.
    + apply seq2_heap_null_free_alloc; [exact Hh1|].
      apply env_Forall_insert; [exact Hr1 | apply seq2_heap_null_free_deref, Hh1].
    + destruct Hlast as [H|H]; [left; exact H | right; exact H].
Qed.

Lemma seq2_typecheck_no_null (t : Seq2.Term) :
  Seq2.has_result t = true ->
  forall tyEnv h,
    Seq2.heap_null_free h ->
    Seq2.heap_null_free (Seq2.typecheck t tyEnv h).2 /\
    Seq2.no_null (Seq2.typecheck t tyEnv h).1.
Proof.
  induction t as [| |cond thn els IHc IHt IHe| |l r IHl IHr| |params body IHb
                 |func args IHf IHargs|body rest IHb IHr|name init rest IHi IHr
                 |body IHbody|name init IHi] using Seq2.Term_nested_ind;
    intros Hwf tyEnv h Hh; simpl in Hwf |- *; auto.
  - apply andb_true_iff in Hwf as [Hwf Hwfe]. apply andb_true_iff in Hwf as [Hwfc Hwft].
    destruct (IHc Hwfc tyEnv h Hh) as [Hh1 Hr1].
    destruct (Seq2.typecheck cond tyEnv h) as [[condTy|e|] h1]; simpl in *; [|auto..].
    unfold pure. destruct condTy; try discriminate; simpl;
      try (split; [exact Hh1 | discriminate]).
    destruct (IHt Hwft tyEnv h1 Hh1) as [Hh2 Hr2].
    destruct (Seq2.typecheck thn tyEnv h1) as [[thnTy|e|] h2]; simpl in *; [|auto..].
    destruct (IHe Hwfe tyEnv h2 Hh2) as [Hh3 Hr3].
    destruct (Seq2.typecheck els tyEnv h2) as [[elsTy|e|] h3]; simpl in *; [|auto..].
    destruct (seq2_typeEq_null_free elsTy Hr3 thnTy Hr2) as [b ->].
    destruct b; simpl; [auto|]. split; [exact Hh3 | discriminate].
  - apply andb_true_iff in Hwf as [Hwfl Hwfr].
    destruct (IHl Hwfl tyEnv h Hh) as [Hh1 Hr1].
    destruct (Seq2.typecheck l tyEnv h) as [[leftTy|e|] h1]; simpl in *; [|auto..].
    unfold pure. destruct leftTy; try discriminate; simpl;
      try (split; [exact Hh1 | discriminate]).
    destruct (IHr Hwfr tyEnv h1 Hh1) as [Hh2 Hr2].
    destruct (Seq2.typecheck r tyEnv h1) as [[rightTy|e|] h2]; simpl in *; [|auto..].
    destruct rightTy; try discriminate; simpl;
      try (split; [exact Hh2 | discriminate]); auto.
  - pose proof (seq2_heap_null_free_deref h tyEnv Hh) as Henv.
    destruct (get (deref h tyEnv) name) as [ty| |] eqn:E; simpl.
    + split; [exact Hh|].
      exact (env_Forall_get _ _ name ty seq2_null_free_field Henv E).
    + split; [exact Hh | exact I].
    + split; [exact Hh | discriminate].
  - apply andb_true_iff in Hwf as [Hps Hwfb].
    assert (Forall (fun p : string * Seq2.Ty => Seq2.null_free p.2 = true) params) as Hps'.
    { apply Forall_forall. intros p Hin. rewrite forallb_forall in Hps.
      apply Hps, list_elem_of_In, Hin. }
    rewrite store_params_fresh.
    assert (Seq2.heap_null_free (h ++ [assign_params (copy (deref h tyEnv)) params])) as Hh0.
    { apply seq2_heap_null_free_alloc; [exact Hh|].
      apply env_Forall_assign_params; [exact Hps'|].
      apply env_Forall_copy, seq2_heap_null_free_deref, Hh. }
    destruct (IHb Hwfb (length h) _ Hh0) as [Hh1 Hr1].
    destruct (Seq2.typecheck body (length h) _) as [[retType|e|] h1]; simpl in *; [|auto..].
    split; [exact Hh1|]. rewrite Hr1, andb_true_r. exact Hps.
  - apply andb_true_iff in Hwf as [Hwff Hwfa].
    destruct (IHf Hwff tyEnv h Hh) as [Hh1 Hr1].
    destruct (Seq2.typecheck func tyEnv h) as [[funcTy|e|] h1]; simpl in *; [|auto..].
    unfold pure. destruct funcTy as [| | |params retType]; try discriminate; simpl;
      try (split; [exact Hh1 | discriminate]).
    apply seq2_null_free_Func in Hr1 as [Hps Hret].
    destruct (Nat.eqb (length params) (length args)); simpl;
      [|split; [exact Hh1 | discriminate]].
    assert (Forall (fun arg =>
                      forall l h, Seq2.heap_null_free h ->
                                  Seq2.heap_null_free (Seq2.typecheck arg l h).2 /\
                                  Seq2.no_null (Seq2.typecheck arg l h).1) args) as Hargs.
    { rewrite Forall_forall in IHargs |- *. intros arg Hin.
      apply IHargs; [exact Hin|]. rewrite forallb_forall in Hwfa.
      apply Hwfa, list_elem_of_In, Hin. }
    destruct (seq2_args_loop_no_null tyEnv args Hargs params h1 Hps Hh1) as [Hh2 Hr2].
    destruct (Seq2.args_loop Seq2.typecheck tyEnv args params h1) as [[u|e|] h2];
      simpl in *; auto.
  - apply andb_true_iff in Hwf as [Hwfb Hwfr].
    destruct (IHb Hwfb tyEnv h Hh) as [Hh1 Hr1].
    destruct (Seq2.typecheck body tyEnv h) as [[ty|e|] h1]; simpl in *; [|auto..].
    apply IHr; assumption.
  - apply andb_true_iff in Hwf as [Hwfi Hwfr].
    destruct (IHi Hwfi tyEnv h Hh) as [Hh1 Hr1].
    destruct (Seq2.typecheck init tyEnv h) as [[ty|e|] h1]; simpl in *; [|auto..].
    rewrite store_fresh. apply IHr; [exact Hwfr|].
    apply seq2_heap_null_free_alloc; [exact Hh1|].
    apply env_Forall_assign; [exact Hr1|].
    apply env_Forall_copy, seq2_heap_null_free_deref, Hh1.
  - apply andb_true_iff in Hwf as [Hex Hall].
    apply seq2_seq2_loop_no_null; [|exact Hh | right; exact Hex].
    rewrite Forall_forall in IHbody |- *. intros term Hin.
    rewrite forallb_forall in Hall.
    pose proof (Hall term (proj1 (list_elem_of_In _ _) Hin)) as Hterm.
    destruct (IHbody term Hin) as [IHterm IHinit].
    destruct term; auto.
Qed.

(** X6: [null] and the [TypeError] of reading its tag have one source, a
    [seq2] without a statement that is not a binding.  When every [seq2] of
    a term has such a statement, and neither the declared parameter types
    nor the environments of the heap (their own properties and a type set
    as their prototype) hold [null], a call of [typecheck] that returns a
    type returns one without [null], a call that throws throws one of the
    checker's own errors, and the environments of the heap still hold no
    [null]; the third outcome is a variable that read a value which is not
    a type, a property inherited from [Object.prototype]. *)
Theorem seq2_typecheck_null_free :
  forall t tyEnv h,
    Seq2.has_result t = true ->
    Seq2.heap_null_free h ->
    Seq2.heap_null_free (Seq2.typecheck t tyEnv h).2 /\
    match (Seq2.typecheck t tyEnv h).1 with
    | Ok ty => Seq2.null_free ty = true
    | Throw e => e <> Seq2.TypeError
    | NotAType => True
    end.
Proof. intros t tyEnv h Hwf Hh. apply seq2_typecheck_no_null; assumption. Qed.

Lemma seq2_typecheck_null_free_witness :
  match (Seq2.typecheck
           (Seq2.Tseq2 [Seq2.Tconst2 "x" (Seq2.Tnumber 1);
                        Seq2.Tadd (Seq2.Tvar "x") (Seq2.Tvar "x")]) 0 [∅]).1 with
  | Ok ty => Seq2.null_free ty = true
  | Throw e => e <> Seq2.TypeError
  | NotAType => True
  end.
Proof.
  refine (proj2 (seq2_typecheck_null_free
                   (Seq2.Tseq2 [Seq2.Tconst2 "x" (Seq2.Tnumber 1);
                                Seq2.Tadd (Seq2.Tvar "x") (Seq2.Tvar "x")]) 0 [∅]
                   eq_refl _)).
  constructor; [apply env_Forall_empty | constructor].
Defined.

(** ** Types the checker of obj.ts builds *)

Lemma obj_props_map_inv (tc : Obj.Term -> result Obj.exn Obj.Ty)
  (props : list (string * Obj.Term)) :
  forall ptys,
    Obj.props_map tc props = Ok ptys ->
    ptys.*1 = props.*1 /\ Forall2 (fun prop pty => tc prop.2 = Ok pty.2) props ptys.
Proof.
  induction props as [|[name term] props IH]; intros ptys H; simpl in H.
  - injection H as <-. split; [reflexivity | constructor].
  - destruct (tc term) as [type| |] eqn:Hterm; [|discriminate..].
    destruct (Obj.props_map tc props) as [rest| |] eqn:Hrest; [|discriminate..].
    injection H as <-. destruct (IH rest eq_refl) as [Hnames Hall].
    split; [simpl; f_equal; exact Hnames | constructor; assumption].
Qed.

Lemma obj_unique_names_field (ty : Obj.Ty) name v :
  Obj.unique_names ty = true -> field ty name = Some (Some v) -> Obj.unique_names v = true.
Proof.
  destruct ty as [| |params retType|props]; simpl;
    repeat (destruct (String.eqb _ _)); try discriminate.
  intros Hty [= <-]. apply ObjFacts.obj_unique_names_Func in Hty as [_ Hret]. exact Hret.
Qed.

Lemma obj_extend_unique_names (params : list (string * Obj.Ty)) :
  Forall (fun p => Obj.unique_names p.2 = true) params ->
  forall tyEnv : env Obj.Ty,
    env_Forall (fun ty => Obj.unique_names ty = true) tyEnv ->
    env_Forall (fun ty => Obj.unique_names ty = true) (Obj.extend tyEnv params).
Proof.
  intros Hps tyEnv Henv. unfold Obj.extend.
  apply env_Forall_assign_params; [exact Hps | apply env_Forall_copy, Henv].
Qed.

(** X7: the checker of obj.ts builds an [Object] type with a repeated
    property name only from an object literal that repeats a name.  When
    every object literal of the term names each property once, and so do
    the declared parameter types and the types of the environment (its own
    properties and a type set as its prototype), the type of the term names
    each property once at every depth; it is then [typeEq] to itself. *)
Theorem obj_typecheck_unique_names :
  forall t tyEnv ty,
    Obj.props_named_once t = true ->
    env_Forall (fun ty => Obj.unique_names ty = true) tyEnv ->
    Obj.typecheck t tyEnv = Ok ty ->
    Obj.unique_names ty = true /\ Obj.typeEq ty ty = true.
Proof.
  intros t tyEnv ty Hwf Henv Hty.
  cut (Obj.unique_names ty = true).
  { intros H. split; [exact H | apply ObjFacts.obj_typeEq_refl, H]. }
  revert tyEnv ty Hwf Henv Hty.
  induction t as [| |cond thn els IHc IHt IHe| |l r IHl IHr| |params body IHb
                 |func args IHf IHargs|body rest IHb IHr|name init rest IHi IHr
                 |props IHprops|obj propName IHo] using Obj.Term_nested_ind;
    intros tyEnv ty Hwf Henv H; simpl in Hwf, H.
  - injection H as <-. reflexivity.
  - injection H as <-. reflexivity.
  - apply andb_true_iff in Hwf as [Hwf Hwfe]. apply andb_true_iff in Hwf as [Hwfc Hwft].
    destruct (Obj.typecheck cond tyEnv) as [condTy| |]; [|discriminate..].
    destruct (Obj.is_Boolean condTy); simpl in H; [|discriminate..].
    destruct (Obj.typecheck thn tyEnv) as [thnTy| |] eqn:Ht; [|discriminate..].
    destruct (Obj.typecheck els tyEnv) as [elsTy| |]; [|discriminate..].
    destruct (Obj.typeEq thnTy elsTy); simpl in H; [|discriminate..].
    injection H as <-. exact (IHt _ _ Hwft Henv Ht).
  - injection H as <-. reflexivity.
  - destruct (Obj.typecheck l tyEnv) as [leftTy| |]; [|discriminate..].
    destruct (Obj.is_Number leftTy); simpl in H; [|discriminate..].
    destruct (Obj.typecheck r tyEnv) as [rightTy| |]; [|discriminate..].
    destruct (Obj.is_Number rightTy); simpl in H; [|discriminate..].
    injection H as <-. reflexivity.
  - destruct (get tyEnv name) as [ty'| |] eqn:E; [|discriminate..].
    injection H as <-. exact (env_Forall_get _ _ name ty' obj_unique_names_field Henv E).
  - apply andb_true_iff in Hwf as [Hps Hwfb].
    destruct (Obj.typecheck body (Obj.extend tyEnv params)) as [retType| |] eqn:Hb;
      [|discriminate..].
    injection H as <-. simpl. rewrite Hps. simpl.
    apply (IHb _ _ Hwfb) in Hb; [exact Hb|].
    apply obj_extend_unique_names; [|exact Henv..].
    apply Forall_forall. intros p Hin. rewrite forallb_forall in Hps.
    apply Hps, list_elem_of_In, Hin.
  - apply andb_true_iff in Hwf as [Hwff Hwfa].
    destruct (Obj.typecheck func tyEnv) as [funcTy| |] eqn:Hf; [|discriminate..].
    destruct funcTy as [| |params retType|]; try discriminate.
    destruct (Nat.eqb (length params) (length args)); simpl in H; [|discriminate..].
    destruct (Obj.args_loop _ _ args params); [|discriminate..].
    injection H as <-.
    apply (IHf _ _ Hwff Henv) in Hf.
    apply ObjFacts.obj_unique_names_Func in Hf as [_ Hret]. exact Hret.
  - apply andb_true_iff in Hwf as [Hwfb Hwfr].
    destruct (Obj.typecheck body tyEnv); [|discriminate..].
    exact (IHr _ _ Hwfr Henv H).
  - apply andb_true_iff in Hwf as [Hwfi Hwfr].
    destruct (Obj.typecheck init tyEnv) as [ty'| |] eqn:Hi; [|discriminate..].
    apply (IHr _ _ Hwfr) in H; [exact H|].
    apply env_Forall_assign; [exact (IHi _ _ Hwfi Henv Hi) | apply env_Forall_copy, Henv].
  - apply andb_true_iff in Hwf as [Hnd Hall].
    destruct (Obj.props_map (fun term => Obj.typecheck term tyEnv) props) as [ptys| |] eqn:Hmap;
      [|discriminate..].
    injection H as <-.
    apply obj_props_map_inv in Hmap as [Hnames Htys].
    apply ObjFacts.obj_unique_names_Object. split.
    + rewrite Hnames. apply bool_decide_eq_true in Hnd. exact Hnd.
    + rewrite forallb_forall in Hall.
      clear -Htys IHprops Hall Henv.
      induction Htys as [|prop pty props ptys Hp _ IH]; [constructor|].
      inversion IHprops as [|? ? IHprop IHprops']; subst.
      constructor.
      * apply (IHprop tyEnv); [apply Hall; left; reflexivity | exact Henv | exact Hp].
      * apply IH; [exact IHprops'|]. intros x Hx. apply Hall. right. exact Hx.
  - destruct (Obj.typecheck obj tyEnv) as [objectTy| |] eqn:Ho; [|discriminate..].
    destruct objectTy as [| | |props]; try discriminate.
    destruct (Obj.find_prop props propName) as [prop|] eqn:Hfind; [|discriminate..].
    injection H as <-.
    apply (IHo _ _ Hwf Henv) in Ho.
    apply ObjFacts.obj_unique_names_Object in Ho as [_ Hps].
    apply ObjFacts.obj_find_prop_Some in Hfind as [Hin _].
    rewrite Forall_forall in Hps. exact (Hps prop Hin).
Qed.

Lemma obj_typecheck_unique_names_witness :
  Obj.unique_names (Obj.Object [("foo", Obj.Number); ("bar", Obj.Boolean)]) = true /\
  Obj.typeEq (Obj.Object [("foo", Obj.Number); ("bar", Obj.Boolean)])
             (Obj.Object [("foo", Obj.Number); ("bar", Obj.Boolean)]) = true.
Proof.
  apply (obj_typecheck_unique_names
           (Obj.TobjectNew [("foo", Obj.Tnumber 1); ("bar", Obj.Ttrue)]) ∅
           (Obj.Object [("foo", Obj.Number); ("bar", Obj.Boolean)])).
  - vm_compute. reflexivity.
  - apply env_Forall_empty.
  - reflexivity.
Defined.

(** ** The environment matters at the free variables only *)

Lemma obj_args_loop_ext (tc1 tc2 : Obj.Term -> result Obj.exn Obj.Ty) t args :
  Forall (fun arg => tc1 arg = tc2 arg) args ->
  forall params, Obj.args_loop tc1 t args params = Obj.args_loop tc2 t args params.
Proof.
  induction 1 as [|arg args Harg _ IH]; intros params; simpl; [reflexivity|].
  rewrite Harg. destruct (tc2 arg); [|reflexivity..].
  destruct params as [|[n type] params]; [reflexivity|]. rewrite IH. reflexivity.
Qed.

Lemma obj_props_map_ext (tc1 tc2 : Obj.Term -> result Obj.exn Obj.Ty)
  (props : list (string * Obj.Term)) :
  Forall (fun prop => tc1 prop.2 = tc2 prop.2) props ->
  Obj.props_map tc1 props = Obj.props_map tc2 props.
Proof.
  induction 1 as [|[name term] props Hp _ IH]; simpl; [reflexivity|].
  simpl in Hp. rewrite Hp, IH. reflexivity.
Qed.

Local Ltac agree_on Hagree :=
  let x := fresh "x" in
  let Hx := fresh "Hx" in
  intros x [Hx|Hx]; apply Hagree; [left; set_solver | right; exact Hx].

(** X8: the outcome of [typecheck] in obj.ts, the error included, depends
    on the environment only through its prototype and its own properties
    at the variables that occur free in the term and at [__proto__] (the
    own property that decides whether an assignment to [__proto__] sets
    the prototype): two environments that agree on these give the same
    outcome. *)
Theorem obj_typecheck_free_variables :
  forall t (tyEnv1 tyEnv2 : env Obj.Ty),
    proto tyEnv1 = proto tyEnv2 ->
    (forall x, x ∈ Obj.fv t \/ x = "__proto__" -> own tyEnv1 !! x = own tyEnv2 !! x) ->
    Obj.typecheck t tyEnv1 = Obj.typecheck t tyEnv2.
Proof.
  induction t as [| |cond thn els IHc IHt IHe| |l r IHl IHr| |params body IHb
                 |func args IHf IHargs|body rest IHb IHr|name init rest IHi IHr
                 |props IHprops|obj propName IHo] using Obj.Term_nested_ind;
    intros tyEnv1 tyEnv2 Hproto Hagree; simpl in Hagree |- *; try reflexivity.
  - rewrite (IHc tyEnv1 tyEnv2), (IHt tyEnv1 tyEnv2), (IHe tyEnv1 tyEnv2);
      [reflexivity | try exact Hproto; agree_on Hagree..].
  - rewrite (IHl tyEnv1 tyEnv2), (IHr tyEnv1 tyEnv2);
      [reflexivity | try exact Hproto; agree_on Hagree..].
  - unfold get. rewrite (Hagree name), Hproto by (left; set_solver). reflexivity.
  - destruct (assign_params_agree params (copy tyEnv1) (copy tyEnv2) eq_refl)
      as [Hproto' Hown'].
    { apply Hagree. right. reflexivity. }
    rewrite (IHb (Obj.extend tyEnv1 params) (Obj.extend tyEnv2 params));
      [reflexivity | exact Hproto' |].
    intros x Hx. apply Hown'. intros Hnotin. apply Hagree.
    destruct Hx as [Hx|Hx]; [left | right; exact Hx].
    apply elem_of_difference. split; [exact Hx|].
    rewrite elem_of_list_to_set. exact Hnotin.
  - rewrite (IHf tyEnv1 tyEnv2)
      by (try exact Hproto; agree_on Hagree).
    destruct (Obj.typecheck func tyEnv2) as [funcTy| |]; [|reflexivity..].
    destruct funcTy as [| |params retType|]; try reflexivity.
    destruct (Nat.eqb (length params) (length args)); simpl; [|reflexivity..].
    rewrite (obj_args_loop_ext (fun arg => Obj.typecheck arg tyEnv1)
               (fun arg => Obj.typecheck arg tyEnv2)); [reflexivity|].
    rewrite Forall_forall in IHargs |- *. intros arg Hin.
    apply IHargs; [exact Hin | exact Hproto |]. intros x Hx. apply Hagree.
    destruct Hx as [Hx|Hx]; [left | right; exact Hx].
    apply elem_of_union_r, elem_of_union_list. exists (Obj.fv arg).
    split; [|exact Hx..]. apply list_elem_of_fmap. eauto.
  - rewrite (IHb tyEnv1 tyEnv2), (IHr tyEnv1 tyEnv2);
      [reflexivity | try exact Hproto; agree_on Hagree..].
  - rewrite (IHi tyEnv1 tyEnv2)
      by (try exact Hproto; agree_on Hagree).
    destruct (Obj.typecheck init tyEnv2) as [ty| |]; [|reflexivity..].
    assert (own (copy tyEnv1) !! "__proto__" = own (copy tyEnv2) !! "__proto__") as Hown
        by (apply Hagree; right; reflexivity).
    apply IHr; [apply assign_proto_agree; [reflexivity | exact Hown]|].
    intros x Hx. apply assign_own_agree; [reflexivity | exact Hown |].
    intros Hne. apply Hagree. destruct Hx as [Hx|Hx]; [left; set_solver | right; exact Hx].
  - rewrite (obj_props_map_ext (fun term => Obj.typecheck term tyEnv1)
               (fun term => Obj.typecheck term tyEnv2)); [reflexivity|].
    rewrite Forall_forall in IHprops |- *. intros prop Hin.
    apply IHprops; [exact Hin | exact Hproto |]. intros x Hx. apply Hagree.
    destruct Hx as [Hx|Hx]; [left | right; exact Hx].
    apply elem_of_union_list. exists (Obj.fv prop.2).
    split; [|exact Hx..]. apply list_elem_of_fmap. exists prop. auto.
  - rewrite (IHo tyEnv1 tyEnv2) by assumption. reflexivity.
Qed.

Lemma obj_typecheck_free_variables_witness :
  Obj.typecheck (Obj.Tfunc [("x", Obj.Number)] (Obj.Tadd (Obj.Tvar "x") (Obj.Tvar "y")))
    {["x" := Obj.Boolean; "y" := Obj.Number]}
  = Obj.typecheck (Obj.Tfunc [("x", Obj.Number)] (Obj.Tadd (Obj.Tvar "x") (Obj.Tvar "y")))
      {["y" := Obj.Number]}.
Proof.
  apply obj_typecheck_free_variables; [reflexivity|]. intros x [Hx | ->]; [|reflexivity].
  change (Obj.fv _)
    with (({["x"]} ∪ {["y"]}) ∖ (list_to_set ["x"] : gset string)) in Hx.
  apply elem_of_difference in Hx as [Hin Hnotin].
  apply elem_of_union in Hin as [Hin|Hin]; apply elem_of_singleton in Hin; subst.
  - destruct Hnotin. apply elem_of_list_to_set. left.
  - reflexivity.
Defined.

(** ** const, var and call in obj.ts *)

(** X9: in obj.ts, [const x = init; x] has the outcome of [init] when that
    is a type or an error (a value that is not a type, assigned to
    [__proto__], need not be read back), and a [const] is the call of a
    function literal: when [init] has the type [ty] and [ty] is [typeEq] to
    itself, [const x = init; rest] has the outcome of
    [((x: ty) => rest)(init)]. *)
Theorem obj_const_as_call :
  (forall name init tyEnv,
      Obj.typecheck init tyEnv <> NotAType ->
      Obj.typecheck (Obj.Tconst name init (Obj.Tvar name)) tyEnv
      = Obj.typecheck init tyEnv) /\
  (forall name init rest tyEnv ty,
      Obj.typecheck init tyEnv = Ok ty ->
      Obj.typeEq ty ty = true ->
      Obj.typecheck (Obj.Tcall (Obj.Tfunc [(name, ty)] rest) [init]) tyEnv
      = Obj.typecheck (Obj.Tconst name init rest) tyEnv).
Proof.
  split.
  - intros name init tyEnv Htype. simpl.
    destruct (Obj.typecheck init tyEnv) as [ty| |]; [|reflexivity..].
    rewrite get_assign_eq; [reflexivity | right; reflexivity | apply ObjFacts.obj_field_proto].
  - intros name init rest tyEnv ty Hinit Hrefl. simpl. rewrite Hinit.
    unfold Obj.extend, assign_params. simpl.
    destruct (Obj.typecheck rest (assign (copy tyEnv) name ty)) as [retType| |];
      [|reflexivity..].
    simpl. rewrite Hrefl. reflexivity.
Qed.

Lemma obj_const_as_call_witness :
  Obj.typecheck (Obj.Tconst "x" (Obj.Tnumber 1) (Obj.Tvar "x")) ∅
  = Obj.typecheck (Obj.Tnumber 1) ∅ /\
  Obj.typecheck
    (Obj.Tcall (Obj.Tfunc [("x", Obj.Number)] (Obj.Tadd (Obj.Tvar "x") (Obj.Tvar "x")))
       [Obj.Tnumber 1]) ∅
  = Obj.typecheck
      (Obj.Tconst "x" (Obj.Tnumber 1) (Obj.Tadd (Obj.Tvar "x") (Obj.Tvar "x"))) ∅.
Proof.
  destruct obj_const_as_call as [Hvar Hcall].
  refine (conj _ _).
  - apply (Hvar "x" (Obj.Tnumber 1) ∅). discriminate.
  - apply (Hcall "x" (Obj.Tnumber 1) (Obj.Tadd (Obj.Tvar "x") (Obj.Tvar "x")) ∅ Obj.Number);
      reflexivity.
Defined.

(** ** objectGet *)

(** X10: the [objectGet] rule of obj.ts.  When [obj] has a type that is not
    an [Object] type the check fails with "object type expected"; when it
    is an [Object] type without a property of the name it fails with
    "unknown property", and so does reading from an object literal a name
    that the literal does not list; when the name is there the result is
    the type of the first property of that name.  The errors carry the
    [objectGet] term. *)
Theorem obj_objectGet_rule :
  (forall obj propName tyEnv objectTy,
      Obj.typecheck obj tyEnv = Ok objectTy ->
      ((forall props, objectTy <> Obj.Object props) ->
       Obj.typecheck (Obj.TobjectGet obj propName) tyEnv
       = Throw (Obj.ErrorAt "object type expected" (Obj.TobjectGet obj propName))) /\
      (forall props,
          objectTy = Obj.Object props ->
          (propName ∉ props.*1 ->
           Obj.typecheck (Obj.TobjectGet obj propName) tyEnv
           = Throw (Obj.ErrorAt ("unknown property: " +:+ propName)
                      (Obj.TobjectGet obj propName))) /\
          (forall ps1 ty ps2,
              props = ps1 ++ (propName, ty) :: ps2 -> propName ∉ ps1.*1 ->
              Obj.typecheck (Obj.TobjectGet obj propName) tyEnv = Ok ty))) /\
  (forall (props : list (string * Obj.Term)) propName tyEnv tys,
      Forall2 (fun prop ty => Obj.typecheck prop.2 tyEnv = Ok ty) props tys ->
      propName ∉ props.*1 ->
      Obj.typecheck (Obj.TobjectGet (Obj.TobjectNew props) propName) tyEnv
      = Throw (Obj.ErrorAt ("unknown property: " +:+ propName)
                 (Obj.TobjectGet (Obj.TobjectNew props) propName))).
Proof.
  assert (Hget : forall obj propName tyEnv props,
             Obj.typecheck obj tyEnv = Ok (Obj.Object props) ->
             propName ∉ props.*1 ->
             Obj.typecheck (Obj.TobjectGet obj propName) tyEnv
             = Throw (Obj.ErrorAt ("unknown property: " +:+ propName)
                        (Obj.TobjectGet obj propName))).
  { intros obj propName tyEnv props Hobj Hnotin.
    change (Obj.typecheck (Obj.TobjectGet obj propName) tyEnv)
      with (match Obj.typecheck obj tyEnv with
            | Ok objectTy =>
                match objectTy with
                | Obj.Object props =>
                    match Obj.find_prop props propName with
                    | None =>
                        Obj.error ("unknown property: " +:+ propName)
                          (Some (Obj.TobjectGet obj propName))
                    | Some prop => Ok prop.2
                    end
                | _ => Obj.error "object type expected" (Some (Obj.TobjectGet obj propName))
                end
            | Throw err => Throw err
            | NotAType => NotAType
            end).
    rewrite Hobj.
    apply ObjFacts.obj_find_prop_None in Hnotin. rewrite Hnotin. reflexivity. }
  split.
  - intros obj propName tyEnv objectTy Hobj. split.
    + intros Hnot. simpl. rewrite Hobj.
      destruct objectTy as [| | |props]; try reflexivity. destruct (Hnot props). reflexivity.
    + intros props ->. split; [apply Hget, Hobj|].
      intros ps1 ty ps2 -> Hfirst. simpl. rewrite Hobj.
      rewrite ObjFacts.obj_find_prop_first by exact Hfirst. reflexivity.
  - intros props propName tyEnv tys Hprops Hnotin.
    apply (Hget _ _ _ (zip props.*1 tys)).
    + simpl. rewrite (ObjFacts.obj_props_map_ok _ props tys Hprops). reflexivity.
    + rewrite fst_zip; [exact Hnotin|].
      rewrite length_fmap. apply Forall2_length in Hprops. lia.
Qed.

Lemma obj_objectGet_rule_witness :
  Obj.typecheck (Obj.TobjectGet (Obj.Tnumber 1) "foo") ∅
  = Throw (Obj.ErrorAt "object type expected" (Obj.TobjectGet (Obj.Tnumber 1) "foo")) /\
  Obj.typecheck
    (Obj.TobjectGet (Obj.TobjectNew [("foo", Obj.Tnumber 1); ("bar", Obj.Ttrue)]) "baz") ∅
  = Throw (Obj.ErrorAt "unknown property: baz"
             (Obj.TobjectGet
                (Obj.TobjectNew [("foo", Obj.Tnumber 1); ("bar", Obj.Ttrue)]) "baz")) /\
  Obj.typecheck
    (Obj.TobjectGet (Obj.TobjectNew [("foo", Obj.Tnumber 1); ("bar", Obj.Ttrue)]) "bar") ∅
  = Ok Obj.Boolean.
Proof.
  destruct obj_objectGet_rule as [Hrule Hlit].
  refine (conj _ (conj _ _)).
  - apply (proj1 (Hrule (Obj.Tnumber 1) "foo" ∅ Obj.Number eq_refl)).
    intros props. discriminate.
  - apply (Hlit [("foo", Obj.Tnumber 1); ("bar", Obj.Ttrue)] "baz" ∅
             [Obj.Number; Obj.Boolean]).
    + constructor; [reflexivity|]. constructor; [reflexivity | constructor].
    + simpl. intros Hin.
      apply elem_of_cons in Hin as [Hin|Hin]; [discriminate|].
      apply elem_of_cons in Hin as [Hin|Hin]; [discriminate|].
      apply elem_of_nil in Hin. exact Hin.
  - refine (proj2 (proj2 (Hrule (Obj.TobjectNew [("foo", Obj.Tnumber 1); ("bar", Obj.Ttrue)])
                            "bar" ∅ (Obj.Object [("foo", Obj.Number); ("bar", Obj.Boolean)])
                            eq_refl) _ eq_refl)
              [("foo", Obj.Number)] Obj.Boolean [] eq_refl _).
    simpl. intros Hin.
    apply elem_of_cons in Hin as [Hin|Hin]; [discriminate|].
    apply elem_of_nil in Hin. exact Hin.
Defined.

(** ** From one program to the next *)

(** X11: basic.ts agrees with arith.ts on the terms of arith.ts, in every
    environment: a term that arith.ts gives a type has the same type in
    basic.ts, and a term that arith.ts rejects is rejected by basic.ts with
    the same thrown string, but for the message about the branches of an
    [if], which basic.ts words differently. *)
Theorem basic_extends_arith :
  forall (t : Arith.Term) (tyEnv : env Basic.Ty),
    match Arith.typecheck t with
    | Ok ty => Basic.typecheck (Basic.of_arith t) tyEnv = Ok (Basic.of_arith_ty ty)
    | Throw s =>
        Basic.typecheck (Basic.of_arith t) tyEnv
        = Throw (Basic.ThrowString
                   (if String.eqb s "then and else have different types"
                    then "then and else must have the same type"
                    else s))
    | NotAType => False
    end.
Proof.
  induction t as [| |cond IHc thn IHt els IHe| |l IHl r IHr]; intros tyEnv; simpl;
    try reflexivity.
  - specialize (IHc tyEnv). specialize (IHt tyEnv). specialize (IHe tyEnv).
    destruct (Arith.typecheck cond) as [condTy|s|]; [rewrite IHc | rewrite IHc | exact IHc];
      [|reflexivity].
    destruct condTy; simpl; [|reflexivity].
    destruct (Arith.typecheck thn) as [thnTy|s|]; [rewrite IHt | rewrite IHt | exact IHt];
      [|reflexivity].
    destruct (Arith.typecheck els) as [elsTy|s|]; [rewrite IHe | rewrite IHe | exact IHe];
      [|reflexivity].
    destruct thnTy, elsTy; reflexivity.
  - specialize (IHl tyEnv). specialize (IHr tyEnv).
    destruct (Arith.typecheck l) as [leftTy|s|]; [rewrite IHl | rewrite IHl | exact IHl];
      [|reflexivity].
    destruct leftTy; simpl; [reflexivity|].
    destruct (Arith.typecheck r) as [rightTy|s|]; [rewrite IHr | rewrite IHr | exact IHr];
      [|reflexivity].
    destruct rightTy; reflexivity.
Qed.

Lemma obj_typeEq_of_basic (ty2 : Basic.Ty) :
  forall ty1,
    Obj.typeEq (Obj.of_basic_ty ty1) (Obj.of_basic_ty ty2) = Basic.typeEq ty1 ty2.
Proof.
  induction ty2 as [| |params2 retType2 IHparams IHret] using Basic.Ty_nested_ind;
    intros ty1.
  - destruct ty1; reflexivity.
  - destruct ty1; reflexivity.
  - destruct ty1 as [| |params1 retType1]; try reflexivity.
    simpl. rewrite !length_map, IHret.
    destruct (Nat.eqb (length params1) (length params2)); simpl; [|reflexivity..].
    assert (Obj.params_loop Obj.typeEq
              (map (fun p => (p.1, Obj.of_basic_ty p.2)) params1)
              (map (fun p => (p.1, Obj.of_basic_ty p.2)) params2)
            = Basic.params_loop Basic.typeEq params1 params2) as ->; [|reflexivity..].
    clear -IHparams. revert params1.
    induction IHparams as [|[n2 t2] ps2 Hp2 _ IH]; intros [|[n1 t1] ps1]; simpl;
      try reflexivity.
    simpl in Hp2. rewrite Hp2, IH. reflexivity.
Qed.

Lemma obj_field_of_basic (ty : Basic.Ty) name :
  field (Obj.of_basic_ty ty) name = option_map (option_map Obj.of_basic_ty) (field ty name).
Proof. destruct ty; simpl; repeat (destruct (String.eqb _ _)); reflexivity. Qed.

Lemma obj_extend_of_basic (params : list (string * Basic.Ty)) :
  forall tyEnv : env Basic.Ty,
    Obj.extend (Obj.of_basic_ty <$> tyEnv) (map (fun p => (p.1, Obj.of_basic_ty p.2)) params)
    = Obj.of_basic_ty <$> Basic.extend tyEnv params.
Proof.
  intros tyEnv. unfold Obj.extend, Basic.extend.
  rewrite copy_fmap. apply assign_params_fmap. reflexivity.
Qed.

Lemma obj_args_loop_of_basic (tcB : Basic.Term -> result Basic.exn Basic.Ty)
  (tcO : Obj.Term -> result Obj.exn Obj.Ty) t args :
  Forall (fun arg => forall ty, tcB arg = Ok ty ->
                                tcO (Obj.of_basic arg) = Ok (Obj.of_basic_ty ty)) args ->
  forall params,
    Basic.args_loop tcB args params = Ok tt ->
    Obj.args_loop tcO t (map Obj.of_basic args)
      (map (fun p => (p.1, Obj.of_basic_ty p.2)) params) = Ok tt.
Proof.
  induction 1 as [|arg args Harg _ IH]; intros params Hloop; simpl in *; [reflexivity|].
  destruct (tcB arg) as [argTy| |] eqn:HargB; [|discriminate..].
  rewrite (Harg argTy eq_refl).
  destruct params as [|[n type] params]; simpl; [reflexivity|].
  rewrite obj_typeEq_of_basic.
  destruct (Basic.typeEq argTy type); simpl in *; [apply IH, Hloop | discriminate].
Qed.

(** X12: every program that basic.ts accepts is accepted by obj.ts with
    the same type: when [typecheck] of basic.ts gives a term a type in an
    environment, [typecheck] of obj.ts gives the same term the same type in
    the same environment. *)
Theorem obj_extends_basic :
  forall (t : Basic.Term) (tyEnv : env Basic.Ty) ty,
    Basic.typecheck t tyEnv = Ok ty ->
    Obj.typecheck (Obj.of_basic t) (Obj.of_basic_ty <$> tyEnv) = Ok (Obj.of_basic_ty ty).
Proof.
  induction t as [| |cond thn els IHc IHt IHe| |l r IHl IHr| |params body IHb
                 |func args IHf IHargs|body rest _ _|name init rest _ _]
                   using Basic.Term_nested_ind;
    intros tyEnv ty H; simpl in H; try discriminate.
  - injection H as <-. reflexivity.
  - injection H as <-. reflexivity.
  - destruct (Basic.typecheck cond tyEnv) as [condTy| |] eqn:Hc; [|discriminate..].
    destruct condTy; simpl in H; try discriminate.
    destruct (Basic.typecheck thn tyEnv) as [thnTy| |] eqn:Ht; [|discriminate..].
    destruct (Basic.typecheck els tyEnv) as [elsTy| |] eqn:He; [|discriminate..].
    destruct (Basic.typeEq thnTy elsTy) eqn:Heq; simpl in H; [|discriminate..].
    injection H as <-. simpl.
    rewrite (IHc _ _ Hc), (IHt _ _ Ht), (IHe _ _ He). simpl.
    rewrite obj_typeEq_of_basic, Heq. reflexivity.
  - injection H as <-. reflexivity.
  - destruct (Basic.typecheck l tyEnv) as [leftTy| |] eqn:Hl; [|discriminate..].
    destruct leftTy; simpl in H; try discriminate.
    destruct (Basic.typecheck r tyEnv) as [rightTy| |] eqn:Hr; [|discriminate..].
    destruct rightTy; simpl in H; try discriminate.
    injection H as <-. simpl. rewrite (IHl _ _ Hl), (IHr _ _ Hr). reflexivity.
  - destruct (get tyEnv name) as [ty'| |] eqn:E; [|discriminate..].
    injection H as <-. simpl.
    rewrite (get_fmap Obj.of_basic_ty obj_field_of_basic _ _ _ E). reflexivity.
  - destruct (Basic.typecheck body (Basic.extend tyEnv params)) as [retType| |] eqn:Hb;
      [|discriminate..].
    injection H as <-. simpl. rewrite obj_extend_of_basic, (IHb _ _ Hb). reflexivity.
  - destruct (Basic.typecheck func tyEnv) as [funcTy| |] eqn:Hf; [|discriminate..].
    destruct funcTy as [| |params retType]; try discriminate.
    destruct (Nat.eqb (length params) (length args)) eqn:Hlen; simpl in H; [|discriminate..].
    destruct (Basic.args_loop (fun arg => Basic.typecheck arg tyEnv) args params)
      as [[]| |] eqn:Hloop; [|discriminate..].
    injection H as <-. simpl. rewrite (IHf _ _ Hf). simpl.
    rewrite !length_map, Hlen. simpl.
    rewrite (obj_args_loop_of_basic (fun arg => Basic.typecheck arg tyEnv)
               (fun arg => Obj.typecheck arg (Obj.of_basic_ty <$> tyEnv)));
      [reflexivity | | exact Hloop].
    rewrite Forall_forall in IHargs |- *. intros arg Hin ty' Hty'.
    exact (IHargs arg Hin _ _ Hty').
Qed.

Lemma obj_extends_basic_witness :
  Obj.typecheck
    (Obj.Tcall (Obj.Tfunc [("x", Obj.Number)] (Obj.Tvar "x")) [Obj.Tnumber 42]) ∅
  = Ok Obj.Number.
Proof.
  pose proof (obj_extends_basic
                (Basic.Tcall (Basic.Tfunc [("x", Basic.Number)] (Basic.Tvar "x"))
                   [Basic.Tnumber 42]) ∅ Basic.Number) as H.
  rewrite empty_fmap in H. apply H. reflexivity.
Defined.

Lemma seq2_typeEq_of_basic (ty2 : Basic.Ty) :
  forall ty1,
    Seq2.typeEq (Seq2.of_basic_ty ty1) (Seq2.of_basic_ty ty2) = Ok (Basic.typeEq ty1 ty2).
Proof.
  induction ty2 as [| |params2 retType2 IHparams IHret] using Basic.Ty_nested_ind;
    intros ty1.
  - destruct ty1; reflexivity.
  - destruct ty1; reflexivity.
  - destruct ty1 as [| |params1 retType1]; try reflexivity.
    simpl. rewrite !length_map, IHret.
    destruct (Nat.eqb (length params1) (length params2)); simpl; [|reflexivity..].
    assert (Seq2.params_loop Seq2.typeEq
              (map (fun p => (p.1, Seq2.of_basic_ty p.2)) params1)
              (map (fun p => (p.1, Seq2.of_basic_ty p.2)) params2)
            = Ok (Basic.params_loop Basic.typeEq params1 params2)) as ->.
    { clear -IHparams. revert params1.
      induction IHparams as [|[n2 t2] ps2 Hp2 _ IH]; intros [|[n1 t1] ps1]; simpl;
        try reflexivity.
      simpl in Hp2. rewrite Hp2. destruct (Basic.typeEq t1 t2); simpl; [apply IH | reflexivity]. }
    destruct (Basic.params_loop Basic.typeEq params1 params2); simpl; [|reflexivity..].
    destruct (Basic.typeEq retType1 retType2); reflexivity.
Qed.

Lemma seq2_field_of_basic (ty : Basic.Ty) name :
  field (Seq2.of_basic_ty ty) name = option_map (option_map Seq2.of_basic_ty) (field ty name).
Proof. destruct ty; simpl; repeat (destruct (String.eqb _ _)); reflexivity. Qed.

Lemma seq2_is_null_of_basic (ty : Basic.Ty) : is_null (Seq2.of_basic_ty ty) = is_null ty.
Proof. destruct ty; reflexivity. Qed.

Lemma seq2_extend_of_basic (params : list (string * Basic.Ty)) :
  forall tyEnv : env Basic.Ty,
    assign_params (copy (Seq2.of_basic_ty <$> tyEnv))
      (map (fun p => (p.1, Seq2.of_basic_ty p.2)) params)
    = Seq2.of_basic_ty <$> Basic.extend tyEnv params.
Proof.
  intros tyEnv. unfold Basic.extend.
  rewrite copy_fmap. apply assign_params_fmap, seq2_is_null_of_basic.
Qed.

Lemma seq2_args_loop_of_basic (tcB : Basic.Term -> result Basic.exn Basic.Ty) l
  (env : env Seq2.Ty) args :
  Forall (fun arg =>
            forall ty h, l < length h -> deref h l = env -> tcB arg = Ok ty ->
                         refines (Seq2.typecheck (Seq2.of_basic arg) l)
                                 (Ok (Seq2.of_basic_ty ty)) h) args ->
  forall params h,
    l < length h -> deref h l = env ->
    Basic.args_loop tcB args params = Ok tt ->
    refines (Seq2.args_loop Seq2.typecheck l (map Seq2.of_basic args)
               (map (fun p => (p.1, Seq2.of_basic_ty p.2)) params)) (Ok tt) h.
Proof.
  induction 1 as [|arg args Harg _ IH]; intros params h Hl He Hloop; unfold refines;
    simpl in *; [close_refines|].
  destruct (tcB arg) as [argTy| |] eqn:HargB; [|discriminate..].
  destruct (Harg argTy h Hl He eq_refl) as [k1 ->].
  destruct params as [|[n type] params]; simpl; [close_refines|].
  unfold pure. rewrite seq2_typeEq_of_basic.
  destruct (Basic.typeEq argTy type); simpl in *; [|discriminate..].
  destruct (valid_app h k1 l env Hl He) as [Hl1 He1].
  destruct (IH params (h ++ k1) Hl1 He1 Hloop) as [k2 ->].
  close_refines.
Qed.

(** X13: every program that basic.ts accepts is accepted by the seq2
    program with the same type: when [typecheck] of basic.ts gives a term a
    type in an environment, [typecheck] of the seq2 program, started with a
    reference to that environment, returns the same type and leaves the
    heap extended. *)
Theorem seq2_extends_basic :
  forall (t : Basic.Term) (tyEnv : env Basic.Ty) ty l h,
    l < length h ->
    deref h l = Seq2.of_basic_ty <$> tyEnv ->
    Basic.typecheck t tyEnv = Ok ty ->
    exists k, Seq2.typecheck (Seq2.of_basic t) l h = (Ok (Seq2.of_basic_ty ty), h ++ k).
Proof.
  induction t as [| |cond thn els IHc IHt IHe| |lt rt IHl IHr| |params body IHb
                 |func args IHf IHargs|body rest _ _|name init rest _ _]
                   using Basic.Term_nested_ind;
    intros tyEnv ty l h Hl He H; simpl in H; try discriminate.
  - injection H as <-. simpl. close_refines.
  - injection H as <-. simpl. close_refines.
  - destruct (Basic.typecheck cond tyEnv) as [condTy| |] eqn:Hc; [|discriminate..].
    destruct condTy; simpl in H; try discriminate.
    destruct (Basic.typecheck thn tyEnv) as [thnTy| |] eqn:Ht; [|discriminate..].
    destruct (Basic.typecheck els tyEnv) as [elsTy| |] eqn:Hels; [|discriminate..].
    destruct (Basic.typeEq thnTy elsTy) eqn:Heq; simpl in H; [|discriminate..].
    injection H as <-. simpl.
    destruct (IHc _ _ l h Hl He Hc) as [k1 ->]. simpl.
    destruct (valid_app h k1 l _ Hl He) as [Hl1 He1].
    destruct (IHt _ _ l (h ++ k1) Hl1 He1 Ht) as [k2 ->].
    destruct (valid_app (h ++ k1) k2 l _ Hl1 He1) as [Hl2 He2].
    destruct (IHe _ _ l ((h ++ k1) ++ k2) Hl2 He2 Hels) as [k3 ->].
    unfold pure. rewrite seq2_typeEq_of_basic, Heq. simpl. close_refines.
  - injection H as <-. simpl. close_refines.
  - destruct (Basic.typecheck lt tyEnv) as [leftTy| |] eqn:Hlt; [|discriminate..].
    destruct leftTy; simpl in H; try discriminate.
    destruct (Basic.typecheck rt tyEnv) as [rightTy| |] eqn:Hrt; [|discriminate..].
    destruct rightTy; simpl in H; try discriminate.
    injection H as <-. simpl.
    destruct (IHl _ _ l h Hl He Hlt) as [k1 ->]. simpl.
    destruct (valid_app h k1 l _ Hl He) as [Hl1 He1].
    destruct (IHr _ _ l (h ++ k1) Hl1 He1 Hrt) as [k2 ->]. simpl. close_refines.
  - destruct (get tyEnv name) as [ty'| |] eqn:E; [|discriminate..].
    injection H as <-. simpl.
    rewrite He, (get_fmap Seq2.of_basic_ty seq2_field_of_basic _ _ _ E). close_refines.
  - destruct (Basic.typecheck body (Basic.extend tyEnv params)) as [retType| |] eqn:Hb;
      [|discriminate..].
    injection H as <-. simpl.
    rewrite store_params_fresh, He, seq2_extend_of_basic.
    destruct (valid_fresh h (Seq2.of_basic_ty <$> Basic.extend tyEnv params)) as [Hl1 He1].
    destruct (IHb _ _ (length h) _ Hl1 He1 Hb) as [k1 ->]. close_refines.
  - destruct (Basic.typecheck func tyEnv) as [funcTy| |] eqn:Hf; [|discriminate..].
    destruct funcTy as [| |params retType]; try discriminate.
    destruct (Nat.eqb (length params) (length args)) eqn:Hlen; simpl in H; [|discriminate..].
    destruct (Basic.args_loop (fun arg => Basic.typecheck arg tyEnv) args params)
      as [[]| |] eqn:Hloop; [|discriminate..].
    injection H as <-. simpl.
    destruct (IHf _ _ l h Hl He Hf) as [k1 ->]. simpl.
    rewrite !length_map, Hlen. simpl.
    destruct (valid_app h k1 l _ Hl He) as [Hl1 He1].
    destruct (seq2_args_loop_of_basic (fun arg => Basic.typecheck arg tyEnv) l
                (Seq2.of_basic_ty <$> tyEnv) args)
      with (params := params) (h := h ++ k1) as [k2 ->];
      [|exact Hl1|exact He1|exact Hloop|close_refines].
    rewrite Forall_forall in IHargs |- *. intros arg Hin ty' h' Hl' He' Hty'.
    exact (IHargs arg Hin _ _ l h' Hl' He' Hty').
Qed.

Lemma seq2_extends_basic_witness :
  exists k,
    Seq2.typecheck
      (Seq2.Tcall (Seq2.Tfunc [("x", Seq2.Number)] (Seq2.Tvar "x")) [Seq2.Tnumber 42])
      0 [∅]
    = (Ok Seq2.Number, [∅] ++ k).
Proof.
  apply (seq2_extends_basic
           (Basic.Tcall (Basic.Tfunc [("x", Basic.Number)] (Basic.Tvar "x"))
              [Basic.Tnumber 42]) ∅ Basic.Number 0 [∅]).
  - simpl. lia.
  - symmetry. apply empty_fmap.
  - reflexivity.
Defined.
